(** * miniMind: the feed content model, the in-memory store and its routes

    A shallow embedding of [server/storage.ts] ([MemStorage]), of the
    route handlers registered by [registerRoutes], of the client's
    [splitContent] (create-feed and edit-feed modals) and of the feed
    card's [completionRate], followed by the properties the specification
    states about them.

    Conventions of the embedding:
    - a JavaScript string is the list of its UTF-16 code units;
    - entity ids, user ids and counters are JavaScript numbers that hold
      integers; they are taken in [Z] (integer arithmetic on them is exact
      up to 2^53);
    - [new Date()] is an explicit argument [now] of every operation that
      reads the clock;
    - a JavaScript [Map] from ids to entities is a [gmap]; [values()]
      lists it in insertion order, which in this store is the ascending
      order of the ids (see [MemStorage.values]);
    - [undefined] (an absent key) is [None]. *)

From Stdlib Require Import ZArith NArith Lia List String Ascii Bool Sorted.
From Stdlib Require Import QArith Qpower Qround Lqa Floats.
From stdpp Require Import gmap list sorting.

Local Open Scope Z_scope.

(** ** JavaScript strings *)

Module JS.

Definition jsstring := list N.

(** A Rocq string literal as a JavaScript string. Rocq literals have no
    escape sequences: ["\n"] below is the two characters backslash and n. *)
Definition js (s : string) : jsstring :=
  List.map N_of_ascii (list_ascii_of_string s).

Definition LF : N := 10%N.

(** ECMAScript WhiteSpace and LineTerminator code units, the ones
    [String.prototype.trim] strips. *)
Definition is_ws (c : N) : bool :=
  match c with
  | 9 | 10 | 11 | 12 | 13 | 32 | 160 | 5760 => true
  | 8192 | 8193 | 8194 | 8195 | 8196 | 8197 | 8198 | 8199 | 8200 | 8201
  | 8202 => true
  | 8232 | 8233 | 8239 | 8287 | 12288 | 65279 => true
  | _ => false
  end%N.

Fixpoint trimStart (s : jsstring) : jsstring :=
  match s with
  | c :: t => if is_ws c then trimStart t else s
  | [] => []
  end.

Definition trimEnd (s : jsstring) : jsstring := rev (trimStart (rev s)).

(** [String.prototype.trim] *)
Definition trim (s : jsstring) : jsstring := trimEnd (trimStart s).

(** [s] starts with [R] *)
Fixpoint starts_with (R s : jsstring) : bool :=
  match R, s with
  | [], _ => true
  | r :: R', c :: s' => (r =? c)%N && starts_with R' s'
  | _ :: _, [] => false
  end.

(** The scanning loop of [String.prototype.split] for a non-empty
    separator [R]: [seg] holds (reversed) the code units read since the
    last match, [skip] the number of code units of a matched separator
    still to step over. *)
Fixpoint split_loop (R : jsstring) (skip : nat) (seg s : jsstring)
  : list jsstring :=
  match s with
  | [] => [rev seg]
  | c :: s' =>
      match skip with
      | S k => split_loop R k seg s'
      | O =>
          if starts_with R s
          then rev seg :: split_loop R (Nat.pred (length R)) [] s'
          else split_loop R O (c :: seg) s'
      end
  end.

(** [S.split(separator)] for a string receiver and a separator that is a
    string or [undefined] (no limit argument): [undefined] gives [[S]],
    the empty separator gives the code units one by one. *)
Definition split (S : jsstring) (separator : option jsstring)
  : list jsstring :=
  match separator with
  | None => [S]
  | Some [] => List.map (fun c => [c]) S
  | Some R => split_loop R O [] S
  end.

(** The callback [Boolean] (and [item => item.length > 0]) on a string *)
Definition truthy (s : jsstring) : bool :=
  match s with [] => false | _ => true end.

(** Only white space (the empty string included) *)
Definition whitespace_only (s : jsstring) : bool := forallb is_ws s.

(** [Array.prototype.join] on an array of strings, with a string
    separator: the empty array gives the empty string. *)
Fixpoint join (separator : jsstring) (l : list jsstring) : jsstring :=
  match l with
  | [] => []
  | [x] => x
  | x :: rest => x ++ separator ++ join separator rest
  end.

End JS.
Export JS.

(** ** Client: [splitContent] of the create-feed and edit-feed modals *)

Definition splitContent (text separator : jsstring) : list jsstring :=
  let actualSeparator := separator in
  let actualSeparator :=
    if decide (separator = js "\n") then [LF] else actualSeparator in
  let actualSeparator :=
    if decide (separator = js "\n\n") then [LF; LF] else actualSeparator in
  List.filter (fun item => (0 <? Z.of_nat (length item)))
    (List.map trim (split text (Some actualSeparator))).

(** ** Server: the split of the POST and PATCH feed handlers

    [full_text.split(separator).map(item => item.trim()).filter(Boolean)] *)
Definition split_trim_filter (full_text : jsstring)
  (separator : option jsstring) : list jsstring :=
  List.filter truthy (List.map trim (split full_text separator)).


(** ** JavaScript numbers (binary64)

    A finite number is kept as the exact rational it denotes. [fl] is
    IEEE-754 round-to-nearest, ties-to-even, to 53 significant bits; the
    exponent range is not bounded, which is exact for the quotients and
    products formed below from integers of magnitude at most 2^53 and
    array lengths (no overflow, no subnormal result). Division by zero is
    not modelled: the one division below is guarded by its caller. *)

Module Number.
Local Open Scope Q_scope.

(** floor (log2 x), for [0 < x] *)
Definition ilog2 (x : Q) : Z :=
  let l := (Z.log2 (Qnum x) - Z.log2 (Zpos (Qden x)))%Z in
  if Qle_bool (2 ^ l) x then l else (l - 1)%Z.

(** nearest integer, ties to even *)
Definition rne (x : Q) : Z :=
  let f := Qfloor x in
  match Qcompare (x - inject_Z f) (1 # 2) with
  | Lt => f
  | Gt => (f + 1)%Z
  | Eq => if Z.even f then f else (f + 1)%Z
  end.

(** nearest 53-bit significand times a power of two, for [0 < x] *)
Definition round53 (x : Q) : Q :=
  let e := (ilog2 x - 52)%Z in inject_Z (rne (x / 2 ^ e)) * 2 ^ e.

Definition fl (x : Q) : Q :=
  match Qcompare x 0 with
  | Eq => 0
  | Gt => round53 x
  | Lt => - round53 (- x)
  end.

(** the operators [/] and [*] on numbers *)
Definition div (a b : Q) : Q := fl (a / b).
Definition mul (a b : Q) : Q := fl (a * b).

(** [Math.round]: the nearest integer, ties towards +infinity *)
Definition Math_round (x : Q) : Z := Qfloor (x + (1 # 2)).

(** The kernel's binary64 numbers, read back as rationals; used only to
    cross-check [fl] against the hardware arithmetic on sample inputs. *)
Definition SF2Q (s : spec_float) : option Q :=
  match s with
  | S754_zero _ => Some 0
  | S754_finite sg m e =>
      Some ((if sg then - (1) else 1) * inject_Z (Zpos m) * 2 ^ e)
  | _ => None
  end.

Definition float_of_Z (n : Z) : float := PrimFloat.of_uint63 (Uint63.of_Z n).

End Number.

(** ** shared/schema.ts: the entities and their insert and partial forms *)

Module User.
Record t := mk {
  id : Z; username : jsstring; password : jsstring; email : jsstring;
  name : jsstring; created_at : Z }.
End User.

Module InsertUser.
Record t := mk {
  username : jsstring; password : jsstring; email : jsstring;
  name : jsstring }.
End InsertUser.

Module Connection.
Record t := mk {
  id : Z; name : jsstring; url : jsstring; token : jsstring;
  status : jsstring; user_id : Z; icon : jsstring;
  created_at : Z; updated_at : Z; projects : option jsstring }.
End Connection.

Module InsertConnection.
Record t := mk {
  name : jsstring; url : jsstring; token : jsstring; status : jsstring;
  user_id : Z; icon : jsstring; projects : option jsstring }.
End InsertConnection.

(** [Partial<Connection>], also the shape of a request body: every key
    may be absent. [projects] is nullable: [Some None] is [null]. *)
Module PartialConnection.
Record t := mk {
  id : option Z; name : option jsstring; url : option jsstring;
  token : option jsstring; status : option jsstring; user_id : option Z;
  icon : option jsstring; created_at : option Z; updated_at : option Z;
  projects : option (option jsstring) }.
Definition empty : t :=
  mk None None None None None None None None None None.
End PartialConnection.

(** [description] is nullable and optional; [active] is optional in the
    insert schema and no default is filled in by the in-memory store, so
    a stored feed may lack it ([None]). *)
Module Feed.
Record t := mk {
  id : Z; name : jsstring; description : option jsstring;
  full_text : jsstring; contents : list jsstring;
  completed_contents : list jsstring; separator : jsstring;
  created_at : Z; updated_at : Z; user_id : Z; connection_id : Z;
  num_sent : Z; frequency : jsstring; active : option bool }.
End Feed.

Module InsertFeed.
Record t := mk {
  name : jsstring; description : option jsstring; full_text : jsstring;
  contents : list jsstring; completed_contents : list jsstring;
  separator : jsstring; user_id : Z; connection_id : Z;
  frequency : jsstring; active : option bool }.
End InsertFeed.

Module PartialFeed.
Record t := mk {
  id : option Z; name : option jsstring;
  description : option (option jsstring);
  full_text : option jsstring; contents : option (list jsstring);
  completed_contents : option (list jsstring);
  separator : option jsstring; created_at : option Z;
  updated_at : option Z; user_id : option Z; connection_id : option Z;
  num_sent : option Z; frequency : option jsstring;
  active : option bool }.
Definition empty : t :=
  mk None None None None None None None None None None None None None None.
End PartialFeed.

(** ** server/storage.ts: [MemStorage] *)

(** What the store and the handlers can throw. *)
Inductive exn :=
| ConnectionNotFound (id : Z)  (* Error(`Connection with id ${id} not found`) *)
| FeedNotFound (id : Z)        (* Error(`Feed with id ${id} not found`) *)
| TypeError.                   (* a method call on [undefined] *)

Inductive result (A : Type) :=
| Ok (a : A)
| Throw (e : exn).
Arguments Ok {A} a.
Arguments Throw {A} e.

Module MemStorage.

Record t := mk {
  users : gmap Z User.t;
  connections : gmap Z Connection.t;
  feeds : gmap Z Feed.t;
  userId : Z;
  connectionId : Z;
  feedId : Z }.

Definition set_feeds (m : gmap Z Feed.t) (s : t) : t :=
  mk (users s) (connections s) m (userId s) (connectionId s) (feedId s).

Definition set_connections (m : gmap Z Connection.t) (s : t) : t :=
  mk (users s) m (feeds s) (userId s) (connectionId s) (feedId s).

(** The entries of a [Map], as its iterators list them: in insertion
    order. The store enters a new key only in a create, which takes it from
    a counter above every key entered before; [set] on a present key keeps
    the entry's place and [delete] leaves the other entries in place. The
    insertion order is therefore the ascending order of the keys (lemmas
    [entries_insert_last], [entries_insert_present] and [entries_delete]
    say that this listing behaves as the Map's does). *)
Definition key_le {A} (x y : Z * A) : Prop := x.1 ≤ y.1.

#[export] Instance key_le_dec {A} (x y : Z * A) : Decision (key_le x y).
Proof. unfold key_le. apply _. Defined.

Definition entries {A} (m : gmap Z A) : list (Z * A) :=
  merge_sort key_le (map_to_list m).

(** [Array.from(map.values())] *)
Definition values {A} (m : gmap Z A) : list A := snd <$> entries m.

(** *** User operations *)

Definition getUser (id : Z) (s : t) : option User.t := users s !! id.

Definition createUser (insertUser : InsertUser.t) (now : Z) (s : t)
  : User.t * t :=
  let id := userId s in
  let user :=
    User.mk id (InsertUser.username insertUser)
      (InsertUser.password insertUser) (InsertUser.email insertUser)
      (InsertUser.name insertUser) now in
  (user,
   mk (<[id := user]> (users s)) (connections s) (feeds s)
      (id + 1) (connectionId s) (feedId s)).

Definition getUserByUsername (username : jsstring) (s : t)
  : option User.t :=
  List.find (fun user => bool_decide (User.username user = username))
    (values (users s)).

Definition admin : InsertUser.t :=
  InsertUser.mk (js "admin") (js "admin") (js "admin@minimind.com")
    (js "Admin").

(** The constructor: empty maps, counters at 1, then the admin user. *)
Definition new (now : Z) : t :=
  snd (createUser admin now (mk ∅ ∅ ∅ 1 1 1)).

(** *** Connection operations *)

Definition getConnection (id : Z) (s : t) : option Connection.t :=
  connections s !! id.

Definition getConnectionsByUserId (userId : Z) (s : t)
  : list Connection.t :=
  List.filter (fun connection => Connection.user_id connection =? userId)
    (values (connections s)).

Definition createConnection (insertConnection : InsertConnection.t)
  (now : Z) (s : t) : Connection.t * t :=
  let id := connectionId s in
  let connection :=
    Connection.mk id
      (InsertConnection.name insertConnection)
      (InsertConnection.url insertConnection)
      (InsertConnection.token insertConnection)
      (InsertConnection.status insertConnection)
      (InsertConnection.user_id insertConnection)
      (InsertConnection.icon insertConnection)
      now now
      (InsertConnection.projects insertConnection) in
  (connection,
   mk (users s) (<[id := connection]> (connections s)) (feeds s)
      (userId s) (id + 1) (feedId s)).

(** [{ ...existing, ...partialConnection }] *)
Definition spreadConnection (existing : Connection.t)
  (p : PartialConnection.t) : Connection.t :=
  Connection.mk
    (default (Connection.id existing) (PartialConnection.id p))
    (default (Connection.name existing) (PartialConnection.name p))
    (default (Connection.url existing) (PartialConnection.url p))
    (default (Connection.token existing) (PartialConnection.token p))
    (default (Connection.status existing) (PartialConnection.status p))
    (default (Connection.user_id existing) (PartialConnection.user_id p))
    (default (Connection.icon existing) (PartialConnection.icon p))
    (default (Connection.created_at existing)
       (PartialConnection.created_at p))
    (default (Connection.updated_at existing)
       (PartialConnection.updated_at p))
    (default (Connection.projects existing)
       (PartialConnection.projects p)).

Definition updateConnection (id : Z)
  (partialConnection : PartialConnection.t) (now : Z) (s : t)
  : result (Connection.t * t) :=
  match connections s !! id with
  | None => Throw (ConnectionNotFound id)
  | Some existing =>
      let merged := spreadConnection existing partialConnection in
      let updated :=
        Connection.mk id (* id *)
          (Connection.name merged) (Connection.url merged)
          (Connection.token merged) (Connection.status merged)
          (Connection.user_id merged) (Connection.icon merged)
          (Connection.created_at merged)
          now (* updated_at: new Date() *)
          (Connection.projects merged) in
      Ok (updated, set_connections (<[id := updated]> (connections s)) s)
  end.

(** *** Feed operations *)

Definition getFeed (id : Z) (s : t) : option Feed.t := feeds s !! id.

Definition getFeedsByUserId (userId : Z) (s : t) : list Feed.t :=
  List.filter (fun feed => Feed.user_id feed =? userId) (values (feeds s)).

Definition getFeedsByConnectionId (connectionId : Z) (s : t)
  : list Feed.t :=
  List.filter (fun feed => Feed.connection_id feed =? connectionId)
    (values (feeds s)).

Definition createFeed (insertFeed : InsertFeed.t) (now : Z) (s : t)
  : Feed.t * t :=
  let id := feedId s in
  let feed :=
    Feed.mk id
      (InsertFeed.name insertFeed)
      (InsertFeed.description insertFeed)
      (InsertFeed.full_text insertFeed)
      (InsertFeed.contents insertFeed)
      (InsertFeed.completed_contents insertFeed)
      (InsertFeed.separator insertFeed)
      now now
      (InsertFeed.user_id insertFeed)
      (InsertFeed.connection_id insertFeed)
      0 (* num_sent: 0 *)
      (InsertFeed.frequency insertFeed)
      (InsertFeed.active insertFeed) in
  (feed,
   mk (users s) (connections s) (<[id := feed]> (feeds s))
      (userId s) (connectionId s) (id + 1)).

(** [{ ...existing, ...partialFeed }] *)
Definition spreadFeed (existing : Feed.t) (p : PartialFeed.t) : Feed.t :=
  Feed.mk
    (default (Feed.id existing) (PartialFeed.id p))
    (default (Feed.name existing) (PartialFeed.name p))
    (default (Feed.description existing) (PartialFeed.description p))
    (default (Feed.full_text existing) (PartialFeed.full_text p))
    (default (Feed.contents existing) (PartialFeed.contents p))
    (default (Feed.completed_contents existing)
       (PartialFeed.completed_contents p))
    (default (Feed.separator existing) (PartialFeed.separator p))
    (default (Feed.created_at existing) (PartialFeed.created_at p))
    (default (Feed.updated_at existing) (PartialFeed.updated_at p))
    (default (Feed.user_id existing) (PartialFeed.user_id p))
    (default (Feed.connection_id existing) (PartialFeed.connection_id p))
    (default (Feed.num_sent existing) (PartialFeed.num_sent p))
    (default (Feed.frequency existing) (PartialFeed.frequency p))
    (match PartialFeed.active p with
     | Some b => Some b
     | None => Feed.active existing
     end).

Definition updateFeed (id : Z) (partialFeed : PartialFeed.t) (now : Z)
  (s : t) : result (Feed.t * t) :=
  match feeds s !! id with
  | None => Throw (FeedNotFound id)
  | Some existing =>
      let merged := spreadFeed existing partialFeed in
      let updated :=
        Feed.mk id (* id *)
          (Feed.name merged) (Feed.description merged)
          (Feed.full_text merged) (Feed.contents merged)
          (Feed.completed_contents merged) (Feed.separator merged)
          (Feed.created_at merged)
          now (* updated_at: new Date() *)
          (Feed.user_id merged) (Feed.connection_id merged)
          (Feed.num_sent merged) (Feed.frequency merged)
          (Feed.active merged) in
      Ok (updated, set_feeds (<[id := updated]> (feeds s)) s)
  end.

Definition deleteFeed (id : Z) (s : t) : t :=
  set_feeds (delete id (feeds s)) s.

(** The cascade of [deleteConnection]: the loop over [feedsToDelete]. *)
Definition deleteFeedsOf (id : Z) (s : t) : t :=
  let feedsToDelete := getFeedsByConnectionId id s in
  foldl (fun s feed => deleteFeed (Feed.id feed) s) s feedsToDelete.

Definition deleteConnection (id : Z) (s : t) : t :=
  let s := deleteFeedsOf id s in
  set_connections (delete id (connections s)) s.

End MemStorage.

(** ** server/routes.ts: the handlers of [registerRoutes]

    A handler takes [user], the id of the authenticated user
    ([req.user.id]; [None] when [req.isAuthenticated()] is false), the
    parsed [:id] parameter, the request body and the clock, and returns
    the response with the store it leaves. *)

Module Routes.
Import MemStorage.

Inductive body :=
| JMessage (message : jsstring)   (* { message } *)
| JZodError                       (* { message: error.message } of a ZodError *)
| JConnection (c : Connection.t)
| JFeed (f : Feed.t).

Inductive response :=
| SendStatus (code : Z)
| Json (code : Z) (b : body)
| Uncaught (e : exn).

(** The schema [createInsertSchema] derives for an [integer] column: a
    number within the range of a 32-bit signed integer. *)
Definition int32 (n : Z) : bool :=
  (-2147483648 <=? n) && (n <=? 2147483647).

(** [insertConnectionSchema.parse]: the picked keys, all required but the
    nullable [projects], [user_id] within the range of its [integer]
    column; other keys are stripped. *)
Definition insertConnectionSchema_parse (o : PartialConnection.t)
  : option InsertConnection.t :=
  name ← PartialConnection.name o;
  url ← PartialConnection.url o;
  token ← PartialConnection.token o;
  status ← PartialConnection.status o;
  user_id ← PartialConnection.user_id o;
  icon ← PartialConnection.icon o;
  if int32 user_id
  then
    Some (InsertConnection.mk name url token status user_id icon
            (default None (PartialConnection.projects o)))
  else None.

(** [insertFeedSchema.parse]: [description] and [active] are optional,
    the other picked keys required, [user_id] and [connection_id] within
    the range of their [integer] columns; other keys are stripped. *)
Definition insertFeedSchema_parse (o : PartialFeed.t)
  : option InsertFeed.t :=
  name ← PartialFeed.name o;
  full_text ← PartialFeed.full_text o;
  contents ← PartialFeed.contents o;
  completed_contents ← PartialFeed.completed_contents o;
  separator ← PartialFeed.separator o;
  user_id ← PartialFeed.user_id o;
  connection_id ← PartialFeed.connection_id o;
  frequency ← PartialFeed.frequency o;
  if int32 user_id && int32 connection_id
  then
    Some (InsertFeed.mk name (default None (PartialFeed.description o))
            full_text contents completed_contents separator user_id
            connection_id frequency (PartialFeed.active o))
  else None.

Definition connection_not_found : response :=
  Json 404 (JMessage (js "Connection not found")).

Definition feed_not_found : response :=
  Json 404 (JMessage (js "Feed not found")).

(** POST /api/connections *)
Definition post_connections (user : option Z) (body : PartialConnection.t)
  (now : Z) (s : t) : response * t :=
  match user with
  | None => (SendStatus 401, s)
  | Some uid =>
      let o :=
        PartialConnection.mk
          (PartialConnection.id body) (PartialConnection.name body)
          (PartialConnection.url body) (PartialConnection.token body)
          (PartialConnection.status body)
          (Some uid) (* user_id: req.user.id *)
          (PartialConnection.icon body)
          (PartialConnection.created_at body)
          (PartialConnection.updated_at body)
          (PartialConnection.projects body) in
      match insertConnectionSchema_parse o with
      | Some connectionData =>
          let '(connection, s') := createConnection connectionData now s in
          (Json 201 (JConnection connection), s')
      | None => (Json 400 JZodError, s)
      end
  end.

(** GET /api/connections/:id *)
Definition get_connection (user : option Z) (connectionId : Z) (s : t)
  : response * t :=
  match user with
  | None => (SendStatus 401, s)
  | Some uid =>
      match getConnection connectionId s with
      | Some connection =>
          if negb (Connection.user_id connection =? uid)
          then (connection_not_found, s)
          else (Json 200 (JConnection connection), s)
      | None => (connection_not_found, s)
      end
  end.

(** PATCH /api/connections/:id *)
Definition patch_connection (user : option Z) (connectionId : Z)
  (body : PartialConnection.t) (now : Z) (s : t) : response * t :=
  match user with
  | None => (SendStatus 401, s)
  | Some uid =>
      match getConnection connectionId s with
      | Some existingConnection =>
          if negb (Connection.user_id existingConnection =? uid)
          then (connection_not_found, s)
          else
            match updateConnection connectionId body now s with
            | Ok (connection, s') => (Json 200 (JConnection connection), s')
            | Throw e => (Uncaught e, s)
            end
      | None => (connection_not_found, s)
      end
  end.

(** DELETE /api/connections/:id *)
Definition delete_connection (user : option Z) (connectionId : Z) (s : t)
  : response * t :=
  match user with
  | None => (SendStatus 401, s)
  | Some uid =>
      match getConnection connectionId s with
      | Some existingConnection =>
          if negb (Connection.user_id existingConnection =? uid)
          then (connection_not_found, s)
          else (SendStatus 204, deleteConnection connectionId s)
      | None => (connection_not_found, s)
      end
  end.

(** POST /api/feeds. [full_text.split] on an absent [full_text] throws a
    TypeError, which is not a ZodError and is rethrown. *)
Definition post_feeds (user : option Z) (body : PartialFeed.t) (now : Z)
  (s : t) : response * t :=
  match user with
  | None => (SendStatus 401, s)
  | Some uid =>
      match PartialFeed.full_text body with
      | None => (Uncaught TypeError, s)
      | Some full_text =>
          let separator := PartialFeed.separator body in
          let contents := split_trim_filter full_text separator in
          let o :=
            PartialFeed.mk
              (PartialFeed.id body) (PartialFeed.name body)
              (PartialFeed.description body)
              (Some full_text)
              (Some contents)
              (Some []) (* completed_contents: [] *)
              separator
              (PartialFeed.created_at body) (PartialFeed.updated_at body)
              (Some uid) (* user_id: req.user.id *)
              (PartialFeed.connection_id body) (PartialFeed.num_sent body)
              (PartialFeed.frequency body) (PartialFeed.active body) in
          match insertFeedSchema_parse o with
          | Some feedData =>
              let '(feed, s') := createFeed feedData now s in
              (Json 201 (JFeed feed), s')
          | None => (Json 400 JZodError, s)
          end
      end
  end.

(** GET /api/feeds/:id *)
Definition get_feed (user : option Z) (feedId : Z) (s : t) : response * t :=
  match user with
  | None => (SendStatus 401, s)
  | Some uid =>
      match getFeed feedId s with
      | Some feed =>
          if negb (Feed.user_id feed =? uid)
          then (feed_not_found, s)
          else (Json 200 (JFeed feed), s)
      | None => (feed_not_found, s)
      end
  end.

(** The recomputation step of PATCH /api/feeds/:id:
    [if (updateData.full_text && updateData.separator)
       updateData.contents = ...split...] *)
Definition recompute_contents (updateData : PartialFeed.t) : PartialFeed.t :=
  match PartialFeed.full_text updateData, PartialFeed.separator updateData with
  | Some full_text, Some separator =>
      if truthy full_text && truthy separator
      then
        PartialFeed.mk
          (PartialFeed.id updateData) (PartialFeed.name updateData)
          (PartialFeed.description updateData)
          (PartialFeed.full_text updateData)
          (Some (split_trim_filter full_text (Some separator)))
          (PartialFeed.completed_contents updateData)
          (PartialFeed.separator updateData)
          (PartialFeed.created_at updateData)
          (PartialFeed.updated_at updateData)
          (PartialFeed.user_id updateData)
          (PartialFeed.connection_id updateData)
          (PartialFeed.num_sent updateData)
          (PartialFeed.frequency updateData)
          (PartialFeed.active updateData)
      else updateData
  | _, _ => updateData
  end.

(** PATCH /api/feeds/:id *)
Definition patch_feed (user : option Z) (feedId : Z) (body : PartialFeed.t)
  (now : Z) (s : t) : response * t :=
  match user with
  | None => (SendStatus 401, s)
  | Some uid =>
      match getFeed feedId s with
      | Some existingFeed =>
          if negb (Feed.user_id existingFeed =? uid)
          then (feed_not_found, s)
          else
            let updateData := recompute_contents body in
            match updateFeed feedId updateData now s with
            | Ok (feed, s') => (Json 200 (JFeed feed), s')
            | Throw e => (Uncaught e, s)
            end
      | None => (feed_not_found, s)
      end
  end.

(** [!existingFeed.active] *)
Definition not_active (feed : Feed.t) : bool :=
  negb (default false (Feed.active feed)).

(** PATCH /api/feeds/:id/toggle *)
Definition patch_feed_toggle (user : option Z) (feedId : Z) (now : Z)
  (s : t) : response * t :=
  match user with
  | None => (SendStatus 401, s)
  | Some uid =>
      match getFeed feedId s with
      | Some existingFeed =>
          if negb (Feed.user_id existingFeed =? uid)
          then (feed_not_found, s)
          else
            let partialFeed :=
              PartialFeed.mk None None None None None None None None None
                None None None None (Some (not_active existingFeed)) in
            match updateFeed feedId partialFeed now s with
            | Ok (feed, s') => (Json 200 (JFeed feed), s')
            | Throw e => (Uncaught e, s)
            end
      | None => (feed_not_found, s)
      end
  end.

(** DELETE /api/feeds/:id *)
Definition delete_feed (user : option Z) (feedId : Z) (s : t)
  : response * t :=
  match user with
  | None => (SendStatus 401, s)
  | Some uid =>
      match getFeed feedId s with
      | Some existingFeed =>
          if negb (Feed.user_id existingFeed =? uid)
          then (feed_not_found, s)
          else (SendStatus 204, deleteFeed feedId s)
      | None => (feed_not_found, s)
      end
  end.

(** The handlers that answer with a list or with the statistics: either
    one of the responses above, or [res.json(a)] (status 200). They do not
    touch the store. *)
Inductive reply (A : Type) :=
| Reply (r : response)
| JsonOf (a : A).
Arguments Reply {A} r.
Arguments JsonOf {A} a.

(** GET /api/connections *)
Definition get_connections (user : option Z) (s : t)
  : reply (list Connection.t) :=
  match user with
  | None => Reply (SendStatus 401)
  | Some uid => JsonOf (getConnectionsByUserId uid s)
  end.

(** GET /api/feeds *)
Definition get_feeds (user : option Z) (s : t) : reply (list Feed.t) :=
  match user with
  | None => Reply (SendStatus 401)
  | Some uid => JsonOf (getFeedsByUserId uid s)
  end.

Record Stats := mkStats {
  activeFeeds : Z; connectedApps : Z; contentDelivered : Z }.

(** GET /api/stats *)
Definition get_stats (user : option Z) (s : t) : reply Stats :=
  match user with
  | None => Reply (SendStatus 401)
  | Some uid =>
      let connections := getConnectionsByUserId uid s in
      let feeds := getFeedsByUserId uid s in
      let activeFeeds :=
        Z.of_nat
          (length
             (List.filter (fun feed => default false (Feed.active feed))
                feeds)) in
      let contentDelivered :=
        fold_left (fun sum feed => sum + Feed.num_sent feed) feeds 0 in
      JsonOf
        (mkStats activeFeeds (Z.of_nat (length connections))
           contentDelivered)
  end.

(** A 2xx response *)
Definition success (r : response) : bool :=
  match r with
  | SendStatus 204 | Json 200 _ | Json 201 _ => true
  | _ => false
  end.

End Routes.

(** ** Client: the create-feed modal's request and the feed card *)

Module Client.

(** [FeedFormValues] of the create-feed modal *)
Record FeedFormValues := mkForm {
  name : jsstring; description : option jsstring; full_text : jsstring;
  separator : jsstring; frequency : jsstring; connection_id : Z;
  active : bool }.

(** The body [createFeedMutation] posts to /api/feeds:
    [{ ...data, contents, completed_contents: [] }] *)
Definition createFeedMutation_body (data : FeedFormValues) : PartialFeed.t :=
  let contents := splitContent (full_text data) (separator data) in
  PartialFeed.mk None (Some (name data)) (Some <$> description data)
    (Some (full_text data)) (Some contents) (Some [])
    (Some (separator data)) None None None (Some (connection_id data))
    None (Some (frequency data)) (Some (active data)).

(** [FeedCard]: the completion rate shown on the progress bar,
    [feed.contents.length > 0
       ? Math.round((feed.num_sent / feed.contents.length) * 100) : 0] *)
Definition completionRate (feed : Feed.t) : Z :=
  let length := Z.of_nat (length (Feed.contents feed)) in
  if 0 <? length
  then
    Number.Math_round
      (Number.mul
         (Number.div (inject_Z (Feed.num_sent feed)) (inject_Z length))
         (inject_Z 100))
  else 0.

(** The number [Math.round] is applied to, as a function of
    [feed.num_sent] and [feed.contents.length]. *)
Definition rate_value (num_sent length : Z) : Q :=
  Number.mul (Number.div (inject_Z num_sent) (inject_Z length))
    (inject_Z 100).

(** The same expression on the kernel's binary64 numbers, before
    [Math.round]; used only to cross-check [Number.fl]. *)
Definition kernel_rate (num_sent length : Z) : option Q :=
  Number.SF2Q
    (Prim2SF
       (PrimFloat.mul
          (PrimFloat.div (Number.float_of_Z num_sent)
             (Number.float_of_Z length))
          (Number.float_of_Z 100))).

(** [completionRate] before rounding agrees with the kernel's binary64
    arithmetic at [num_sent], [length]. *)
Definition agrees_with_kernel (num_sent length : Z) : bool :=
  match kernel_rate num_sent length with
  | Some v =>
      Qeq_bool v
        (Number.mul (Number.div (inject_Z num_sent) (inject_Z length))
           (inject_Z 100))
  | None => false
  end.

(** All pairs [0 <= num_sent <= length + 1], [1 <= length <= k]. *)
Definition sample_pairs (k : nat) : list (Z * Z) :=
  List.flat_map
    (fun d =>
       List.map (fun n => (Z.of_nat n, Z.of_nat (S d))) (seq 0 (S (S (S d)))))
    (seq 0 k).

(** The edit-feed modal: [reconstructFullText], which fills the form's
    [full_text] from the stored contents. *)
Definition reconstructFullText (feed : Feed.t) : jsstring :=
  let separator := js "\n" in
  let separator :=
    if truthy (Feed.separator feed) then Feed.separator feed
    else separator in
  let actualSeparator := separator in
  let actualSeparator :=
    if decide (separator = js "\n") then [LF] else actualSeparator in
  let actualSeparator :=
    if decide (separator = js "\n\n") then [LF; LF] else actualSeparator in
  join actualSeparator (Feed.contents feed).

(** The values the edit-feed modal's form holds when the dialog opens
    ([defaultValues]), as [handleSubmit] passes them on: an absent
    [active] takes the form schema's default. *)
Definition defaultValues (feed : Feed.t) : FeedFormValues :=
  mkForm (Feed.name feed)
    (Some (default [] (Feed.description feed))) (* feed.description || "" *)
    (reconstructFullText feed) (Feed.separator feed) (Feed.frequency feed)
    (Feed.connection_id feed) (default true (Feed.active feed)).

(** The body [updateFeedMutation] of the edit-feed modal sends with
    PATCH /api/feeds/:id:
    [{ ...data, contents, completed_contents: feed.completed_contents }] *)
Definition updateFeedMutation_body (feed : Feed.t) (data : FeedFormValues)
  : PartialFeed.t :=
  let contents := splitContent (full_text data) (separator data) in
  PartialFeed.mk None (Some (name data)) (Some <$> description data)
    (Some (full_text data)) (Some contents)
    (Some (Feed.completed_contents feed))
    (Some (separator data)) None None None (Some (connection_id data))
    None (Some (frequency data)) (Some (active data)).

(** The connection card: the body [toggleConnectionMutation] sends with
    PATCH /api/connections/:id, [{ status: newStatus }]. *)
Definition toggleConnectionMutation_body (connection : Connection.t)
  : PartialConnection.t :=
  let newStatus :=
    if decide (Connection.status connection = js "Connected")
    then js "Disconnected" else js "Connected" in
  PartialConnection.mk None None None None (Some newStatus) None None None
    None None.

End Client.

(** ** Runs of the store

    A run is a sequence of calls of the store's mutating methods, each
    with the clock value it reads; [exec] also reports the id a create
    assigns. *)

Inductive kind := KUser | KConnection | KFeed.

Inductive call :=
| CreateUser (insertUser : InsertUser.t)
| CreateConnection (insertConnection : InsertConnection.t)
| UpdateConnection (id : Z) (partialConnection : PartialConnection.t)
| DeleteConnection (id : Z)
| CreateFeed (insertFeed : InsertFeed.t)
| UpdateFeed (id : Z) (partialFeed : PartialFeed.t)
| DeleteFeed (id : Z).

Definition exec (now : Z) (c : call) (s : MemStorage.t)
  : MemStorage.t * option (kind * Z) :=
  match c with
  | CreateUser u =>
      let '(user, s') := MemStorage.createUser u now s in
      (s', Some (KUser, User.id user))
  | CreateConnection i =>
      let '(connection, s') := MemStorage.createConnection i now s in
      (s', Some (KConnection, Connection.id connection))
  | UpdateConnection id p =>
      match MemStorage.updateConnection id p now s with
      | Ok (_, s') => (s', None)
      | Throw _ => (s, None)
      end
  | DeleteConnection id => (MemStorage.deleteConnection id s, None)
  | CreateFeed i =>
      let '(feed, s') := MemStorage.createFeed i now s in
      (s', Some (KFeed, Feed.id feed))
  | UpdateFeed id p =>
      match MemStorage.updateFeed id p now s with
      | Ok (_, s') => (s', None)
      | Throw _ => (s, None)
      end
  | DeleteFeed id => (MemStorage.deleteFeed id s, None)
  end.

(** The store after a run, and the ids assigned, oldest first. *)
Fixpoint run (cs : list (Z * call)) (s : MemStorage.t)
  : MemStorage.t * list (kind * Z) :=
  match cs with
  | [] => (s, [])
  | (now, c) :: cs' =>
      let '(s1, assigned) := exec now c s in
      let '(s2, log) := run cs' s1 in
      (s2, match assigned with Some a => a :: log | None => log end)
  end.

Definition kind_eqb (a b : kind) : bool :=
  match a, b with
  | KUser, KUser | KConnection, KConnection | KFeed, KFeed => true
  | _, _ => false
  end.

Definition ids_of (k : kind) (log : list (kind * Z)) : list Z :=
  snd <$> List.filter (fun a => kind_eqb (fst a) k) log.

(** The next id of each kind. *)
Definition counter (k : kind) (s : MemStorage.t) : Z :=
  match k with
  | KUser => MemStorage.userId s
  | KConnection => MemStorage.connectionId s
  | KFeed => MemStorage.feedId s
  end.

(** A store instance from its construction on: the constructor creates
    the admin user, then the calls run. *)
Definition history (t0 : Z) (cs : list (Z * call))
  : MemStorage.t * list (kind * Z) :=
  let '(s, log) := run cs (MemStorage.new t0) in
  (s, (KUser, 1) :: log).

(** Every entity is stored under its own id, and below the counter. *)
Definition store_ok (s : MemStorage.t) : Prop :=
  map_Forall (fun k u => User.id u = k ∧ k < MemStorage.userId s)
    (MemStorage.users s) ∧
  map_Forall (fun k c => Connection.id c = k ∧ k < MemStorage.connectionId s)
    (MemStorage.connections s) ∧
  map_Forall (fun k f => Feed.id f = k ∧ k < MemStorage.feedId s)
    (MemStorage.feeds s).

#[export] Instance store_ok_dec (s : MemStorage.t) : Decision (store_ok s).
Proof. unfold store_ok. apply _. Defined.

(** ** Vocabulary of the properties *)

(** The specification's [completionPercent], read in exact arithmetic:
    [round(num_sent / contents.length * 100)] on the exact quotient,
    halves rounded upwards, and 0 when [contents.length == 0]. *)
Definition completionPercent_spec (feed : Feed.t) : Z :=
  let length := Z.of_nat (length (Feed.contents feed)) in
  if 0 <? length
  then
    Number.Math_round
      (inject_Z (Feed.num_sent feed) / inject_Z length * inject_Z 100)%Q
  else 0.

(** The exact percentage [num_sent / length * 100] lies halfway between
    two integers. *)
Definition halfway (num_sent length : Z) : Prop :=
  ∃ k : Z,
    (inject_Z num_sent / inject_Z length * inject_Z 100 ==
     inject_Z k + (1 # 2))%Q.

(** The unit roundoff of binary64, 2^-53 *)
Definition unit_roundoff : Q := 1 # 9007199254740992.

(** What the specification asks of a content item. *)
Definition clean_item (item : jsstring) : Prop :=
  item ≠ [] ∧ whitespace_only item = false ∧ trim item = item.

(** A feed with the given number of sent items and the given contents. *)
Definition sample_feed (num_sent : Z) (contents : list jsstring) : Feed.t :=
  Feed.mk 1 (js "feed") None [] contents [] (js ",") 0 0 1 1 num_sent
    (js "Daily") (Some true).

Definition sample_connection (user_id : Z) : InsertConnection.t :=
  InsertConnection.mk (js "Notes") (js "https://example.org") (js "token")
    (js "Connected") user_id (js "notion") None.

Definition sample_insert_feed (user_id connection_id : Z) : InsertFeed.t :=
  InsertFeed.mk (js "Quotes") None (js "a;b") [js "a"; js "b"] [] (js ";")
    user_id connection_id (js "Daily") (Some true).

(** A store with the connections 1 (of user 1) and 2 (of user 2), the
    feeds 1 and 2 on connection 1 and the feed 3 on connection 2. *)
Definition sample_store : MemStorage.t :=
  fst (history 0
         [(1, CreateConnection (sample_connection 1));
          (2, CreateConnection (sample_connection 2));
          (3, CreateFeed (sample_insert_feed 1 1));
          (4, CreateFeed (sample_insert_feed 1 1));
          (5, CreateFeed (sample_insert_feed 2 2))]).

(** The text x, newline, y *)
Definition x_newline_y : jsstring := js "x" ++ [LF] ++ js "y".

(** [o] is not visible to the user [uid]: absent, or owned by another
    user. *)
Definition hidden {A} (owner : A → Z) (uid : Z) (o : option A) : Prop :=
  o = None ∨ ∃ x, o = Some x ∧ owner x ≠ uid.

(** [part] is a contiguous part of [text]. *)
Definition part_of (part text : jsstring) : Prop :=
  ∃ before after, text = before ++ part ++ after.

(** A feed of user 1 on connection 1 with the given separator and
    contents (the full text left empty). *)
Definition feed_with (separator : jsstring) (contents : list jsstring)
  : Feed.t :=
  Feed.mk 1 (js "Quotes") None [] contents [] separator 3 3 1 1 0
    (js "Daily") (Some true).

(** Every connection (feed) of [s] that does not belong to [uid] is in
    [s'] as it was. *)
Definition kept_connections (uid : Z) (s s' : MemStorage.t) : Prop :=
  ∀ k c, MemStorage.connections s !! k = Some c →
         Connection.user_id c ≠ uid →
         MemStorage.connections s' !! k = Some c.

Definition kept_feeds (uid : Z) (s s' : MemStorage.t) : Prop :=
  ∀ k f, MemStorage.feeds s !! k = Some f →
         Feed.user_id f ≠ uid →
         MemStorage.feeds s' !! k = Some f.

(** The store [s'] read against [s]: [getFeed id] now answers [feed],
    every other feed, every connection, every user and the three counters
    are as in [s]. *)
Definition feed_written (id : Z) (feed : Feed.t) (s s' : MemStorage.t)
  : Prop :=
  MemStorage.getFeed id s' = Some feed ∧
  (∀ k, k ≠ id → MemStorage.getFeed k s' = MemStorage.getFeed k s) ∧
  (∀ k, MemStorage.getConnection k s' = MemStorage.getConnection k s) ∧
  (∀ k, MemStorage.getUser k s' = MemStorage.getUser k s) ∧
  (∀ kind, counter kind s' = counter kind s).

(** The same for a connection. *)
Definition connection_written (id : Z) (connection : Connection.t)
  (s s' : MemStorage.t) : Prop :=
  MemStorage.getConnection id s' = Some connection ∧
  (∀ k, k ≠ id →
        MemStorage.getConnection k s' = MemStorage.getConnection k s) ∧
  (∀ k, MemStorage.getFeed k s' = MemStorage.getFeed k s) ∧
  (∀ k, MemStorage.getUser k s' = MemStorage.getUser k s) ∧
  (∀ kind, counter kind s' = counter kind s).

(** What [updateFeed id { active: !feed.active }] makes of [feed] at time
    [now]. *)
Definition toggled (id now : Z) (feed : Feed.t) : Feed.t :=
  Feed.mk id (Feed.name feed) (Feed.description feed) (Feed.full_text feed)
    (Feed.contents feed) (Feed.completed_contents feed)
    (Feed.separator feed) (Feed.created_at feed) now (Feed.user_id feed)
    (Feed.connection_id feed) (Feed.num_sent feed) (Feed.frequency feed)
    (Some (Routes.not_active feed)).

(** * Properties *)

(** ** Strings: [trim] and the splitters *)

Section Trim.

Lemma trimStart_head (s : jsstring) :
  match trimStart s with [] => True | c :: _ => is_ws c = false end.
Proof.
  induction s as [|c t IH]; simpl; [exact I|].
  destruct (is_ws c) eqn:E; [exact IH | exact E].
Qed.

Lemma trimStart_split (s : jsstring) :
  ∃ p, s = p ++ trimStart s ∧ whitespace_only p = true.
Proof.
  induction s as [|c t [p [Hp Hw]]]; simpl.
  - exists []. split; reflexivity.
  - destruct (is_ws c) eqn:E.
    + exists (c :: p). split; [simpl; congruence|].
      unfold whitespace_only in *; simpl. rewrite E, Hw. reflexivity.
    + exists []. split; reflexivity.
Qed.

Lemma trimStart_fixed (c : N) (t : jsstring) :
  is_ws c = false → trimStart (c :: t) = c :: t.
Proof. intros E; simpl. rewrite E. reflexivity. Qed.

(** A non-empty [trim s] starts and ends with a code unit that is not
    white space. *)
Lemma trim_ends (s : jsstring) :
  trim s = [] ∨
  ∃ a u b v, trim s = a :: u ∧ rev (trim s) = b :: v ∧
             is_ws a = false ∧ is_ws b = false.
Proof.
  unfold trim, trimEnd.
  set (y := trimStart s).
  pose proof (trimStart_head s) as Hy. fold y in Hy.
  pose proof (trimStart_head (rev y)) as Hw.
  destruct (trimStart_split (rev y)) as [p [Hp _]].
  set (w := trimStart (rev y)) in *.
  destruct w as [|b v] eqn:Ew; [left; reflexivity|right].
  assert (y = rev (b :: v) ++ rev p) as Hyw.
  { rewrite <- rev_app_distr, <- Hp, rev_involutive. reflexivity. }
  destruct (rev (b :: v)) as [|a u] eqn:Er.
  { apply (f_equal (@length N)) in Er. rewrite length_rev in Er.
    discriminate. }
  exists a, u, b, v. rewrite <- Er, rev_involutive.
  split; [reflexivity|]. split; [reflexivity|]. split; [|exact Hw].
  rewrite Hyw in Hy. exact Hy.
Qed.

Lemma trim_idempotent (s : jsstring) : trim (trim s) = trim s.
Proof.
  destruct (trim_ends s) as [->|(a & u & b & v & Ha & Hb & Wa & Wb)];
    [reflexivity|].
  unfold trim at 1. unfold trimEnd.
  rewrite Ha, (trimStart_fixed a u Wa), <- Ha, Hb.
  rewrite (trimStart_fixed b v Wb), <- Hb.
  apply rev_involutive.
Qed.

Lemma trim_not_whitespace (s : jsstring) :
  trim s ≠ [] → whitespace_only (trim s) = false.
Proof.
  destruct (trim_ends s) as [->|(a & u & b & v & Ha & _ & Wa & _)];
    [congruence|].
  intros _. rewrite Ha. unfold whitespace_only; simpl.
  rewrite Wa. reflexivity.
Qed.

End Trim.

Lemma filter_map_trim_clean (keep : jsstring → bool) (l : list jsstring) :
  (∀ x, keep x = true → x ≠ []) →
  Forall clean_item (List.filter keep (List.map trim l)).
Proof.
  intros Hkeep. apply List.Forall_forall. intros item Hin.
  apply filter_In in Hin as [Hin Hk].
  apply in_map_iff in Hin as [x [<- _]].
  pose proof (Hkeep _ Hk) as Hne.
  repeat split;
    [exact Hne | apply trim_not_whitespace, Hne | apply trim_idempotent].
Qed.

(** C7. For every full text and every separator (for the server also an
    absent one), every item the server's split and the client's
    [splitContent] return is non-empty, is not made of white space only,
    and is trimmed. *)
Theorem C7_split_items_clean (full_text separator : jsstring)
  (server_separator : option jsstring) :
  Forall clean_item (split_trim_filter full_text server_separator) ∧
  Forall clean_item (splitContent full_text separator).
Proof.
  split.
  - apply filter_map_trim_clean. intros [|c x]; [discriminate|congruence].
  - apply filter_map_trim_clean. intros [|c x]; [discriminate|congruence].
Qed.

(** ** Numbers: rounding is monotone *)

Section Binary64.
Import Number.
Local Open Scope Q_scope.

(** The three cases of rounding to the nearest integer *)
Lemma rne_cases (x : Q) :
  let f := Qfloor x in
  (x - inject_Z f < 1 # 2 /\ rne x = f) \/
  (x - inject_Z f > 1 # 2 /\ rne x = (f + 1)%Z) \/
  (x - inject_Z f == 1 # 2 /\ rne x = if Z.even f then f else (f + 1)%Z).
Proof.
  unfold rne; cbv zeta.
  destruct (Qcompare (x - inject_Z (Qfloor x)) (1 # 2)) eqn:E.
  - right; right. apply Qeq_alt in E. auto.
  - left. apply Qlt_alt in E. auto.
  - right; left. apply Qgt_alt in E. auto.
Qed.

Lemma Qfloor_bounds (x : Q) :
  inject_Z (Qfloor x) <= x < inject_Z (Qfloor x) + 1.
Proof.
  split; [apply Qfloor_le|].
  pose proof (Qlt_floor x) as H. rewrite inject_Z_plus in H. exact H.
Qed.

(** Rounding to the nearest integer is monotone and fixes the integers. *)
Lemma rne_mono (x y : Q) : x <= y -> (rne x <= rne y)%Z.
Proof.
  intros Hxy.
  pose proof (Qfloor_resp_le _ _ Hxy) as Hf.
  pose proof (Qfloor_bounds x) as [Hx1 Hx2].
  pose proof (Qfloor_bounds y) as [Hy1 Hy2].
  destruct (Z.eq_dec (Qfloor x) (Qfloor y)) as [Heq|Hne].
  - destruct (rne_cases x) as [[Hx ->]|[[Hx ->]|[Hx ->]]];
    destruct (rne_cases y) as [[Hy ->]|[[Hy ->]|[Hy ->]]];
    rewrite <- ?Heq in *; try lia; try (exfalso; lra);
    destruct (Z.even (Qfloor x)); lia.
  - assert (Qfloor x + 1 <= Qfloor y)%Z as Hlt by lia.
    destruct (rne_cases x) as [[Hx ->]|[[Hx ->]|[Hx ->]]];
    destruct (rne_cases y) as [[Hy ->]|[[Hy ->]|[Hy ->]]];
    try lia;
    repeat match goal with
           | |- context [Z.even ?a] => destruct (Z.even a)
           end; lia.
Qed.

Lemma rne_inject_Z (n : Z) : rne (inject_Z n) = n.
Proof.
  destruct (rne_cases (inject_Z n)) as [[Hx ->]|[[Hx ->]|[Hx ->]]];
  rewrite Qfloor_Z in *; try reflexivity; exfalso; lra.
Qed.

Lemma pow2_pos (z : Z) : 0 < 2 ^ z.
Proof. apply Qpower_0_lt. reflexivity. Qed.

Lemma pow2_succ (z : Z) : 2 ^ (z + 1) == 2 * 2 ^ z.
Proof. rewrite Qpower_plus by discriminate. simpl (2 ^ 1). ring. Qed.

Lemma pow2_pred (z : Z) : 2 * 2 ^ (z - 1) == 2 ^ z.
Proof.
  rewrite <- pow2_succ. replace (z - 1 + 1)%Z with z by ring. reflexivity.
Qed.

Lemma pow2_sub (a b : Z) : 2 ^ (a - b) == 2 ^ a / 2 ^ b.
Proof. apply Qpower_minus. discriminate. Qed.

Lemma pow2_log2 (n : Z) :
  (0 < n)%Z -> 2 ^ Z.log2 n <= inject_Z n < 2 * 2 ^ Z.log2 n.
Proof.
  intros Hn. destruct (Z.log2_spec n Hn) as [H1 H2].
  pose proof (Z.log2_nonneg n) as H0.
  rewrite <- Z.add_1_r in H2.
  rewrite <- pow2_succ.
  rewrite <- !(Zpower_Qpower 2) by lia.
  rewrite <- Zle_Qle, <- Zlt_Qlt. auto.
Qed.

(** A quotient of two numbers, each within a factor two above a power of
    two, is within a factor two of the quotient of the powers. *)
Lemma ratio_binade (p q a b : Q) :
  0 < a -> 0 < b -> a <= p < 2 * a -> b <= q < 2 * b ->
  a / b < 2 * (p / q) /\ p / q < 2 * (a / b).
Proof.
  intros Ha Hb [Hp1 Hp2] [Hq1 Hq2].
  assert (q / b < 2) as Hr2 by (apply Qlt_shift_div_r; lra).
  assert (1 <= q / b) as Hr1 by (apply Qle_shift_div_l; lra).
  split.
  - assert (2 * (p / q) == 2 * p / q) as -> by (field; lra).
    apply Qlt_shift_div_l; [lra|].
    assert (a / b * q == a * (q / b)) as -> by (field; lra).
    generalize dependent (q / b). intros r Hr2 Hr1.
    assert (0 < a * (2 - r)) by (apply Qmult_lt_0_compat; lra).
    lra.
  - apply Qlt_shift_div_r; [lra|].
    assert (2 * (a / b) * q == 2 * a * (q / b)) as -> by (field; lra).
    generalize dependent (q / b). intros r Hr2 Hr1.
    assert (0 <= a * (r - 1)) by (apply Qmult_le_0_compat; lra).
    lra.
Qed.

(** [ilog2 x] is the binade of [x]. *)
Lemma ilog2_spec (x : Q) :
  0 < x -> 2 ^ ilog2 x <= x < 2 ^ (ilog2 x + 1).
Proof.
  intros Hx. unfold ilog2; cbv zeta.
  destruct x as [p q].
  assert (0 < p)%Z as Hp. { unfold Qlt in Hx; simpl in Hx. lia. }
  cbn [Qnum Qden].
  set (l := (Z.log2 p - Z.log2 (Z.pos q))%Z).
  assert (2 ^ l < 2 * (p # q) /\ p # q < 2 * 2 ^ l) as [Hlo Hhi].
  { unfold l. rewrite pow2_sub, (Qmake_Qdiv p q).
    apply ratio_binade; try apply pow2_pos; apply pow2_log2;
      [exact Hp | reflexivity]. }
  destruct (Qle_bool (2 ^ l) (p # q)) eqn:E.
  - apply Qle_bool_iff in E. rewrite pow2_succ. split; [exact E | exact Hhi].
  - assert (~ 2 ^ l <= p # q) as E'.
    { intros H. apply Qle_bool_iff in H. congruence. }
    apply Qnot_le_lt in E'.
    replace (l - 1 + 1)%Z with l by ring.
    pose proof (pow2_pred l). split; [lra | exact E'].
Qed.

Lemma ilog2_mono (x y : Q) : 0 < x -> x <= y -> (ilog2 x <= ilog2 y)%Z.
Proof.
  intros Hx Hxy.
  destruct (ilog2_spec x Hx) as [H1 _].
  destruct (ilog2_spec y) as [_ H2]; [lra|].
  assert (2 ^ ilog2 x < 2 ^ (ilog2 y + 1)) as H by lra.
  apply Qpower_lt_compat_l_inv in H; [lia | reflexivity].
Qed.

Lemma pow2_add (a b : Z) : 2 ^ (a + b) == 2 ^ a * 2 ^ b.
Proof. apply Qpower_plus. discriminate. Qed.

(** Scaled by its binade, [x] has a 53-bit integer part. *)
Lemma scaled_range (x : Q) :
  0 < x ->
  inject_Z (2 ^ 52) <= x / 2 ^ (ilog2 x - 52) < inject_Z (2 ^ 53).
Proof.
  intros Hx. destruct (ilog2_spec x Hx) as [H1 H2].
  set (e := (ilog2 x - 52)%Z) in *.
  pose proof (pow2_pos e) as He.
  replace (ilog2 x) with (e + 52)%Z in H1, H2 by (unfold e; ring).
  replace (e + 52 + 1)%Z with (e + 53)%Z in H2 by ring.
  rewrite pow2_add in H1, H2.
  assert (inject_Z (2 ^ 52) == 2 ^ 52) as -> by reflexivity.
  assert (inject_Z (2 ^ 53) == 2 ^ 53) as -> by reflexivity.
  split.
  - apply Qle_shift_div_l; [exact He|]. rewrite Qmult_comm. exact H1.
  - apply Qlt_shift_div_r; [exact He|]. rewrite Qmult_comm. exact H2.
Qed.

Lemma rne_ge (n : Z) (x : Q) : inject_Z n <= x -> (n <= rne x)%Z.
Proof. intros H. rewrite <- (rne_inject_Z n). apply rne_mono, H. Qed.

Lemma rne_le (n : Z) (x : Q) : x <= inject_Z n -> (rne x <= n)%Z.
Proof. intros H. rewrite <- (rne_inject_Z n). apply rne_mono, H. Qed.

(** Rounding stays within the binade of its argument (upper end
    included). *)
Lemma round53_bounds (x : Q) :
  0 < x -> 2 ^ ilog2 x <= round53 x <= 2 ^ (ilog2 x + 1).
Proof.
  intros Hx. destruct (scaled_range x Hx) as [H1 H2].
  unfold round53; cbv zeta.
  set (e := (ilog2 x - 52)%Z) in *.
  pose proof (pow2_pos e) as He.
  apply rne_ge in H1. apply Qlt_le_weak, rne_le in H2.
  replace (ilog2 x + 1)%Z with (53 + e)%Z by (unfold e; ring).
  replace (ilog2 x) with (52 + e)%Z at 1 by (unfold e; ring).
  rewrite !pow2_add.
  assert (2 ^ 52 == inject_Z (2 ^ 52)) as -> by reflexivity.
  assert (2 ^ 53 == inject_Z (2 ^ 53)) as -> by reflexivity.
  split; apply Qmult_le_compat_r; try lra; rewrite <- Zle_Qle; assumption.
Qed.

Lemma round53_pos (x : Q) : 0 < x -> 0 < round53 x.
Proof.
  intros Hx. destruct (round53_bounds x Hx) as [H _].
  pose proof (pow2_pos (ilog2 x)). lra.
Qed.

(** Rounding is monotone: within one binade because [rne] is, across
    binades because the lower one is bounded by the power of two that
    bounds the upper one from below. *)
Lemma round53_mono (x y : Q) : 0 < x -> x <= y -> round53 x <= round53 y.
Proof.
  intros Hx Hxy.
  assert (0 < y) as Hy by lra.
  pose proof (ilog2_mono x y Hx Hxy) as Hl.
  destruct (Z.eq_dec (ilog2 x) (ilog2 y)) as [Heq|Hne].
  - unfold round53; cbv zeta. rewrite Heq.
    pose proof (pow2_pos (ilog2 y - 52)) as He.
    apply Qmult_le_compat_r; [|lra].
    rewrite <- Zle_Qle. apply rne_mono.
    apply Qmult_le_compat_r; [exact Hxy|].
    apply Qlt_le_weak, Qinv_lt_0_compat, He.
  - destruct (round53_bounds x Hx) as [_ H1].
    destruct (round53_bounds y Hy) as [H2 _].
    assert (2 ^ (ilog2 x + 1) <= 2 ^ ilog2 y) as H.
    { apply Qpower_le_compat_l; [lia | discriminate]. }
    lra.
Qed.

Lemma fl_mono (x y : Q) : x <= y -> fl x <= fl y.
Proof.
  intros Hxy. unfold fl.
  destruct (Qcompare_spec x 0) as [Ex|Ex|Ex];
    destruct (Qcompare_spec y 0) as [Ey|Ey|Ey]; try lra.
  - pose proof (round53_pos y ltac:(lra)). lra.
  - pose proof (round53_pos (- x) ltac:(lra)). lra.
  - apply Qopp_le_compat. apply round53_mono; lra.
  - pose proof (round53_pos (- x) ltac:(lra)).
    pose proof (round53_pos y ltac:(lra)). lra.
  - apply round53_mono; lra.
Qed.

#[export] Instance fl_Proper : Proper (Qeq ==> Qeq) fl.
Proof.
  intros x y Hxy. apply Qle_antisym; apply fl_mono; lra.
Qed.

Lemma fl_0 : fl 0 == 0.
Proof. reflexivity. Qed.

Lemma fl_1 : fl 1 == 1.
Proof. vm_compute. reflexivity. Qed.

Lemma fl_100 : fl 100 == 100.
Proof. vm_compute. reflexivity. Qed.

Lemma Math_round_mono (x y : Q) : x <= y -> (Math_round x <= Math_round y)%Z.
Proof. intros H. apply Qfloor_resp_le. lra. Qed.

(** [Math.round x] is the integer within a half of [x], the upper half
    excluded. *)
Lemma Math_round_spec (x : Q) :
  inject_Z (Math_round x) - (1 # 2) <= x < inject_Z (Math_round x) + (1 # 2).
Proof.
  unfold Math_round. pose proof (Qfloor_bounds (x + (1 # 2))). lra.
Qed.

End Binary64.

(** ** The feed card's completion rate *)

Section CompletionRate.
Import Number Client.
Local Open Scope Q_scope.

Lemma completionRate_nonempty (feed : Feed.t) :
  Feed.contents feed ≠ [] →
  Client.completionRate feed =
  Math_round
    (rate_value (Feed.num_sent feed)
       (Z.of_nat (length (Feed.contents feed)))).
Proof.
  intros Hne. unfold Client.completionRate; cbv zeta.
  destruct (Feed.contents feed) as [|c l]; [congruence|reflexivity].
Qed.

Lemma rate_value_mono (n1 n2 d : Z) :
  (0 < d)%Z → (n1 <= n2)%Z → rate_value n1 d <= rate_value n2 d.
Proof.
  intros Hd Hn. unfold rate_value, mul, div.
  assert (0 < inject_Z d) as Hd' by (rewrite Zlt_Qlt in Hd; exact Hd).
  apply fl_mono. apply Qmult_le_compat_r; [|discriminate].
  apply fl_mono. apply Qmult_le_compat_r.
  - rewrite <- Zle_Qle. exact Hn.
  - apply Qlt_le_weak, Qinv_lt_0_compat, Hd'.
Qed.

Lemma rate_value_0 (d : Z) : rate_value 0 d == 0.
Proof.
  unfold rate_value, mul, div.
  assert (inject_Z 0 / inject_Z d == 0) as -> by (unfold Qdiv; ring).
  reflexivity.
Qed.

Lemma rate_value_full (d : Z) : (0 < d)%Z → rate_value d d == 100.
Proof.
  intros Hd. unfold rate_value, mul, div.
  assert (0 < inject_Z d) as Hd' by (rewrite Zlt_Qlt in Hd; exact Hd).
  assert (inject_Z d / inject_Z d == 1) as -> by (field; lra).
  rewrite fl_1. assert (1 * inject_Z 100 == 100) as -> by ring.
  apply fl_100.
Qed.

Lemma completionRate_mono (f1 f2 : Feed.t) :
  length (Feed.contents f1) = length (Feed.contents f2) →
  (Feed.num_sent f1 <= Feed.num_sent f2)%Z →
  (Client.completionRate f1 <= Client.completionRate f2)%Z.
Proof.
  intros Hlen Hn. unfold Client.completionRate; cbv zeta.
  rewrite Hlen.
  destruct (Z.ltb_spec 0 (Z.of_nat (length (Feed.contents f2))));
    [|reflexivity].
  apply Math_round_mono, rate_value_mono; assumption.
Qed.

Lemma completionRate_nonneg (feed : Feed.t) :
  (0 <= Feed.num_sent feed)%Z → (0 <= Client.completionRate feed)%Z.
Proof.
  intros Hn. unfold Client.completionRate; cbv zeta.
  destruct (Z.ltb_spec 0 (Z.of_nat (length (Feed.contents feed))));
    [|reflexivity].
  change 0%Z with (Math_round 0) at 1.
  apply Math_round_mono.
  apply Qle_trans
    with (rate_value 0 (Z.of_nat (length (Feed.contents feed)))).
  - rewrite rate_value_0. apply Qle_refl.
  - apply rate_value_mono; assumption.
Qed.

Lemma completionRate_le_100 (feed : Feed.t) :
  (Feed.num_sent feed <= Z.of_nat (length (Feed.contents feed)))%Z →
  (Client.completionRate feed <= 100)%Z.
Proof.
  intros Hn. unfold Client.completionRate; cbv zeta.
  destruct (Z.ltb_spec 0 (Z.of_nat (length (Feed.contents feed))));
    [|discriminate].
  change 100%Z with (Math_round 100).
  apply Math_round_mono.
  apply Qle_trans
    with (rate_value (Z.of_nat (length (Feed.contents feed)))
            (Z.of_nat (length (Feed.contents feed)))).
  - apply rate_value_mono; assumption.
  - rewrite (rate_value_full _ H). apply Qle_refl.
Qed.

End CompletionRate.

(** C5 (as amended). For a fixed number of content items the completion
    rate is non-decreasing in [num_sent]; it is at least 0 when
    [num_sent >= 0], and at most 100 when moreover [num_sent] does not
    exceed the number of content items. *)
Theorem C5_completionRate_monotone_bounded (f1 f2 : Feed.t) :
  (length (Feed.contents f1) = length (Feed.contents f2) →
   Feed.num_sent f1 <= Feed.num_sent f2 →
   Client.completionRate f1 <= Client.completionRate f2) ∧
  (0 <= Feed.num_sent f1 → 0 <= Client.completionRate f1) ∧
  (0 <= Feed.num_sent f1 <= Z.of_nat (length (Feed.contents f1)) →
   0 <= Client.completionRate f1 <= 100).
Proof.
  split; [apply completionRate_mono|].
  split; [apply completionRate_nonneg|].
  intros [H0 H1]. split.
  - apply completionRate_nonneg, H0.
  - apply completionRate_le_100, H1.
Qed.

Lemma C5_witness :
  Client.completionRate (sample_feed 1 [js "a"; js "b"; js "c"]) <=
  Client.completionRate (sample_feed 2 [js "x"; js "y"; js "z"]) ∧
  0 <= Client.completionRate (sample_feed 1 [js "a"; js "b"; js "c"]) <= 100.
Proof.
  destruct (C5_completionRate_monotone_bounded
              (sample_feed 1 [js "a"; js "b"; js "c"])
              (sample_feed 2 [js "x"; js "y"; js "z"])) as (Hm & _ & Hb).
  split.
  - apply Hm; [reflexivity | simpl; lia].
  - apply Hb. simpl. lia.
Defined.

(** C5 (as stated) fails: nothing bounds [num_sent] by the number of
    content items. An update that sets [num_sent] to 3 on feed 1 of
    [sample_store], which has two items, is accepted, and the rate of the
    stored feed is 150, outside [0,100], although [num_sent >= 0]. *)
Lemma C5_counterexample :
  match
    Routes.patch_feed (Some 1) 1
      (PartialFeed.mk None None None None None None None None None None
         None (Some 3) None None) 9 sample_store
  with
  | (Routes.Json 200 (Routes.JFeed feed), _) =>
      0 <= Feed.num_sent feed ∧
      length (Feed.contents feed) = 2%nat ∧
      Client.completionRate feed = 150 ∧
      ¬ (0 <= Client.completionRate feed <= 100)
  | _ => False
  end.
Proof.
  vm_compute. split; [discriminate|]. split; [reflexivity|].
  split; [reflexivity|]. intros [_ H]. apply H. reflexivity.
Qed.

(** ** The completion rate against the exact percentage

    Each of the two operations rounds with a relative error of at most the
    unit roundoff, so the number [Math.round] is applied to differs from
    the exact percentage by less than half of [1 / contents.length]: not
    enough to cross a rounding boundary, except when the exact percentage
    sits on one. *)

Section RoundingError.
Import Number Client.
Local Open Scope Q_scope.

Lemma rne_error (x : Q) :
  - (1 # 2) <= inject_Z (rne x) - x <= 1 # 2.
Proof.
  pose proof (Qfloor_bounds x) as [H1 H2].
  destruct (rne_cases x) as [[Hx ->]|[[Hx ->]|[Hx ->]]].
  - lra.
  - rewrite inject_Z_plus. change (inject_Z 1) with 1. lra.
  - destruct (Z.even (Qfloor x)).
    + lra.
    + rewrite inject_Z_plus. change (inject_Z 1) with 1. lra.
Qed.

Lemma round53_error (x : Q) :
  0 < x -> x - x * unit_roundoff <= round53 x <= x + x * unit_roundoff.
Proof.
  intros Hx. destruct (ilog2_spec x Hx) as [HL _].
  unfold round53; cbv zeta.
  set (e := (ilog2 x - 52)%Z) in *.
  pose proof (pow2_pos e) as He.
  pose proof (rne_error (x / 2 ^ e)) as [E1 E2].
  assert (x == x / 2 ^ e * 2 ^ e) as Hxe by (field; lra).
  set (y := x / 2 ^ e) in *.
  set (r := inject_Z (rne y)) in *.
  assert (2 ^ e * (1 # 2) <= x * unit_roundoff) as Hb.
  { assert (2 ^ e == 2 ^ ilog2 x / 2 ^ 52) as -> by apply pow2_sub.
    unfold unit_roundoff.
    assert (2 ^ 52 == 4503599627370496) as -> by reflexivity.
    assert (2 ^ ilog2 x / 4503599627370496 * (1 # 2) ==
            2 ^ ilog2 x * (1 # 9007199254740992)) as -> by (field).
    apply Qmult_le_compat_r; [exact HL|discriminate]. }
  assert (- (2 ^ e * (1 # 2)) <= (r - y) * 2 ^ e <= 2 ^ e * (1 # 2))
    as [B1 B2].
  { split.
    - assert (- (2 ^ e * (1 # 2)) == - (1 # 2) * 2 ^ e) as -> by ring.
      apply Qmult_le_compat_r; lra.
    - rewrite (Qmult_comm (2 ^ e)). apply Qmult_le_compat_r; lra. }
  assert ((r - y) * 2 ^ e == r * 2 ^ e - x) as Hd by (rewrite Hxe; ring).
  rewrite Hd in B1, B2. lra.
Qed.

Lemma fl_error (x : Q) :
  0 <= x -> x - x * unit_roundoff <= fl x <= x + x * unit_roundoff.
Proof.
  intros Hx. unfold fl.
  destruct (Qcompare_spec x 0) as [E|E|E].
  - unfold unit_roundoff. lra.
  - lra.
  - apply round53_error, E.
Qed.

(** The number the completion rate rounds, against the exact
    percentage: two roundings, each within the unit roundoff. *)
Lemma rate_value_error (n d : Z) :
  (0 <= n)%Z -> (0 < d)%Z ->
  let e := inject_Z n / inject_Z d * 100 in
  let w := 2 * unit_roundoff + unit_roundoff * unit_roundoff in
  e - e * w <= rate_value n d <= e + e * w.
Proof.
  intros Hn Hd. cbv zeta. unfold rate_value, mul, div.
  change (inject_Z 100) with 100.
  assert (0 < inject_Z d) as Hd' by (rewrite Zlt_Qlt in Hd; exact Hd).
  assert (0 <= inject_Z n) as Hn' by (rewrite Zle_Qle in Hn; exact Hn).
  assert (0 <= inject_Z n / inject_Z d) as Ha.
  { apply Qle_shift_div_l; [exact Hd'|]. lra. }
  set (a := inject_Z n / inject_Z d) in *.
  pose proof (fl_error a Ha) as [Q1 Q2].
  set (q := fl a) in *.
  assert (0 <= q * 100) as Hq by (unfold unit_roundoff in Q1; lra).
  pose proof (fl_error (q * 100) Hq) as [V1 V2].
  set (v := fl (q * 100)) in *.
  unfold unit_roundoff in *. lra.
Qed.

Lemma Qfloor_unique (x : Q) (k : Z) :
  inject_Z k <= x -> x < inject_Z k + 1 -> Qfloor x = k.
Proof.
  intros H1 H2. pose proof (Qfloor_bounds x) as [F1 F2].
  assert (Qfloor x < k + 1)%Z.
  { rewrite Zlt_Qlt, inject_Z_plus. change (inject_Z 1) with 1. lra. }
  assert (k < Qfloor x + 1)%Z.
  { rewrite Zlt_Qlt, inject_Z_plus. change (inject_Z 1) with 1. lra. }
  lia.
Qed.

(** The completion rate against the exact rounding [k] of the
    percentage, given as integer inequalities on [200 n] and [d]. *)
Lemma Math_round_rate_value (n d k : Z) :
  (0 <= n <= 2 ^ 43)%Z -> (0 < d)%Z ->
  ((2 * k - 1) * d <= 200 * n < (2 * k + 1) * d)%Z ->
  (k - 1 <= Math_round (rate_value n d) <= k)%Z /\
  ((2 * k - 1) * d <> 200 * n -> Math_round (rate_value n d) = k)%Z.
Proof.
  intros [Hn0 Hn1] Hd [Hk1 Hk2].
  pose proof (rate_value_error n d Hn0 Hd) as [V1 V2]. cbv zeta in V1, V2.
  assert (0 < inject_Z d) as Hd' by (rewrite Zlt_Qlt in Hd; exact Hd).
  assert (1 <= inject_Z d) as Hd1.
  { change 1 with (inject_Z 1). rewrite <- Zle_Qle. lia. }
  assert (0 <= inject_Z n) as Hn0' by (rewrite Zle_Qle in Hn0; exact Hn0).
  assert (inject_Z n <= 8796093022208) as Hn1'.
  { change 8796093022208 with (inject_Z (2 ^ 43)). rewrite <- Zle_Qle.
    exact Hn1. }
  set (v := rate_value n d) in *.
  (* scaled by the length *)
  assert (inject_Z n / inject_Z d * 100 * inject_Z d == 100 * inject_Z n)
    as He by (field; lra).
  set (e := inject_Z n / inject_Z d * 100) in *.
  pose proof (Qmult_le_compat_r _ _ (inject_Z d) V1 ltac:(lra)) as W1.
  pose proof (Qmult_le_compat_r _ _ (inject_Z d) V2 ltac:(lra)) as W2.
  assert (2 * (inject_Z k * inject_Z d) <= 200 * inject_Z n + inject_Z d)
    as K1.
  { assert (2 * (k * d) <= 200 * n + d)%Z as H by lia.
    rewrite Zle_Qle in H.
    rewrite inject_Z_plus, !inject_Z_mult in H. exact H. }
  assert (200 * inject_Z n + 1 <= 2 * (inject_Z k * inject_Z d) + inject_Z d)
    as K2.
  { assert (200 * n + 1 <= 2 * (k * d) + d)%Z as H by lia.
    rewrite Zle_Qle in H.
    rewrite !inject_Z_plus, !inject_Z_mult in H. exact H. }
  assert (forall x y : Q, x * inject_Z d < y * inject_Z d -> x < y) as Hlt.
  { intros x y H. apply (Qmult_lt_r _ _ (inject_Z d)); assumption. }
  assert (forall x y : Q, x * inject_Z d <= y * inject_Z d -> x <= y) as Hle.
  { intros x y H. apply (Qmult_le_r _ _ (inject_Z d)); assumption. }
  unfold unit_roundoff in W1, W2.
  unfold Math_round. split.
  - (* within one below the exact rounding *)
    assert (inject_Z k - 1 <= v + (1 # 2)) as L by (apply Hle; lra).
    assert (v + (1 # 2) < inject_Z k + 1) as U by (apply Hlt; lra).
    pose proof (Qfloor_bounds (v + (1 # 2))) as [F1 F2].
    split.
    + assert (k < Qfloor (v + (1 # 2)) + 2)%Z; [|lia].
      rewrite Zlt_Qlt, inject_Z_plus. change (inject_Z 2) with 2. lra.
    + assert (Qfloor (v + (1 # 2)) < k + 1)%Z; [|lia].
      rewrite Zlt_Qlt, inject_Z_plus. change (inject_Z 1) with 1. lra.
  - (* away from the middle: the exact rounding *)
    intros Hne.
    assert (2 * (inject_Z k * inject_Z d) + 1 <=
            200 * inject_Z n + inject_Z d) as K1'.
    { assert (2 * (k * d) + 1 <= 200 * n + d)%Z as H by lia.
      rewrite Zle_Qle in H.
      rewrite !inject_Z_plus, !inject_Z_mult in H. exact H. }
    apply Qfloor_unique; [apply Hle; lra | apply Hlt; lra].
Qed.

End RoundingError.

Lemma exact_round_bounds (n d : Z) :
  (0 < d)%Z ->
  let k := Number.Math_round (inject_Z n / inject_Z d * 100)%Q in
  ((2 * k - 1) * d <= 200 * n < (2 * k + 1) * d)%Z.
Proof.
  intros Hd k.
  pose proof (Math_round_spec (inject_Z n / inject_Z d * 100)%Q) as [H1 H2].
  fold k in H1, H2.
  assert (0 < inject_Z d)%Q as Hd' by (rewrite Zlt_Qlt in Hd; exact Hd).
  assert (inject_Z n / inject_Z d * 100 * inject_Z d == 100 * inject_Z n)%Q
    as He by (field; lra).
  set (e := (inject_Z n / inject_Z d * 100)%Q) in *.
  assert ((inject_Z k - (1 # 2)) * inject_Z d <= e * inject_Z d)%Q as M1
    by (apply Qmult_le_compat_r; lra).
  assert (e * inject_Z d < (inject_Z k + (1 # 2)) * inject_Z d)%Q as M2
    by (apply Qmult_lt_compat_r; lra).
  rewrite He in M1, M2.
  split.
  - assert (2 * (k * d) <= 200 * n + d)%Z; [|lia].
    rewrite Zle_Qle, inject_Z_plus, !inject_Z_mult.
    change (inject_Z 2) with 2%Q. change (inject_Z 200) with 200%Q. lra.
  - assert (200 * n < 2 * (k * d) + d)%Z; [|lia].
    rewrite Zlt_Qlt, inject_Z_plus, !inject_Z_mult.
    change (inject_Z 2) with 2%Q. change (inject_Z 200) with 200%Q. lra.
Qed.

Lemma halfway_intro (n d k : Z) :
  (0 < d)%Z -> ((2 * k - 1) * d = 200 * n)%Z -> halfway n d.
Proof.
  intros Hd H. exists (k + -1)%Z.
  assert (0 < inject_Z d)%Q as Hd' by (rewrite Zlt_Qlt in Hd; exact Hd).
  assert (2 * (k * d) = 200 * n + d)%Z as H' by lia.
  apply (f_equal inject_Z) in H'.
  rewrite inject_Z_plus, !inject_Z_mult in H'.
  change (inject_Z 2) with 2%Q in H'. change (inject_Z 200) with 200%Q in H'.
  rewrite inject_Z_plus. change (inject_Z (-1)) with (-1)%Q.
  change (inject_Z 100) with 100%Q.
  apply (Qmult_inj_r _ _ (inject_Z d)); [lra|].
  assert (inject_Z n / inject_Z d * 100 * inject_Z d == 100 * inject_Z n)%Q
    as -> by (field; lra).
  assert (2 * (inject_Z k * inject_Z d) == 200 * inject_Z n + inject_Z d)%Q
    as H2 by (rewrite H'; reflexivity).
  lra.
Qed.

(** C6 (as stated) fails when the percentage is read as the exact
    [round(num_sent / contents.length * 100)]: for 23 items sent of 40 the
    exact percentage is 57.5, which rounds to 58, but the quotient 23/40
    is not a binary64 number and the product the code rounds is
    57.49999999999999, so the completion rate is 57 (the kernel's
    hardware arithmetic gives the same product). For a [num_sent] beyond
    2^48 the product itself is rounded to a multiple of 8 and the two
    differ by 4. *)
Lemma C6_counterexample :
  (let feed := sample_feed 23 (List.repeat (js "item") 40) in
   length (Feed.contents feed) = 40%nat ∧
   Client.completionRate feed = 57 ∧
   completionPercent_spec feed = 58 ∧
   Client.agrees_with_kernel 23 40 = true) ∧
  (let feed := sample_feed 360287970189641 [js "item"] in
   Client.completionRate feed = 36028797018964096 ∧
   completionPercent_spec feed = 36028797018964100 ∧
   Client.agrees_with_kernel 360287970189641 1 = true).
Proof. vm_compute. repeat split. Qed.

(** C6 (as amended). The completion rate is 0 for a feed without content
    items (no division takes place). For a feed with content items and
    [0 <= num_sent <= 2^43] it is the exact
    [round(num_sent / contents.length * 100)] whenever the exact
    percentage is not halfway between two integers, and in every case it
    is that rounding or one less. *)
Theorem C6_completionRate_near_exact (feed : Feed.t) :
  (length (Feed.contents feed) = 0%nat → Client.completionRate feed = 0) ∧
  (length (Feed.contents feed) ≠ 0%nat →
   0 <= Feed.num_sent feed <= 2 ^ 43 →
   (¬ halfway (Feed.num_sent feed)
        (Z.of_nat (length (Feed.contents feed))) →
    Client.completionRate feed = completionPercent_spec feed) ∧
   completionPercent_spec feed - 1 <= Client.completionRate feed
     <= completionPercent_spec feed).
Proof.
  unfold Client.completionRate, completionPercent_spec; cbv zeta.
  destruct (Z.ltb_spec 0 (Z.of_nat (length (Feed.contents feed))))
    as [Hpos|Hzero].
  - split; [lia|]. intros _ Hn.
    pose proof (exact_round_bounds (Feed.num_sent feed) _ Hpos) as Hk.
    cbv zeta in Hk.
    destruct (Math_round_rate_value (Feed.num_sent feed) _ _ Hn Hpos Hk)
      as [Hnear Heq].
    split; [|exact Hnear].
    intros Hhalf. apply Heq. intros E. apply Hhalf.
    exact (halfway_intro _ _ _ Hpos E).
  - split; [reflexivity|lia].
Qed.

(** No item; 1 of 3, where the exact percentage is 33 and a third; 23 of
    40, where it is 57 and a half. *)
Lemma C6_witness :
  Client.completionRate (sample_feed 5 []) = 0 ∧
  Client.completionRate (sample_feed 1 [js "a"; js "b"; js "c"]) =
  completionPercent_spec (sample_feed 1 [js "a"; js "b"; js "c"]) ∧
  completionPercent_spec (sample_feed 23 (List.repeat (js "item") 40)) - 1 <=
  Client.completionRate (sample_feed 23 (List.repeat (js "item") 40)) <=
  completionPercent_spec (sample_feed 23 (List.repeat (js "item") 40)).
Proof.
  split; [|split].
  - apply (proj1 (C6_completionRate_near_exact (sample_feed 5 []))).
    reflexivity.
  - apply (proj2 (C6_completionRate_near_exact
                    (sample_feed 1 [js "a"; js "b"; js "c"])));
      [discriminate | simpl; lia |].
    intros [k Hk]. unfold Qeq in Hk. simpl in Hk. lia.
  - apply (proj2 (C6_completionRate_near_exact
                    (sample_feed 23 (List.repeat (js "item") 40))));
      [discriminate | simpl; lia].
Defined.

(** The model of binary64 agrees with the kernel's hardware arithmetic on
    every pair [num_sent <= length + 1], [length <= 40], and at 29 of 200,
    where the product is 14.499999999999998 and rounds to 14 although
    29/200 is 14.5 percent. *)
Example completionRate_kernel_check :
  forallb (fun p => Client.agrees_with_kernel (fst p) (snd p))
    (Client.sample_pairs 40) = true ∧
  Client.agrees_with_kernel 29 200 = true ∧
  Client.completionRate
    (sample_feed 29 (List.repeat (js "item") 200)) = 14.
Proof. vm_compute. repeat split. Qed.

(** ** The store: frames of the operations and the invariant *)

Section Store.
Import MemStorage.

Lemma set_feeds_same (s : t) : set_feeds (feeds s) s = s.
Proof. destruct s; reflexivity. Qed.

(** *** The order of [values()] *)

#[local] Instance key_le_trans {A} : Transitive (@key_le A).
Proof. intros x y z. unfold key_le. lia. Qed.

#[local] Instance key_le_total {A} : Total (@key_le A).
Proof. intros x y. unfold key_le. lia. Qed.

Lemma entries_Permutation {A} (m : gmap Z A) : entries m ≡ₚ map_to_list m.
Proof. apply merge_sort_Permutation. Qed.

Lemma elem_of_entries {A} (m : gmap Z A) (k : Z) (x : A) :
  (k, x) ∈ entries m ↔ m !! k = Some x.
Proof. rewrite entries_Permutation. apply elem_of_map_to_list. Qed.

Lemma entries_sorted {A} (m : gmap Z A) : StronglySorted key_le (entries m).
Proof. apply StronglySorted_merge_sort; apply _. Qed.

(** A list of the entries of [m] in ascending order of the keys is
    [entries m]. *)
Lemma entries_unique {A} (m : gmap Z A) (l : list (Z * A)) :
  StronglySorted key_le l → l ≡ₚ map_to_list m → l = entries m.
Proof.
  intros Hs Hp.
  apply (StronglySorted_unique_strong key_le);
    [|exact Hs|apply entries_sorted|].
  - intros [k1 x1] [k2 x2] H1 H2 H12 H21. unfold key_le in *. simpl in *.
    assert (k1 = k2) as -> by lia.
    rewrite Hp in H1. apply elem_of_map_to_list in H1.
    apply elem_of_entries in H2. congruence.
  - rewrite Hp. symmetry. apply entries_Permutation.
Qed.

(** [set] of a key above every key of the map: the entry goes last. *)
Lemma entries_insert_last {A} (m : gmap Z A) (k : Z) (x : A) :
  (∀ k', is_Some (m !! k') → k' < k) →
  entries (<[k := x]> m) = entries m ++ [(k, x)].
Proof.
  intros Hk. symmetry. apply entries_unique.
  - apply StronglySorted_app_2.
    + intros [k1 x1] e2 H1 H2. apply list_elem_of_singleton in H2 as ->.
      apply elem_of_entries in H1. unfold key_le. simpl.
      specialize (Hk k1 (ex_intro _ x1 H1)). lia.
    + apply entries_sorted.
    + repeat constructor.
  - assert (m !! k = None) as Hnone.
    { destruct (m !! k) eqn:E; [|reflexivity].
      specialize (Hk k (ex_intro _ _ E)). lia. }
    rewrite (map_to_list_insert m k x Hnone), entries_Permutation.
    rewrite Permutation_app_comm. reflexivity.
Qed.

(** [set] of a present key: the entry keeps its place. *)
Lemma entries_insert_present {A} (m : gmap Z A) (k : Z) (x old : A) :
  m !! k = Some old →
  ∃ l1 l2, entries m = l1 ++ (k, old) :: l2 ∧
           entries (<[k := x]> m) = l1 ++ (k, x) :: l2.
Proof.
  intros Hold.
  assert ((k, old) ∈ entries m) as Hin by (apply elem_of_entries, Hold).
  apply list_elem_of_split in Hin as (l1 & l2 & E).
  exists l1, l2. split; [exact E|]. symmetry. apply entries_unique.
  - pose proof (entries_sorted m) as Hs. rewrite E in Hs.
    apply StronglySorted_app in Hs as (H12 & H1 & H2).
    apply StronglySorted_cons in H2 as [H2 H2'].
    apply StronglySorted_app_2; [|exact H1|].
    + intros e1 e2 He1 He2. apply elem_of_cons in He2 as [->|He2].
      * apply (H12 e1 (k, old) He1). left.
      * apply (H12 e1 e2 He1). right. exact He2.
    + apply StronglySorted_cons. split; [|exact H2'].
      eapply Forall_impl; [exact H2|]. intros e He. exact He.
  - rewrite <- (insert_delete_eq m k x).
    rewrite map_to_list_insert by apply lookup_delete_eq.
    assert (l1 ++ (k, old) :: l2 ≡ₚ (k, old) :: map_to_list (delete k m))
      as Hp.
    { rewrite <- E, entries_Permutation.
      rewrite <- map_to_list_insert by apply lookup_delete_eq.
      rewrite insert_delete_eq, insert_id by exact Hold. reflexivity. }
    rewrite <- Permutation_middle in Hp. apply Permutation_cons_inv in Hp.
    rewrite <- Permutation_middle, Hp. reflexivity.
Qed.

(** [delete] of a present key: the other entries stay in place. *)
Lemma entries_delete {A} (m : gmap Z A) (k : Z) (old : A) :
  m !! k = Some old →
  ∃ l1 l2, entries m = l1 ++ (k, old) :: l2 ∧
           entries (delete k m) = l1 ++ l2.
Proof.
  intros Hold.
  assert ((k, old) ∈ entries m) as Hin by (apply elem_of_entries, Hold).
  apply list_elem_of_split in Hin as (l1 & l2 & E).
  exists l1, l2. split; [exact E|]. symmetry. apply entries_unique.
  - pose proof (entries_sorted m) as Hs. rewrite E in Hs.
    apply StronglySorted_app in Hs as (H12 & H1 & H2).
    apply StronglySorted_cons in H2 as [H2 H2'].
    apply StronglySorted_app_2; [|exact H1|exact H2'].
    intros e1 e2 He1 He2. apply (H12 e1 e2 He1). right. exact He2.
  - assert (l1 ++ (k, old) :: l2 ≡ₚ (k, old) :: map_to_list (delete k m))
      as Hp.
    { rewrite <- E, entries_Permutation.
      rewrite <- map_to_list_insert by apply lookup_delete_eq.
      rewrite insert_delete_eq, insert_id by exact Hold. reflexivity. }
    rewrite <- Permutation_middle in Hp. apply Permutation_cons_inv in Hp.
    exact Hp.
Qed.

(** A create lists its entity last: the new key is above every key of
    the map. *)
Lemma values_insert_last {A} (m : gmap Z A) (k : Z) (x : A) :
  (∀ k', is_Some (m !! k') → k' < k) →
  values (<[k := x]> m) = values m ++ [x].
Proof.
  intros H. unfold values. rewrite (entries_insert_last m k x H).
  rewrite fmap_app. reflexivity.
Qed.

Lemma elem_of_values {A} (m : gmap Z A) (x : A) :
  x ∈ values m ↔ ∃ k, m !! k = Some x.
Proof.
  unfold values. rewrite list_elem_of_fmap. split.
  - intros [[k y] [-> Hin]]. exists k. apply elem_of_entries in Hin.
    exact Hin.
  - intros [k Hk]. exists (k, x). split; [reflexivity|].
    apply elem_of_entries. exact Hk.
Qed.

Lemma elem_of_getFeedsByConnectionId (id : Z) (s : t) (f : Feed.t) :
  f ∈ getFeedsByConnectionId id s ↔
  Feed.connection_id f = id ∧ ∃ k, feeds s !! k = Some f.
Proof.
  unfold getFeedsByConnectionId.
  rewrite list_elem_of_In, filter_In, <- list_elem_of_In, elem_of_values.
  rewrite Z.eqb_eq. tauto.
Qed.

(** The loop of the cascade only touches the feed map. *)
Lemma foldl_deleteFeed (l : list Feed.t) (s : t) :
  foldl (fun s feed => deleteFeed (Feed.id feed) s) s l =
  set_feeds (foldl (fun m feed => delete (Feed.id feed) m) (feeds s) l) s.
Proof.
  revert s. induction l as [|f l IH]; intros s; simpl.
  - symmetry. apply set_feeds_same.
  - rewrite IH. reflexivity.
Qed.

Lemma lookup_foldl_delete (l : list Feed.t) (m : gmap Z Feed.t) (k : Z) :
  foldl (fun m feed => delete (Feed.id feed) m) m l !! k =
  if decide (k ∈ Feed.id <$> l) then None else m !! k.
Proof.
  revert m. induction l as [|f l IH]; intros m.
  - destruct (decide (k ∈ Feed.id <$> [])) as [Hin|_]; [|reflexivity].
    rewrite fmap_nil in Hin. apply elem_of_nil in Hin. destruct Hin.
  - cbn [foldl]. rewrite IH, fmap_cons.
    destruct (decide (k ∈ Feed.id <$> l)) as [Hin|Hnin];
      destruct (decide (k ∈ Feed.id f :: (Feed.id <$> l))) as [Hin'|Hnin'];
      try reflexivity.
    + exfalso. apply Hnin'. apply elem_of_cons. auto.
    + apply elem_of_cons in Hin' as [->|Hin']; [|contradiction].
      apply lookup_delete_eq.
    + apply lookup_delete_ne. intros <-. apply Hnin'.
      apply elem_of_cons. auto.
Qed.

Lemma deleteFeedsOf_feeds (id : Z) (s : t) (k : Z) :
  feeds (deleteFeedsOf id s) !! k =
  if decide (k ∈ Feed.id <$> getFeedsByConnectionId id s)
  then None else feeds s !! k.
Proof.
  unfold deleteFeedsOf; cbv zeta. rewrite foldl_deleteFeed. simpl.
  apply lookup_foldl_delete.
Qed.

Lemma deleteFeedsOf_frame (id : Z) (s : t) :
  users (deleteFeedsOf id s) = users s ∧
  connections (deleteFeedsOf id s) = connections s ∧
  userId (deleteFeedsOf id s) = userId s ∧
  connectionId (deleteFeedsOf id s) = connectionId s ∧
  feedId (deleteFeedsOf id s) = feedId s.
Proof.
  unfold deleteFeedsOf; cbv zeta. rewrite foldl_deleteFeed.
  repeat split.
Qed.

(** After the cascade a feed is gone exactly when it belonged to the
    connection, provided entities are stored under their own ids. *)
Lemma deleteFeedsOf_lookup (id : Z) (s : t) (k : Z) (f : Feed.t) :
  store_ok s → feeds s !! k = Some f →
  feeds (deleteFeedsOf id s) !! k =
  if decide (Feed.connection_id f = id) then None else Some f.
Proof.
  intros (_ & _ & Hok) Hk. rewrite deleteFeedsOf_feeds.
  destruct (decide (Feed.connection_id f = id)) as [Hc|Hc].
  - rewrite decide_True; [reflexivity|].
    apply list_elem_of_fmap. exists f. split.
    + symmetry. apply (Hok k f Hk).
    + apply elem_of_getFeedsByConnectionId. eauto.
  - rewrite decide_False; [exact Hk|].
    intros Hin. apply list_elem_of_fmap in Hin as [g [Hg Hin]].
    apply elem_of_getFeedsByConnectionId in Hin as [Hgc [k' Hk']].
    destruct (Hok k' g Hk') as [Hid _].
    assert (k' = k) as Heq by congruence.
    rewrite Heq in Hk'. congruence.
Qed.

End Store.

(** ** The invariant holds in every store a run can reach *)

Section Invariant.
Import MemStorage.

Lemma store_ok_createUser (u : InsertUser.t) (now : Z) (s : t) :
  store_ok s → store_ok (snd (createUser u now s)).
Proof.
  intros (Hu & Hc & Hf). unfold createUser; cbv zeta; simpl.
  split; [|split]; simpl.
  - intros k x Hk. destruct (decide (userId s = k)) as [<-|Hne].
    + rewrite lookup_insert_eq in Hk. inversion Hk; subst; simpl. lia.
    + rewrite lookup_insert_ne in Hk by exact Hne.
      destruct (Hu k x Hk). lia.
  - exact Hc.
  - exact Hf.
Qed.

Lemma store_ok_createConnection (i : InsertConnection.t) (now : Z) (s : t) :
  store_ok s → store_ok (snd (createConnection i now s)).
Proof.
  intros (Hu & Hc & Hf). unfold createConnection; cbv zeta; simpl.
  split; [|split]; simpl.
  - exact Hu.
  - intros k x Hk. destruct (decide (connectionId s = k)) as [<-|Hne].
    + rewrite lookup_insert_eq in Hk. inversion Hk; subst; simpl. lia.
    + rewrite lookup_insert_ne in Hk by exact Hne.
      destruct (Hc k x Hk). lia.
  - exact Hf.
Qed.

Lemma store_ok_createFeed (i : InsertFeed.t) (now : Z) (s : t) :
  store_ok s → store_ok (snd (createFeed i now s)).
Proof.
  intros (Hu & Hc & Hf). unfold createFeed; cbv zeta; simpl.
  split; [|split]; simpl.
  - exact Hu.
  - exact Hc.
  - intros k x Hk. destruct (decide (feedId s = k)) as [<-|Hne].
    + rewrite lookup_insert_eq in Hk. inversion Hk; subst; simpl. lia.
    + rewrite lookup_insert_ne in Hk by exact Hne.
      destruct (Hf k x Hk). lia.
Qed.

Lemma store_ok_updateConnection (id : Z) (p : PartialConnection.t)
  (now : Z) (s : t) (c : Connection.t) (s' : t) :
  store_ok s → updateConnection id p now s = Ok (c, s') → store_ok s'.
Proof.
  intros (Hu & Hc & Hf). unfold updateConnection.
  destruct (connections s !! id) as [existing|] eqn:E; [|discriminate].
  intros H; inversion H; subst; clear H.
  split; [|split]; simpl; [exact Hu| |exact Hf].
  intros k x Hk. destruct (decide (id = k)) as [<-|Hne].
  - rewrite lookup_insert_eq in Hk. inversion Hk; subst; simpl.
    split; [reflexivity|]. apply (Hc id existing E).
  - rewrite lookup_insert_ne in Hk by exact Hne. apply (Hc k x Hk).
Qed.

Lemma store_ok_updateFeed (id : Z) (p : PartialFeed.t) (now : Z) (s : t)
  (f : Feed.t) (s' : t) :
  store_ok s → updateFeed id p now s = Ok (f, s') → store_ok s'.
Proof.
  intros (Hu & Hc & Hf). unfold updateFeed.
  destruct (feeds s !! id) as [existing|] eqn:E; [|discriminate].
  intros H; inversion H; subst; clear H.
  split; [|split]; simpl; [exact Hu|exact Hc|].
  intros k x Hk. destruct (decide (id = k)) as [<-|Hne].
  - rewrite lookup_insert_eq in Hk. inversion Hk; subst; simpl.
    split; [reflexivity|]. apply (Hf id existing E).
  - rewrite lookup_insert_ne in Hk by exact Hne. apply (Hf k x Hk).
Qed.

Lemma store_ok_deleteFeed (id : Z) (s : t) :
  store_ok s → store_ok (deleteFeed id s).
Proof.
  intros (Hu & Hc & Hf).
  split; [|split]; simpl; [exact Hu|exact Hc|].
  intros k x Hk. apply lookup_delete_Some in Hk as [_ Hk].
  apply (Hf k x Hk).
Qed.

Lemma store_ok_deleteConnection (id : Z) (s : t) :
  store_ok s → store_ok (deleteConnection id s).
Proof.
  intros (Hu & Hc & Hf). unfold deleteConnection; cbv zeta.
  destruct (deleteFeedsOf_frame id s) as (Eu & Ec & Eui & Eci & Efi).
  split; [|split]; simpl.
  - rewrite Eu, Eui. exact Hu.
  - rewrite Ec, Eci. intros k x Hk.
    apply lookup_delete_Some in Hk as [_ Hk]. apply (Hc k x Hk).
  - rewrite Efi. intros k x Hk. rewrite deleteFeedsOf_feeds in Hk.
    destruct (decide (k ∈ Feed.id <$> getFeedsByConnectionId id s));
      [discriminate|].
    apply (Hf k x Hk).
Qed.

Lemma store_ok_exec (now : Z) (c : call) (s : t) :
  store_ok s → store_ok (fst (exec now c s)).
Proof.
  intros Hok. destruct c as [u|i|id p|id|i|id p|id]; simpl.
  - apply (store_ok_createUser u now s Hok).
  - apply (store_ok_createConnection i now s Hok).
  - destruct (updateConnection id p now s) as [[c s']|e] eqn:E;
      [|exact Hok].
    apply (store_ok_updateConnection id p now s c s' Hok E).
  - apply store_ok_deleteConnection, Hok.
  - apply (store_ok_createFeed i now s Hok).
  - destruct (updateFeed id p now s) as [[f s']|e] eqn:E; [|exact Hok].
    apply (store_ok_updateFeed id p now s f s' Hok E).
  - apply store_ok_deleteFeed, Hok.
Qed.

Lemma run_cons (now : Z) (c : call) (cs : list (Z * call)) (s : t) :
  run ((now, c) :: cs) s =
  (fst (run cs (fst (exec now c s))),
   match snd (exec now c s) with
   | Some a => a :: snd (run cs (fst (exec now c s)))
   | None => snd (run cs (fst (exec now c s)))
   end).
Proof.
  simpl. destruct (exec now c s) as [s1 a]. simpl.
  destruct (run cs s1) as [s2 log]. reflexivity.
Qed.

Lemma store_ok_run (cs : list (Z * call)) (s : t) :
  store_ok s → store_ok (fst (run cs s)).
Proof.
  revert s. induction cs as [|[now c] cs IH]; intros s Hok; [exact Hok|].
  rewrite run_cons. simpl. apply IH, store_ok_exec, Hok.
Qed.

Lemma store_ok_new (t0 : Z) : store_ok (new t0).
Proof.
  apply store_ok_createUser.
  split; [|split]; simpl; intros k x Hk; rewrite lookup_empty in Hk;
    discriminate.
Qed.

Lemma history_run (t0 : Z) (cs : list (Z * call)) :
  history t0 cs =
  (fst (run cs (new t0)), (KUser, 1) :: snd (run cs (new t0))).
Proof. unfold history. destruct (run cs (new t0)). reflexivity. Qed.

Lemma store_ok_history (t0 : Z) (cs : list (Z * call)) :
  store_ok (fst (history t0 cs)).
Proof. rewrite history_run. apply store_ok_run, store_ok_new. Qed.

End Invariant.

(** ** Deleting a connection *)

(** C3. In a store whose entities sit under their own ids, deleting a
    connection first runs the cascade, which removes exactly the feeds of
    that connection and leaves the connection map alone, and then removes
    the connection: afterwards the connection and each of its feeds are
    not found, every other feed and connection is as before, and users
    and counters are untouched. *)
Theorem C3_deleteConnection_cascade (id : Z) (s : MemStorage.t) :
  store_ok s →
  MemStorage.deleteConnection id s =
  MemStorage.set_connections
    (delete id (MemStorage.connections (MemStorage.deleteFeedsOf id s)))
    (MemStorage.deleteFeedsOf id s) ∧
  MemStorage.connections (MemStorage.deleteFeedsOf id s) =
  MemStorage.connections s ∧
  (∀ k feed, MemStorage.getFeed k s = Some feed →
             Feed.connection_id feed = id →
             MemStorage.getFeed k (MemStorage.deleteFeedsOf id s) = None ∧
             MemStorage.getFeed k (MemStorage.deleteConnection id s) = None) ∧
  MemStorage.getConnection id (MemStorage.deleteConnection id s) = None ∧
  (∀ k feed, MemStorage.getFeed k s = Some feed →
             Feed.connection_id feed ≠ id →
             MemStorage.getFeed k (MemStorage.deleteConnection id s) =
             Some feed) ∧
  (∀ k, MemStorage.getFeed k s = None →
        MemStorage.getFeed k (MemStorage.deleteConnection id s) = None) ∧
  (∀ k, k ≠ id →
        MemStorage.getConnection k (MemStorage.deleteConnection id s) =
        MemStorage.getConnection k s) ∧
  MemStorage.users (MemStorage.deleteConnection id s) = MemStorage.users s ∧
  MemStorage.userId (MemStorage.deleteConnection id s) =
  MemStorage.userId s ∧
  MemStorage.connectionId (MemStorage.deleteConnection id s) =
  MemStorage.connectionId s ∧
  MemStorage.feedId (MemStorage.deleteConnection id s) = MemStorage.feedId s.
Proof.
  intros Hok.
  destruct (deleteFeedsOf_frame id s) as (Eu & Ec & Eui & Eci & Efi).
  unfold MemStorage.getFeed, MemStorage.getConnection.
  split; [reflexivity|]. split; [exact Ec|].
  split; [|split; [|split; [|split; [|split]]]].
  - intros k feed Hk Hc.
    assert (MemStorage.feeds (MemStorage.deleteFeedsOf id s) !! k = None)
      as E.
    { rewrite (deleteFeedsOf_lookup id s k feed Hok Hk).
      rewrite decide_True; [reflexivity|exact Hc]. }
    split; exact E.
  - simpl. apply lookup_delete_eq.
  - intros k feed Hk Hc. simpl.
    rewrite (deleteFeedsOf_lookup id s k feed Hok Hk).
    rewrite decide_False; [reflexivity|exact Hc].
  - intros k Hk. simpl. rewrite deleteFeedsOf_feeds, Hk.
    destruct (decide _); reflexivity.
  - intros k Hne. simpl. rewrite lookup_delete_ne by congruence.
    rewrite Ec. reflexivity.
  - simpl. auto.
Qed.

Lemma C3_witness :
  MemStorage.getConnection 1 (MemStorage.deleteConnection 1 sample_store) =
  None ∧
  MemStorage.getFeed 1 (MemStorage.deleteConnection 1 sample_store) = None ∧
  MemStorage.getFeed 2 (MemStorage.deleteConnection 1 sample_store) = None ∧
  MemStorage.getFeed 3 (MemStorage.deleteConnection 1 sample_store) =
  MemStorage.getFeed 3 sample_store ∧
  MemStorage.getConnection 2 (MemStorage.deleteConnection 1 sample_store) =
  MemStorage.getConnection 2 sample_store.
Proof.
  assert (store_ok sample_store) as Hok.
  { apply (bool_decide_unpack (store_ok sample_store)). vm_compute.
    exact I. }
  destruct (C3_deleteConnection_cascade 1 sample_store
              Hok)
    as (_ & _ & Hdep & Hconn & Hother & _ & Hframe & _).
  split; [exact Hconn|].
  split; [eapply Hdep; [vm_compute; reflexivity | reflexivity]|].
  split; [eapply Hdep; [vm_compute; reflexivity | reflexivity]|].
  split.
  - rewrite (Hother 3 (Feed.mk 3 (js "Quotes") None (js "a;b")
                         [js "a"; js "b"] [] (js ";") 5 5 2 2 0
                         (js "Daily") (Some true))).
    + vm_compute. reflexivity.
    + vm_compute. reflexivity.
    + vm_compute. discriminate.
  - apply Hframe. discriminate.
Defined.

(** ** Ownership checks of the handlers *)

Section Ownership.
Import MemStorage Routes.

Lemma hidden_connection_cases (uid id : Z) (s : t) :
  hidden Connection.user_id uid (connections s !! id) →
  match getConnection id s with
  | Some c => negb (Connection.user_id c =? uid) = true
  | None => True
  end.
Proof.
  unfold getConnection. intros [->|(c & -> & Hne)]; [exact I|].
  apply negb_true_iff, Z.eqb_neq, Hne.
Qed.

Lemma hidden_feed_cases (uid id : Z) (s : t) :
  hidden Feed.user_id uid (feeds s !! id) →
  match getFeed id s with
  | Some f => negb (Feed.user_id f =? uid) = true
  | None => True
  end.
Proof.
  unfold getFeed. intros [->|(f & -> & Hne)]; [exact I|].
  apply negb_true_iff, Z.eqb_neq, Hne.
Qed.

End Ownership.

(** C4. For an authenticated user, reading, updating or deleting a
    connection (resp. reading, updating, toggling or deleting a feed)
    whose id is absent or whose owner is another user answers 404 with
    the one message "Connection not found" (resp. "Feed not found"), and
    leaves the store as it was. *)
Theorem C4_hidden_is_not_found (uid connectionId feedId now : Z)
  (connectionBody : PartialConnection.t) (feedBody : PartialFeed.t)
  (s : MemStorage.t) :
  hidden Connection.user_id uid (MemStorage.connections s !! connectionId) →
  hidden Feed.user_id uid (MemStorage.feeds s !! feedId) →
  Routes.get_connection (Some uid) connectionId s =
  (Routes.Json 404 (Routes.JMessage (js "Connection not found")), s) ∧
  Routes.patch_connection (Some uid) connectionId connectionBody now s =
  (Routes.Json 404 (Routes.JMessage (js "Connection not found")), s) ∧
  Routes.delete_connection (Some uid) connectionId s =
  (Routes.Json 404 (Routes.JMessage (js "Connection not found")), s) ∧
  Routes.get_feed (Some uid) feedId s =
  (Routes.Json 404 (Routes.JMessage (js "Feed not found")), s) ∧
  Routes.patch_feed (Some uid) feedId feedBody now s =
  (Routes.Json 404 (Routes.JMessage (js "Feed not found")), s) ∧
  Routes.patch_feed_toggle (Some uid) feedId now s =
  (Routes.Json 404 (Routes.JMessage (js "Feed not found")), s) ∧
  Routes.delete_feed (Some uid) feedId s =
  (Routes.Json 404 (Routes.JMessage (js "Feed not found")), s).
Proof.
  intros Hc Hf.
  apply hidden_connection_cases in Hc. apply hidden_feed_cases in Hf.
  unfold Routes.get_connection, Routes.patch_connection,
    Routes.delete_connection, Routes.get_feed, Routes.patch_feed,
    Routes.patch_feed_toggle, Routes.delete_feed.
  destruct (MemStorage.getConnection connectionId s) as [c|];
    destruct (MemStorage.getFeed feedId s) as [f|];
    rewrite ?Hc, ?Hf; repeat split.
Qed.

(** In [sample_store], user 1 asks for connection 2 and feed 3, which
    belong to user 2, and user 2 for connection 7 and feed 7, which do
    not exist. *)
Lemma C4_witness :
  Routes.delete_connection (Some 1) 2 sample_store =
  (Routes.Json 404 (Routes.JMessage (js "Connection not found")),
   sample_store) ∧
  Routes.patch_feed (Some 1) 3 PartialFeed.empty 9 sample_store =
  (Routes.Json 404 (Routes.JMessage (js "Feed not found")), sample_store) ∧
  Routes.delete_connection (Some 2) 7 sample_store =
  (Routes.Json 404 (Routes.JMessage (js "Connection not found")),
   sample_store) ∧
  Routes.patch_feed (Some 2) 7 PartialFeed.empty 9 sample_store =
  (Routes.Json 404 (Routes.JMessage (js "Feed not found")), sample_store).
Proof.
  assert (hidden Connection.user_id 1
            (MemStorage.connections sample_store !! 2)) as Hc1.
  { right. eexists. split; [vm_compute; reflexivity|]. simpl. lia. }
  assert (hidden Feed.user_id 1 (MemStorage.feeds sample_store !! 3))
    as Hf1.
  { right. eexists. split; [vm_compute; reflexivity|]. simpl. lia. }
  assert (hidden Connection.user_id 2
            (MemStorage.connections sample_store !! 7)) as Hc2.
  { left. vm_compute. reflexivity. }
  assert (hidden Feed.user_id 2 (MemStorage.feeds sample_store !! 7))
    as Hf2.
  { left. vm_compute. reflexivity. }
  destruct (C4_hidden_is_not_found 1 2 3 9 PartialConnection.empty
              PartialFeed.empty sample_store Hc1 Hf1)
    as (_ & _ & H1 & _ & H2 & _).
  destruct (C4_hidden_is_not_found 2 7 7 9 PartialConnection.empty
              PartialFeed.empty sample_store Hc2 Hf2)
    as (_ & _ & H3 & _ & H4 & _).
  repeat split; assumption.
Defined.

(** ** Ids are assigned in sequence *)

Section Ids.
Import MemStorage.

Lemma deleteConnection_counter (k : kind) (id : Z) (s : t) :
  counter k (deleteConnection id s) = counter k s.
Proof.
  destruct (deleteFeedsOf_frame id s) as (_ & _ & Eui & Eci & Efi).
  destruct k; simpl; assumption.
Qed.

(** A create assigns the counter of its kind and bumps it by one; no
    other call moves a counter. *)
Lemma exec_counter (now : Z) (c : call) (s : t) (k : kind) :
  match snd (exec now c s) with
  | Some (k', i) =>
      i = counter k' s ∧
      counter k (fst (exec now c s)) =
      if kind_eqb k' k then counter k s + 1 else counter k s
  | None => counter k (fst (exec now c s)) = counter k s
  end.
Proof.
  destruct c as [u|i|id p|id|i|id p|id]; simpl.
  - split; [reflexivity|]. destruct k; reflexivity.
  - split; [reflexivity|]. destruct k; reflexivity.
  - unfold updateConnection. destruct (connections s !! id); simpl;
      destruct k; reflexivity.
  - apply deleteConnection_counter.
  - split; [reflexivity|]. destruct k; reflexivity.
  - unfold updateFeed. destruct (feeds s !! id); simpl;
      destruct k; reflexivity.
  - destruct k; reflexivity.
Qed.

Lemma kind_eqb_eq (a b : kind) : kind_eqb a b = true ↔ a = b.
Proof. destruct a, b; simpl; split; congruence. Qed.

Lemma ids_of_cons (k k' : kind) (i : Z) (log : list (kind * Z)) :
  ids_of k ((k', i) :: log) =
  if kind_eqb k' k then i :: ids_of k log else ids_of k log.
Proof.
  unfold ids_of. cbn [List.filter fst].
  destruct (kind_eqb k' k); reflexivity.
Qed.

(** The ids of one kind assigned in a run are the consecutive integers
    from the counter the run starts with. *)
Lemma run_ids (k : kind) (cs : list (Z * call)) (s : t) :
  ids_of k (snd (run cs s)) =
  seqZ (counter k s) (Z.of_nat (length (ids_of k (snd (run cs s))))) ∧
  counter k (fst (run cs s)) =
  counter k s + Z.of_nat (length (ids_of k (snd (run cs s)))).
Proof.
  revert s. induction cs as [|[now c] cs IH]; intros s.
  - simpl. split; [reflexivity|lia].
  - rewrite run_cons. cbn [fst snd].
    pose proof (exec_counter now c s k) as Hex.
    destruct (IH (fst (exec now c s))) as [IH1 IH2].
    set (log := snd (run cs (fst (exec now c s)))) in *.
    destruct (snd (exec now c s)) as [[k' i]|].
    + destruct Hex as [-> Hcnt]. rewrite ids_of_cons.
      rewrite Hcnt in IH1, IH2.
      destruct (kind_eqb k' k) eqn:Ek; [|split; assumption].
      apply kind_eqb_eq in Ek. subst k'.
      cbn [length]. split; [|lia].
      rewrite seqZ_cons by lia. f_equal.
      rewrite IH1 at 1. f_equal; lia.
    + rewrite Hex in IH1, IH2. split; assumption.
Qed.

Lemma seqZ_sorted (n : nat) (m : Z) :
  StronglySorted Z.lt (seqZ m (Z.of_nat n)).
Proof.
  revert m. induction n as [|n IH]; intros m.
  - constructor.
  - rewrite seqZ_cons by lia. constructor.
    + replace (Z.pred (Z.of_nat (S n))) with (Z.of_nat n) by lia.
      apply IH.
    + apply Forall_forall. intros x Hx. apply elem_of_seqZ in Hx. lia.
Qed.

Lemma history_ids (k : kind) (t0 : Z) (cs : list (Z * call)) :
  ids_of k (snd (history t0 cs)) =
  seqZ 1 (Z.of_nat (length (ids_of k (snd (history t0 cs))))).
Proof.
  rewrite history_run. cbn [snd]. rewrite ids_of_cons.
  destruct (run_ids k cs (new t0)) as [H _].
  set (log := snd (run cs (new t0))) in *.
  destruct k; cbn [kind_eqb]; try exact H.
  cbn [length]. rewrite seqZ_cons by lia. f_equal.
  rewrite H at 1. simpl counter. f_equal. lia.
Qed.

End Ids.

(** C8. On a store instance, from its construction through any run of
    calls (creates, updates and deletes in any order), the ids assigned to
    each kind of entity are 1, 2, 3, ... in this order: each is strictly
    greater than all assigned before it, whatever was deleted in between.
    In particular create, delete, create yields the ids 1 and 2. *)
Theorem C8_ids_sequential_never_reused (k : kind) (t0 : Z)
  (cs : list (Z * call)) (t1 t2 t3 : Z) (f1 f2 : InsertFeed.t)
  (c1 c2 : InsertConnection.t) :
  ids_of k (snd (history t0 cs)) =
  seqZ 1 (Z.of_nat (length (ids_of k (snd (history t0 cs))))) ∧
  StronglySorted Z.lt (ids_of k (snd (history t0 cs))) ∧
  ids_of KFeed
    (snd (history t0
            [(t1, CreateFeed f1); (t2, DeleteFeed 1); (t3, CreateFeed f2)])) =
  [1; 2] ∧
  ids_of KConnection
    (snd (history t0
            [(t1, CreateConnection c1); (t2, DeleteConnection 1);
             (t3, CreateConnection c2)])) = [1; 2].
Proof.
  split; [apply history_ids|].
  split; [rewrite history_ids; apply seqZ_sorted|].
  split; reflexivity.
Qed.

(** ** Toggle and update *)

Section Written.
Import MemStorage.

Lemma feed_written_insert (id : Z) (feed : Feed.t) (s : t) :
  feed_written id feed s (set_feeds (<[id := feed]> (feeds s)) s).
Proof.
  unfold feed_written, getFeed, getConnection, getUser.
  split; [apply lookup_insert_eq|].
  split; [intros k Hk; apply lookup_insert_ne; congruence|].
  split; [reflexivity|]. split; [reflexivity|].
  intros []; reflexivity.
Qed.

Lemma connection_written_insert (id : Z) (connection : Connection.t)
  (s : t) :
  connection_written id connection s
    (set_connections (<[id := connection]> (connections s)) s).
Proof.
  unfold connection_written, getFeed, getConnection, getUser.
  split; [apply lookup_insert_eq|].
  split; [intros k Hk; apply lookup_insert_ne; congruence|].
  split; [reflexivity|]. split; [reflexivity|].
  intros []; reflexivity.
Qed.

End Written.

(** C9. For a feed of the acting user, in a store whose entities sit
    under their own ids, the toggle answers 200 with the feed in which
    [active] is negated ([true] becomes [false] and [false] becomes
    [true]) and [updated_at] is the current time, every other field being
    as before. That feed is what [getFeed] answers afterwards; every other
    feed, the connections, the users and the counters are untouched. *)
Theorem C9_toggle_flips_only_active (uid feedId now : Z) (s : MemStorage.t)
  (feed : Feed.t) :
  store_ok s →
  MemStorage.getFeed feedId s = Some feed →
  Feed.user_id feed = uid →
  ∃ toggled s',
    Routes.patch_feed_toggle (Some uid) feedId now s =
    (Routes.Json 200 (Routes.JFeed toggled), s') ∧
    toggled =
    Feed.mk (Feed.id feed) (Feed.name feed) (Feed.description feed)
      (Feed.full_text feed) (Feed.contents feed)
      (Feed.completed_contents feed) (Feed.separator feed)
      (Feed.created_at feed) now (Feed.user_id feed)
      (Feed.connection_id feed) (Feed.num_sent feed) (Feed.frequency feed)
      (Some (Routes.not_active feed)) ∧
    (Feed.active feed = Some true → Feed.active toggled = Some false) ∧
    (Feed.active feed = Some false → Feed.active toggled = Some true) ∧
    MemStorage.getFeed feedId s' = Some toggled ∧
    (∀ k, k ≠ feedId → MemStorage.getFeed k s' = MemStorage.getFeed k s) ∧
    (∀ k, MemStorage.getConnection k s' = MemStorage.getConnection k s) ∧
    (∀ k, MemStorage.getUser k s' = MemStorage.getUser k s) ∧
    (∀ kind, counter kind s' = counter kind s).
Proof.
  intros (_ & _ & Hok) Hget <-.
  destruct (Hok feedId feed Hget) as [Hid _].
  unfold Routes.patch_feed_toggle, MemStorage.updateFeed.
  rewrite Hget. unfold MemStorage.getFeed in Hget. rewrite Hget.
  rewrite Z.eqb_refl. cbn [negb].
  eexists. eexists. split; [reflexivity|].
  split; [simpl; rewrite Hid; reflexivity|].
  split; [intros H; simpl; unfold Routes.not_active; rewrite H; reflexivity|].
  split; [intros H; simpl; unfold Routes.not_active; rewrite H; reflexivity|].
  apply feed_written_insert.
Qed.

Lemma C9_witness :
  ∃ toggled s',
    Routes.patch_feed_toggle (Some 1) 2 9 sample_store =
    (Routes.Json 200 (Routes.JFeed toggled), s') ∧
    toggled =
    Feed.mk 2 (js "Quotes") None (js "a;b") [js "a"; js "b"] [] (js ";")
      4 9 1 1 0 (js "Daily") (Some false) ∧
    MemStorage.getFeed 2 s' = Some toggled ∧
    MemStorage.getFeed 1 s' = MemStorage.getFeed 1 sample_store.
Proof.
  assert (store_ok sample_store) as Hok.
  { apply (bool_decide_unpack (store_ok sample_store)). vm_compute.
    exact I. }
  destruct (C9_toggle_flips_only_active 1 2 9 sample_store
              (Feed.mk 2 (js "Quotes") None (js "a;b") [js "a"; js "b"] []
                 (js ";") 4 4 1 1 0 (js "Daily") (Some true))
              Hok)
    as (toggled & s' & Hrun & Heq & _ & _ & Hget & Hother & _).
  - vm_compute. reflexivity.
  - reflexivity.
  - exists toggled, s'. split; [exact Hrun|]. split; [exact Heq|].
    split; [exact Hget|]. apply Hother. discriminate.
Defined.

(** C10 (as amended). An update of a stored feed, and an update of a
    stored connection, keeps the stored id and discards the payload's
    [id]; it sets [updated_at] to the current time and discards the
    payload's [updated_at] as well; every other field, [user_id] and
    [created_at] included, takes the payload's value when the payload
    supplies one and keeps the stored value otherwise. The merged entity
    is what the store answers for that id afterwards, and nothing else in
    the store changes. *)
Theorem C10_update_merge (feedId connectionId now : Z) (s : MemStorage.t)
  (pf : PartialFeed.t) (pc : PartialConnection.t) :
  store_ok s →
  (∀ feed,
     MemStorage.getFeed feedId s = Some feed →
     ∃ updated s',
       MemStorage.updateFeed feedId pf now s = Ok (updated, s') ∧
       updated =
       Feed.mk (Feed.id feed)
         (default (Feed.name feed) (PartialFeed.name pf))
         (default (Feed.description feed) (PartialFeed.description pf))
         (default (Feed.full_text feed) (PartialFeed.full_text pf))
         (default (Feed.contents feed) (PartialFeed.contents pf))
         (default (Feed.completed_contents feed)
            (PartialFeed.completed_contents pf))
         (default (Feed.separator feed) (PartialFeed.separator pf))
         (default (Feed.created_at feed) (PartialFeed.created_at pf))
         now
         (default (Feed.user_id feed) (PartialFeed.user_id pf))
         (default (Feed.connection_id feed) (PartialFeed.connection_id pf))
         (default (Feed.num_sent feed) (PartialFeed.num_sent pf))
         (default (Feed.frequency feed) (PartialFeed.frequency pf))
         (match PartialFeed.active pf with
          | Some b => Some b
          | None => Feed.active feed
          end) ∧
       MemStorage.getFeed feedId s' = Some updated ∧
       (∀ k, k ≠ feedId →
             MemStorage.getFeed k s' = MemStorage.getFeed k s) ∧
       (∀ k, MemStorage.getConnection k s' = MemStorage.getConnection k s) ∧
       (∀ k, MemStorage.getUser k s' = MemStorage.getUser k s) ∧
       (∀ kind, counter kind s' = counter kind s)) ∧
  (∀ connection,
     MemStorage.getConnection connectionId s = Some connection →
     ∃ updated s',
       MemStorage.updateConnection connectionId pc now s =
       Ok (updated, s') ∧
       updated =
       Connection.mk (Connection.id connection)
         (default (Connection.name connection) (PartialConnection.name pc))
         (default (Connection.url connection) (PartialConnection.url pc))
         (default (Connection.token connection)
            (PartialConnection.token pc))
         (default (Connection.status connection)
            (PartialConnection.status pc))
         (default (Connection.user_id connection)
            (PartialConnection.user_id pc))
         (default (Connection.icon connection) (PartialConnection.icon pc))
         (default (Connection.created_at connection)
            (PartialConnection.created_at pc))
         now
         (default (Connection.projects connection)
            (PartialConnection.projects pc)) ∧
       MemStorage.getConnection connectionId s' = Some updated ∧
       (∀ k, k ≠ connectionId →
             MemStorage.getConnection k s' = MemStorage.getConnection k s) ∧
       (∀ k, MemStorage.getFeed k s' = MemStorage.getFeed k s) ∧
       (∀ k, MemStorage.getUser k s' = MemStorage.getUser k s) ∧
       (∀ kind, counter kind s' = counter kind s)).
Proof.
  intros (_ & Hokc & Hokf). split.
  - intros feed Hf. destruct (Hokf feedId feed Hf) as [Hid _].
    unfold MemStorage.getFeed in Hf. unfold MemStorage.updateFeed.
    rewrite Hf. eexists. eexists. split; [reflexivity|].
    split; [simpl; rewrite Hid; reflexivity|].
    apply feed_written_insert.
  - intros connection Hc.
    destruct (Hokc connectionId connection Hc) as [Hid _].
    unfold MemStorage.getConnection in Hc.
    unfold MemStorage.updateConnection.
    rewrite Hc. eexists. eexists. split; [reflexivity|].
    split; [simpl; rewrite Hid; reflexivity|].
    apply connection_written_insert.
Qed.

(** A feed payload that carries [id], [created_at], [updated_at] and
    [user_id], on a store that holds feed 1; a connection payload that
    carries [id] and [user_id], on a store that holds connection 2. *)
Lemma C10_witness :
  (∃ updated s',
     MemStorage.updateFeed 1
       (PartialFeed.mk (Some 99) None None None None None None (Some 77)
          (Some 5) (Some 42) None None None None) 9 sample_store =
     Ok (updated, s') ∧
     updated =
     Feed.mk 1 (js "Quotes") None (js "a;b") [js "a"; js "b"] [] (js ";")
       77 9 42 1 0 (js "Daily") (Some true) ∧
     MemStorage.getFeed 1 s' = Some updated) ∧
  (∃ updated s',
     MemStorage.updateConnection 2
       (PartialConnection.mk (Some 99) None None None None (Some 42) None
          None None None) 9 sample_store =
     Ok (updated, s') ∧
     updated =
     Connection.mk 2 (js "Notes") (js "https://example.org") (js "token")
       (js "Connected") 42 (js "notion") 2 9 None ∧
     MemStorage.getConnection 2 s' = Some updated).
Proof.
  assert (store_ok sample_store) as Hok.
  { apply (bool_decide_unpack (store_ok sample_store)). vm_compute.
    exact I. }
  split.
  - destruct (proj1 (C10_update_merge 1 2 9 sample_store
                       (PartialFeed.mk (Some 99) None None None None None
                          None (Some 77) (Some 5) (Some 42) None None None
                          None)
                       PartialConnection.empty Hok)
                (Feed.mk 1 (js "Quotes") None (js "a;b") [js "a"; js "b"]
                   [] (js ";") 3 3 1 1 0 (js "Daily") (Some true)))
      as (updated & s' & Hrun & Heq & Hget & _).
    + vm_compute. reflexivity.
    + exists updated, s'. split; [exact Hrun|]. split; [exact Heq|].
      exact Hget.
  - destruct (proj2 (C10_update_merge 1 2 9 sample_store PartialFeed.empty
                       (PartialConnection.mk (Some 99) None None None None
                          (Some 42) None None None None) Hok)
                (Connection.mk 2 (js "Notes") (js "https://example.org")
                   (js "token") (js "Connected") 2 (js "notion") 2 2 None))
      as (updated & s' & Hrun & Heq & Hget & _).
    + vm_compute. reflexivity.
    + exists updated, s'. split; [exact Hrun|]. split; [exact Heq|].
      exact Hget.
Defined.

(** C10 (as stated) fails: [id] is not the only field of the payload the
    merge discards. A payload with [updated_at = 5], merged at time 9,
    leaves the stored [updated_at] at 9, for a feed and for a connection
    alike. *)
Lemma C10_counterexample :
  match
    MemStorage.updateFeed 1
      (PartialFeed.mk None None None None None None None None (Some 5)
         None None None None None) 9 sample_store
  with
  | Ok (updated, _) =>
      Feed.updated_at updated = 9 ∧ Feed.updated_at updated ≠ 5
  | Throw _ => False
  end ∧
  match
    MemStorage.updateConnection 1
      (PartialConnection.mk None None None None None None None None
         (Some 5) None) 9 sample_store
  with
  | Ok (updated, _) =>
      Connection.updated_at updated = 9 ∧ Connection.updated_at updated ≠ 5
  | Throw _ => False
  end.
Proof. vm_compute. repeat split; discriminate. Qed.

(** C2 (as amended). For a feed of the acting user the update handler
    answers 200 with the merged feed, and that feed is what the store
    answers for the id afterwards, nothing else in the store changing.
    When the payload carries a non-empty [full_text] and a non-empty
    [separator], the stored [contents] is the split of that text on that
    separator (trimmed, empties dropped), whatever [contents] the payload
    carries. When the payload lacks [full_text] or lacks [separator],
    nothing is recomputed: [contents] is the payload's when it carries one
    and the stored one when it does not. A supplied [full_text] or
    [separator] is merged in. *)
Theorem C2_patch_feed_contents (uid feedId now : Z) (s : MemStorage.t)
  (existing : Feed.t) (body : PartialFeed.t) :
  MemStorage.getFeed feedId s = Some existing →
  Feed.user_id existing = uid →
  ∃ feed s',
    Routes.patch_feed (Some uid) feedId body now s =
    (Routes.Json 200 (Routes.JFeed feed), s') ∧
    MemStorage.getFeed feedId s' = Some feed ∧
    (∀ k, k ≠ feedId → MemStorage.getFeed k s' = MemStorage.getFeed k s) ∧
    (∀ k, MemStorage.getConnection k s' = MemStorage.getConnection k s) ∧
    (∀ k, MemStorage.getUser k s' = MemStorage.getUser k s) ∧
    (∀ kind, counter kind s' = counter kind s) ∧
    Feed.full_text feed =
    default (Feed.full_text existing) (PartialFeed.full_text body) ∧
    Feed.separator feed =
    default (Feed.separator existing) (PartialFeed.separator body) ∧
    (∀ full_text separator,
       PartialFeed.full_text body = Some full_text →
       PartialFeed.separator body = Some separator →
       full_text ≠ [] → separator ≠ [] →
       Feed.contents feed = split_trim_filter full_text (Some separator)) ∧
    (PartialFeed.full_text body = None ∨ PartialFeed.separator body = None →
     Feed.contents feed =
     default (Feed.contents existing) (PartialFeed.contents body)).
Proof.
  intros Hget <-.
  unfold Routes.patch_feed, MemStorage.updateFeed.
  rewrite Hget. unfold MemStorage.getFeed in Hget. rewrite Hget.
  rewrite Z.eqb_refl. cbn [negb].
  eexists. eexists. split; [reflexivity|].
  destruct (feed_written_insert feedId
              (let merged :=
                 MemStorage.spreadFeed existing
                   (Routes.recompute_contents body) in
               Feed.mk feedId (Feed.name merged) (Feed.description merged)
                 (Feed.full_text merged) (Feed.contents merged)
                 (Feed.completed_contents merged) (Feed.separator merged)
                 (Feed.created_at merged) now (Feed.user_id merged)
                 (Feed.connection_id merged) (Feed.num_sent merged)
                 (Feed.frequency merged) (Feed.active merged)) s)
    as (W1 & W2 & W3 & W4 & W5).
  split; [exact W1|]. split; [exact W2|]. split; [exact W3|].
  split; [exact W4|]. split; [exact W5|].
  unfold Routes.recompute_contents.
  destruct (PartialFeed.full_text body) as [ft|] eqn:Eft;
    destruct (PartialFeed.separator body) as [sep|] eqn:Esep.
  - destruct ft as [|c ft]; [|destruct sep as [|d sep]];
      cbn [truthy andb]; simpl; rewrite ?Eft, ?Esep;
      (split; [reflexivity|]); (split; [reflexivity|]); split;
      try (intros ft' sep' [= <-] [= <-] Hft Hsep; congruence);
      try (intros _; reflexivity);
      intros [H|H]; discriminate.
  - simpl. rewrite Eft, Esep. repeat split.
    intros ft' sep' _ [=].
  - simpl. rewrite Eft, Esep. repeat split.
    intros ft' sep' [=].
  - simpl. rewrite Eft, Esep. repeat split.
    intros ft' sep' [=].
Qed.

Lemma C2_witness :
  ∃ feed s',
    Routes.patch_feed (Some 1) 1
      (PartialFeed.mk None None None (Some (js "c, d,,e")) None None
         (Some (js ",")) None None None None None None None)
      9 sample_store = (Routes.Json 200 (Routes.JFeed feed), s') ∧
    MemStorage.getFeed 1 s' = Some feed ∧
    Feed.contents feed = [js "c"; js "d"; js "e"].
Proof.
  destruct (C2_patch_feed_contents 1 1 9 sample_store
              (Feed.mk 1 (js "Quotes") None (js "a;b") [js "a"; js "b"] []
                 (js ";") 3 3 1 1 0 (js "Daily") (Some true))
              (PartialFeed.mk None None None (Some (js "c, d,,e")) None None
                 (Some (js ",")) None None None None None None None))
    as (feed & s' & Hrun & Hget & _ & _ & _ & _ & _ & _ & Hsplit & _).
  - vm_compute. reflexivity.
  - reflexivity.
  - exists feed, s'. split; [exact Hrun|]. split; [exact Hget|].
    rewrite (Hsplit (js "c, d,,e") (js ","));
      [reflexivity | reflexivity | reflexivity | discriminate | discriminate].
Defined.

(** C2 (as stated) fails on feed 1 of [sample_store], whose contents are
    a, b. A payload with [full_text] only, but with a [contents] of its
    own, does not leave the contents unchanged: the generic merge makes
    them the payload's. *)
Lemma C2_counterexample :
  match
    Routes.patch_feed (Some 1) 1
      (PartialFeed.mk None None None (Some (js "c;d")) (Some [js "z"]) None
         None None None None None None None None) 9 sample_store
  with
  | (Routes.Json 200 (Routes.JFeed feed), s') =>
      Feed.full_text feed = js "c;d" ∧
      MemStorage.getFeed 1 sample_store ≫= (fun f => Some (Feed.contents f)) =
      Some [js "a"; js "b"] ∧
      Feed.contents feed = [js "z"] ∧
      MemStorage.getFeed 1 s' = Some feed
  | _ => False
  end.
Proof. vm_compute. repeat split; discriminate. Qed.

(** ** Creating a feed with the newline placeholder *)

Lemma int32_spec (n : Z) :
  Routes.int32 n = true ↔ -2147483648 <= n <= 2147483647.
Proof. unfold Routes.int32. lia. Qed.

(** C1 (the code departs from it). The client's [splitContent] resolves
    the placeholders: the two characters backslash, n stand for a newline
    and the four characters backslash, n, backslash, n for two newlines,
    so it splits x, newline, y into x and y. The POST handler recomputes
    [contents] from the raw separator and overrides the client's: the
    feed it stores for that request (accepted for every user id and
    connection id within the range of their integer columns) has the
    single item x, newline, y, with [num_sent = 0] and completion rate
    0. *)
Theorem C1_post_feeds_literal_separator (uid now connection_id : Z)
  (s : MemStorage.t) (name frequency text : jsstring)
  (description : option jsstring) (active : bool) :
  -2147483648 <= uid <= 2147483647 →
  -2147483648 <= connection_id <= 2147483647 →
  splitContent text (js "\n") =
  List.filter (fun item => 0 <? Z.of_nat (length item))
    (List.map trim (split text (Some [LF]))) ∧
  splitContent text (js "\n\n") =
  List.filter (fun item => 0 <? Z.of_nat (length item))
    (List.map trim (split text (Some [LF; LF]))) ∧
  splitContent x_newline_y (js "\n") = [js "x"; js "y"] ∧
  ∃ feed,
    Routes.post_feeds (Some uid)
      (Client.createFeedMutation_body
         (Client.mkForm name description x_newline_y (js "\n") frequency
            connection_id active))
      now s =
    (Routes.Json 201 (Routes.JFeed feed),
     MemStorage.mk (MemStorage.users s) (MemStorage.connections s)
       (<[MemStorage.feedId s := feed]> (MemStorage.feeds s))
       (MemStorage.userId s) (MemStorage.connectionId s)
       (MemStorage.feedId s + 1)) ∧
    Feed.contents feed = [x_newline_y] ∧
    Feed.contents feed ≠ [js "x"; js "y"] ∧
    Feed.num_sent feed = 0 ∧
    Client.completionRate feed = 0.
Proof.
  intros Huid%int32_spec Hcid%int32_spec.
  split; [reflexivity|]. split; [reflexivity|]. split; [reflexivity|].
  unfold Routes.post_feeds, Routes.insertFeedSchema_parse.
  cbn -[Routes.int32]. rewrite Huid, Hcid. cbn.
  eexists. split; [reflexivity|]. simpl.
  split; [reflexivity|]. split; [discriminate|].
  split; reflexivity.
Qed.

Lemma C1_witness :
  ∃ feed s',
    Routes.post_feeds (Some 1)
      (Client.createFeedMutation_body
         (Client.mkForm (js "Quotes") None x_newline_y (js "\n")
            (js "Daily") 1 true))
      9 sample_store = (Routes.Json 201 (Routes.JFeed feed), s') ∧
    Feed.contents feed = [x_newline_y] ∧
    MemStorage.getFeed 4 s' = Some feed.
Proof.
  destruct (C1_post_feeds_literal_separator 1 9 1 sample_store
              (js "Quotes") (js "Daily") x_newline_y None true
              ltac:(lia) ltac:(lia))
    as (_ & _ & _ & feed & Hrun & Hcontents & _).
  exists feed. eexists. split; [exact Hrun|]. split; [exact Hcontents|].
  apply lookup_insert_eq.
Defined.

(** ** Sample evaluations of the splitters *)

Example split_scenario :
  split_trim_filter (js "a, b ,,c") (Some (js ",")) =
  [js "a"; js "b"; js "c"] ∧
  splitContent (js "a, b ,,c") (js ",") = [js "a"; js "b"; js "c"].
Proof. split; reflexivity. Qed.

Example split_repeated_separator :
  split (js "a--b----c--") (Some (js "--")) =
  [js "a"; js "b"; []; js "c"; []] ∧
  split (js "aaa") (Some (js "aa")) = [[]; js "a"].
Proof. split; reflexivity. Qed.

Example split_edge_cases :
  split (js "ab") (Some []) = [js "a"; js "b"] ∧
  split [] (Some (js ",")) = [[]] ∧
  split [] (Some []) = [] ∧
  split (js "ab") None = [js "ab"] ∧
  split_trim_filter [] (Some (js ",")) = [].
Proof. repeat split. Qed.

(** * Further properties of the code *)

(** ** [split] and [join] *)

Section SplitJoin.

Lemma split_loop_nonempty (R : jsstring) (skip : nat) (seg s : jsstring) :
  split_loop R skip seg s ≠ [].
Proof.
  revert skip seg. induction s as [|c s IH]; intros skip seg; simpl.
  - discriminate.
  - destruct skip as [|k]; [|apply IH].
    destruct (starts_with R (c :: s)); [discriminate|apply IH].
Qed.

Lemma join_cons (R x : jsstring) (l : list jsstring) :
  l ≠ [] → join R (x :: l) = x ++ R ++ join R l.
Proof. destruct l; [congruence|reflexivity]. Qed.

(** Stepping over the rest of a matched separator *)
Lemma split_loop_skip (R p seg s : jsstring) :
  split_loop R (length p) seg (p ++ s) = split_loop R O seg s.
Proof. induction p as [|c p IH]; [reflexivity|exact IH]. Qed.

Lemma starts_with_app (R s : jsstring) :
  starts_with R s = true → ∃ t, s = R ++ t.
Proof.
  revert s. induction R as [|r R IH]; intros s H; simpl in H.
  - exists s. reflexivity.
  - destruct s as [|c s]; [discriminate|].
    apply andb_true_iff in H as [Hc Hs]. apply N.eqb_eq in Hc. subst c.
    destruct (IH s Hs) as [t ->]. exists t. reflexivity.
Qed.

Lemma join_split_loop (r : N) (R : jsstring) (n : nat) (seg s : jsstring) :
  (length s <= n)%nat →
  join (r :: R) (split_loop (r :: R) O seg s) = rev seg ++ s.
Proof.
  revert seg s. induction n as [|n IH]; intros seg s Hn.
  - destruct s; [|simpl in Hn; lia]. simpl. rewrite app_nil_r. reflexivity.
  - destruct s as [|c s]; [simpl; rewrite app_nil_r; reflexivity|].
    cbn [split_loop]. destruct (starts_with (r :: R) (c :: s)) eqn:E.
    + apply starts_with_app in E as [t Ht].
      injection Ht as -> ->. cbn [length Nat.pred].
      rewrite split_loop_skip.
      rewrite join_cons by apply split_loop_nonempty.
      rewrite IH.
      * reflexivity.
      * simpl in Hn. rewrite length_app in Hn. lia.
    + rewrite IH by (simpl in Hn; lia). simpl.
      rewrite <- app_assoc. reflexivity.
Qed.

Lemma join_singletons (s : jsstring) :
  join [] (List.map (fun c => [c]) s) = s.
Proof.
  induction s as [|c s IH]; [reflexivity|].
  destruct s as [|d s]; [reflexivity|].
  change (join [] (List.map (fun c => [c]) (c :: d :: s)))
    with ([c] ++ [] ++ join [] (List.map (fun c => [c]) (d :: s))).
  rewrite IH. reflexivity.
Qed.

End SplitJoin.

(** Splitting loses nothing: joining the pieces of [S.split(R)] with [R]
    gives [S] back, for every text and every separator (the empty one
    included). *)
Theorem split_join_lossless (S R : jsstring) :
  join R (split S (Some R)) = S.
Proof.
  destruct R as [|r R]; [apply join_singletons|].
  unfold split. rewrite (join_split_loop r R (length S)) by lia.
  reflexivity.
Qed.

(** ** The items are parts of the text *)

Section Parts.

Lemma trim_decompose (s : jsstring) :
  ∃ p q, s = p ++ trim s ++ q ∧
         whitespace_only p = true ∧ whitespace_only q = true.
Proof.
  unfold trim, trimEnd.
  destruct (trimStart_split s) as [p [Hp Wp]].
  destruct (trimStart_split (rev (trimStart s))) as [q [Hq Wq]].
  exists p, (rev q). split; [|split; [exact Wp|]].
  - rewrite Hp at 1. f_equal.
    rewrite <- rev_app_distr, <- Hq, rev_involutive. reflexivity.
  - unfold whitespace_only in *. rewrite forallb_forall in *.
    intros x Hx. apply Wq. apply in_rev. exact Hx.
Qed.

Lemma part_of_trim (s : jsstring) : part_of (trim s) s.
Proof.
  destruct (trim_decompose s) as (p & q & H & _). exists p, q. exact H.
Qed.

Lemma part_of_trans (a b c : jsstring) :
  part_of a b → part_of b c → part_of a c.
Proof.
  intros (x & y & ->) (u & v & ->). exists (u ++ x), (y ++ v).
  rewrite <- !app_assoc. reflexivity.
Qed.

Lemma part_of_join (R x : jsstring) (l : list jsstring) :
  In x l → part_of x (join R l).
Proof.
  induction l as [|y l IH]; [intros []|].
  intros [->|Hin].
  - destruct l as [|z l].
    + exists [], []. simpl. rewrite app_nil_r. reflexivity.
    + exists [], (R ++ join R (z :: l)). reflexivity.
  - destruct l as [|z l]; [destruct Hin|].
    destruct (IH Hin) as (a & b & Hab).
    exists (y ++ R ++ a), b.
    change (join R (y :: z :: l)) with (y ++ R ++ join R (z :: l)).
    rewrite Hab, <- !app_assoc. reflexivity.
Qed.

Lemma part_of_split (S x : jsstring) (separator : option jsstring) :
  In x (split S separator) → part_of x S.
Proof.
  destruct separator as [R|].
  - intros Hin. pose proof (part_of_join R x _ Hin) as H.
    destruct R as [|r R]; simpl in H.
    + rewrite join_singletons in H. exact H.
    + rewrite (join_split_loop r R (length S)) in H by lia. exact H.
  - intros [<-|[]]. exists [], []. simpl. rewrite app_nil_r. reflexivity.
Qed.

Lemma part_of_filter_map_trim (keep : jsstring → bool) (S : jsstring)
  (separator : option jsstring) :
  Forall (fun item => part_of item S)
    (List.filter keep (List.map trim (split S separator))).
Proof.
  apply List.Forall_forall. intros item Hin.
  apply filter_In in Hin as [Hin _].
  apply in_map_iff in Hin as [x [<- Hx]].
  apply (part_of_trans _ x); [apply part_of_trim|].
  apply (part_of_split S x separator Hx).
Qed.

End Parts.

(** The splitters never invent content: every item of the server's split
    and of the client's [splitContent] is a contiguous part of the full
    text. *)
Theorem split_items_are_parts (full_text separator : jsstring)
  (server_separator : option jsstring) :
  Forall (fun item => part_of item full_text)
    (split_trim_filter full_text server_separator) ∧
  Forall (fun item => part_of item full_text)
    (splitContent full_text separator).
Proof.
  split; apply part_of_filter_map_trim.
Qed.

(** ** Client and server splitters, and the edit round trip *)

Section EditRoundTrip.

Lemma split_loop_unit_item (c : N) (item seg s : jsstring) :
  Forall (fun x => x ≠ c) item →
  split_loop [c] O seg (item ++ s) = split_loop [c] O (rev item ++ seg) s.
Proof.
  revert seg. induction item as [|x item IH]; intros seg H; [reflexivity|].
  inversion H as [|? ? Hx Hitem]; subst.
  cbn [app split_loop starts_with].
  destruct (N.eqb_spec c x) as [->|_]; [congruence|].
  cbn [andb]. rewrite (IH _ Hitem). cbn [rev].
  rewrite <- app_assoc. reflexivity.
Qed.

Lemma split_unit_join (c : N) (items : list jsstring) :
  items ≠ [] →
  Forall (fun item => Forall (fun x => x ≠ c) item) items →
  split_loop [c] O [] (join [c] items) = items.
Proof.
  induction items as [|x l IH]; [congruence|]. intros _ H.
  inversion H as [|? ? Hx Hl]; subst.
  destruct l as [|y l].
  - cbn [join]. rewrite <- (app_nil_r x) at 1.
    rewrite (split_loop_unit_item c x [] [] Hx). simpl.
    rewrite app_nil_r, rev_involutive. reflexivity.
  - change (join [c] (x :: y :: l)) with (x ++ c :: join [c] (y :: l)).
    rewrite (split_loop_unit_item c x [] _ Hx).
    cbn [split_loop starts_with]. rewrite N.eqb_refl. cbn [andb].
    rewrite app_nil_r, rev_involutive. cbn [length Nat.pred].
    rewrite IH; [reflexivity|discriminate|exact Hl].
Qed.

Lemma map_trim_clean (items : list jsstring) :
  Forall clean_item items → List.map trim items = items.
Proof.
  induction 1 as [|x l (_ & _ & Hx) _ IH]; [reflexivity|].
  simpl. rewrite Hx, IH. reflexivity.
Qed.

Lemma filter_clean (items : list jsstring) :
  Forall clean_item items →
  List.filter (fun item => 0 <? Z.of_nat (length item)) items = items.
Proof.
  induction 1 as [|x l (Hx & _ & _) _ IH]; [reflexivity|].
  simpl. rewrite IH. destruct x; [congruence|reflexivity].
Qed.

Lemma filter_truthy_length (l : list jsstring) :
  List.filter truthy l =
  List.filter (fun item => 0 <? Z.of_nat (length item)) l.
Proof.
  induction l as [|x l IH]; [reflexivity|].
  simpl. rewrite IH. destruct x; reflexivity.
Qed.

End EditRoundTrip.

(** On every separator that is not one of the two placeholders, the
    server's split and the client's [splitContent] return the same
    items. *)
Theorem server_client_split_agree (full_text separator : jsstring) :
  separator ≠ js "\n" → separator ≠ js "\n\n" →
  split_trim_filter full_text (Some separator) =
  splitContent full_text separator.
Proof.
  intros H1 H2. unfold split_trim_filter, splitContent.
  repeat case_decide; try contradiction.
  apply filter_truthy_length.
Qed.

Lemma server_client_split_agree_witness :
  split_trim_filter (js "a--- b ---") (Some (js "---")) =
  splitContent (js "a--- b ---") (js "---").
Proof.
  apply server_client_split_agree; discriminate.
Defined.

(** ** Listing by owner *)

Section Listing.
Import MemStorage.

Lemma elem_of_getFeedsByUserId (uid : Z) (s : t) (f : Feed.t) :
  f ∈ getFeedsByUserId uid s ↔
  Feed.user_id f = uid ∧ ∃ k, feeds s !! k = Some f.
Proof.
  unfold getFeedsByUserId.
  rewrite list_elem_of_In, filter_In, <- list_elem_of_In, elem_of_values.
  rewrite Z.eqb_eq. tauto.
Qed.

Lemma elem_of_getConnectionsByUserId (uid : Z) (s : t) (c : Connection.t) :
  c ∈ getConnectionsByUserId uid s ↔
  Connection.user_id c = uid ∧ ∃ k, connections s !! k = Some c.
Proof.
  unfold getConnectionsByUserId.
  rewrite list_elem_of_In, filter_In, <- list_elem_of_In, elem_of_values.
  rewrite Z.eqb_eq. tauto.
Qed.

End Listing.

(** GET /api/feeds and GET /api/connections answer an authenticated user
    with exactly the stored feeds, resp. connections, whose [user_id] is
    that user: all of them and no one else's. *)
Theorem list_endpoints_by_owner (uid : Z) (s : MemStorage.t) :
  (∃ l, Routes.get_feeds (Some uid) s = Routes.JsonOf l ∧
        ∀ f, f ∈ l ↔
             Feed.user_id f = uid ∧ ∃ k, MemStorage.getFeed k s = Some f) ∧
  (∃ l, Routes.get_connections (Some uid) s = Routes.JsonOf l ∧
        ∀ c, c ∈ l ↔
             Connection.user_id c = uid ∧
             ∃ k, MemStorage.getConnection k s = Some c).
Proof.
  split; eexists; (split; [reflexivity|]); intros x.
  - apply elem_of_getFeedsByUserId.
  - apply elem_of_getConnectionsByUserId.
Qed.

(** ** Failed requests change nothing *)

(** Whatever the request, a handler that does not answer 200, 201 or 204
    leaves the store as it was (401, 404, 400 and uncaught exceptions
    alike), and the two GET-by-id handlers leave it in any case. *)
Theorem failure_leaves_store (user : option Z) (id now : Z)
  (connectionBody : PartialConnection.t) (feedBody : PartialFeed.t)
  (s : MemStorage.t) :
  (Routes.success (fst (Routes.post_connections user connectionBody now s))
   = false →
   snd (Routes.post_connections user connectionBody now s) = s) ∧
  snd (Routes.get_connection user id s) = s ∧
  (Routes.success
     (fst (Routes.patch_connection user id connectionBody now s)) = false →
   snd (Routes.patch_connection user id connectionBody now s) = s) ∧
  (Routes.success (fst (Routes.delete_connection user id s)) = false →
   snd (Routes.delete_connection user id s) = s) ∧
  (Routes.success (fst (Routes.post_feeds user feedBody now s)) = false →
   snd (Routes.post_feeds user feedBody now s) = s) ∧
  snd (Routes.get_feed user id s) = s ∧
  (Routes.success (fst (Routes.patch_feed user id feedBody now s)) = false →
   snd (Routes.patch_feed user id feedBody now s) = s) ∧
  (Routes.success (fst (Routes.patch_feed_toggle user id now s)) = false →
   snd (Routes.patch_feed_toggle user id now s) = s) ∧
  (Routes.success (fst (Routes.delete_feed user id s)) = false →
   snd (Routes.delete_feed user id s) = s).
Proof.
  unfold Routes.post_connections, Routes.get_connection,
    Routes.patch_connection, Routes.delete_connection, Routes.post_feeds,
    Routes.get_feed, Routes.patch_feed, Routes.patch_feed_toggle,
    Routes.delete_feed, MemStorage.updateConnection, MemStorage.updateFeed,
    MemStorage.getConnection, MemStorage.getFeed.
  destruct user as [uid|]; [|repeat split].
  repeat split.
  - destruct (Routes.insertConnectionSchema_parse _); simpl;
      [discriminate|reflexivity].
  - destruct (MemStorage.connections s !! id) as [c|]; [|reflexivity].
    destruct (negb _); reflexivity.
  - destruct (MemStorage.connections s !! id) as [c|]; [|reflexivity].
    destruct (negb _); simpl; [reflexivity|discriminate].
  - destruct (MemStorage.connections s !! id) as [c|]; [|reflexivity].
    destruct (negb _); simpl; [reflexivity|discriminate].
  - destruct (PartialFeed.full_text feedBody); [|reflexivity].
    destruct (Routes.insertFeedSchema_parse _); simpl;
      [discriminate|reflexivity].
  - destruct (MemStorage.feeds s !! id) as [f|]; [|reflexivity].
    destruct (negb _); reflexivity.
  - destruct (MemStorage.feeds s !! id) as [f|]; [|reflexivity].
    destruct (negb _); simpl; [reflexivity|discriminate].
  - destruct (MemStorage.feeds s !! id) as [f|]; [|reflexivity].
    destruct (negb _); simpl; [reflexivity|discriminate].
  - destruct (MemStorage.feeds s !! id) as [f|]; [|reflexivity].
    destruct (negb _); simpl; [reflexivity|discriminate].
Qed.

Lemma failure_leaves_store_witness :
  snd (Routes.post_feeds (Some 1) PartialFeed.empty 9 sample_store) =
  sample_store ∧
  snd (Routes.delete_connection (Some 1) 2 sample_store) = sample_store.
Proof.
  destruct (failure_leaves_store (Some 1) 2 9 PartialConnection.empty
              PartialFeed.empty sample_store)
    as (_ & _ & _ & Hdel & Hpost & _).
  split; [apply Hpost | apply Hdel]; vm_compute; reflexivity.
Defined.

(** ** The handlers keep the invariant and other users' entities *)

Section HandlerFrames.
Import MemStorage Routes.

Lemma store_ok_post_connections (user : option Z) (body : PartialConnection.t)
  (now : Z) (s : t) :
  store_ok s → store_ok (snd (post_connections user body now s)).
Proof.
  intros Hok. unfold post_connections.
  destruct user as [uid|]; [|exact Hok].
  destruct (insertConnectionSchema_parse _) as [i|]; [|exact Hok].
  apply (store_ok_createConnection i now s Hok).
Qed.

Lemma store_ok_patch_connection (user : option Z) (id : Z)
  (body : PartialConnection.t) (now : Z) (s : t) :
  store_ok s → store_ok (snd (patch_connection user id body now s)).
Proof.
  intros Hok. unfold patch_connection.
  destruct user as [uid|]; [|exact Hok].
  destruct (getConnection id s) as [c|]; [|exact Hok].
  destruct (negb _); [exact Hok|].
  destruct (updateConnection id body now s) as [[c' s']|e] eqn:E;
    [|exact Hok].
  apply (store_ok_updateConnection id body now s c' s' Hok E).
Qed.

Lemma store_ok_delete_connection (user : option Z) (id : Z) (s : t) :
  store_ok s → store_ok (snd (delete_connection user id s)).
Proof.
  intros Hok. unfold delete_connection.
  destruct user as [uid|]; [|exact Hok].
  destruct (getConnection id s) as [c|]; [|exact Hok].
  destruct (negb _); [exact Hok|].
  apply store_ok_deleteConnection, Hok.
Qed.

Lemma store_ok_post_feeds (user : option Z) (body : PartialFeed.t)
  (now : Z) (s : t) :
  store_ok s → store_ok (snd (post_feeds user body now s)).
Proof.
  intros Hok. unfold post_feeds.
  destruct user as [uid|]; [|exact Hok].
  destruct (PartialFeed.full_text body) as [ft|]; [|exact Hok].
  destruct (insertFeedSchema_parse _) as [i|]; [|exact Hok].
  apply (store_ok_createFeed i now s Hok).
Qed.

Lemma store_ok_patch_feed (user : option Z) (id : Z) (body : PartialFeed.t)
  (now : Z) (s : t) :
  store_ok s → store_ok (snd (patch_feed user id body now s)).
Proof.
  intros Hok. unfold patch_feed.
  destruct user as [uid|]; [|exact Hok].
  destruct (getFeed id s) as [f|]; [|exact Hok].
  destruct (negb _); [exact Hok|].
  destruct (updateFeed id (recompute_contents body) now s)
    as [[f' s']|e] eqn:E; [|exact Hok].
  apply (store_ok_updateFeed id _ now s f' s' Hok E).
Qed.

Lemma store_ok_patch_feed_toggle (user : option Z) (id now : Z) (s : t) :
  store_ok s → store_ok (snd (patch_feed_toggle user id now s)).
Proof.
  intros Hok. unfold patch_feed_toggle.
  destruct user as [uid|]; [|exact Hok].
  destruct (getFeed id s) as [f|]; [|exact Hok].
  destruct (negb _); [exact Hok|].
  match goal with
  | |- context [updateFeed id ?p now s] =>
      destruct (updateFeed id p now s) as [[f' s']|e] eqn:E; [|exact Hok];
      apply (store_ok_updateFeed id p now s f' s' Hok E)
  end.
Qed.

Lemma store_ok_delete_feed (user : option Z) (id : Z) (s : t) :
  store_ok s → store_ok (snd (delete_feed user id s)).
Proof.
  intros Hok. unfold delete_feed.
  destruct user as [uid|]; [|exact Hok].
  destruct (getFeed id s) as [f|]; [|exact Hok].
  destruct (negb _); [exact Hok|].
  apply store_ok_deleteFeed, Hok.
Qed.

(** Frames of the store's writes *)

Lemma kept_refl (uid : Z) (s : t) :
  kept_connections uid s s ∧ kept_feeds uid s s.
Proof. split; intros k x Hk _; exact Hk. Qed.

Lemma kept_createConnection (uid : Z) (i : InsertConnection.t) (now : Z)
  (s : t) :
  store_ok s →
  kept_connections uid s (snd (createConnection i now s)) ∧
  kept_feeds uid s (snd (createConnection i now s)).
Proof.
  intros (_ & Hc & _). split; intros k x Hk _; simpl; [|exact Hk].
  destruct (Hc k x Hk) as [_ Hlt].
  rewrite lookup_insert_ne by lia. exact Hk.
Qed.

Lemma kept_createFeed (uid : Z) (i : InsertFeed.t) (now : Z) (s : t) :
  store_ok s →
  kept_connections uid s (snd (createFeed i now s)) ∧
  kept_feeds uid s (snd (createFeed i now s)).
Proof.
  intros (_ & _ & Hf). split; intros k x Hk _; simpl; [exact Hk|].
  destruct (Hf k x Hk) as [_ Hlt].
  rewrite lookup_insert_ne by lia. exact Hk.
Qed.

Lemma owned_key_ne_feed (uid id k : Z) (s : t) (own f : Feed.t) :
  feeds s !! id = Some own → Feed.user_id own = uid →
  feeds s !! k = Some f → Feed.user_id f ≠ uid → id ≠ k.
Proof. intros Hown Hu Hk Hne ->. congruence. Qed.

Lemma owned_key_ne_connection (uid id k : Z) (s : t)
  (own c : Connection.t) :
  connections s !! id = Some own → Connection.user_id own = uid →
  connections s !! k = Some c → Connection.user_id c ≠ uid → id ≠ k.
Proof. intros Hown Hu Hk Hne ->. congruence. Qed.

End HandlerFrames.

(** Every handler, on every request, takes a store in which the entities
    sit under their own ids, below the counters, to such a store. *)
Theorem handlers_keep_store_ok (user : option Z) (id now : Z)
  (connectionBody : PartialConnection.t) (feedBody : PartialFeed.t)
  (s : MemStorage.t) :
  store_ok s →
  store_ok (snd (Routes.post_connections user connectionBody now s)) ∧
  store_ok (snd (Routes.patch_connection user id connectionBody now s)) ∧
  store_ok (snd (Routes.delete_connection user id s)) ∧
  store_ok (snd (Routes.post_feeds user feedBody now s)) ∧
  store_ok (snd (Routes.patch_feed user id feedBody now s)) ∧
  store_ok (snd (Routes.patch_feed_toggle user id now s)) ∧
  store_ok (snd (Routes.delete_feed user id s)).
Proof.
  intros Hok.
  split; [apply store_ok_post_connections, Hok|].
  split; [apply store_ok_patch_connection, Hok|].
  split; [apply store_ok_delete_connection, Hok|].
  split; [apply store_ok_post_feeds, Hok|].
  split; [apply store_ok_patch_feed, Hok|].
  split; [apply store_ok_patch_feed_toggle, Hok|].
  apply store_ok_delete_feed, Hok.
Qed.

Lemma handlers_keep_store_ok_witness :
  store_ok (snd (Routes.delete_connection (Some 1) 1 sample_store)) ∧
  store_ok (snd (Routes.post_feeds (Some 1)
                   (Client.createFeedMutation_body
                      (Client.mkForm (js "News") None (js "a;b") (js ";")
                         (js "Daily") 1 true)) 9 sample_store)).
Proof.
  assert (store_ok sample_store) as Hok.
  { apply (bool_decide_unpack (store_ok sample_store)). vm_compute.
    exact I. }
  destruct (handlers_keep_store_ok (Some 1) 1 9 PartialConnection.empty
              (Client.createFeedMutation_body
                 (Client.mkForm (js "News") None (js "a;b") (js ";")
                    (js "Daily") 1 true)) sample_store Hok)
    as (_ & _ & Hdel & Hpost & _).
  split; assumption.
Defined.

(** A request of user [uid] leaves every connection and every feed of
    the other users as it was, with one exception: deleting one of the
    user's connections also removes the feeds attached to it, whoever
    owns them; the other users' feeds on other connections stay. *)
Theorem writes_keep_other_users (uid id now : Z)
  (connectionBody : PartialConnection.t) (feedBody : PartialFeed.t)
  (s : MemStorage.t) :
  store_ok s →
  (kept_connections uid s
     (snd (Routes.post_connections (Some uid) connectionBody now s)) ∧
   kept_feeds uid s
     (snd (Routes.post_connections (Some uid) connectionBody now s))) ∧
  (kept_connections uid s
     (snd (Routes.patch_connection (Some uid) id connectionBody now s)) ∧
   kept_feeds uid s
     (snd (Routes.patch_connection (Some uid) id connectionBody now s))) ∧
  (kept_connections uid s
     (snd (Routes.post_feeds (Some uid) feedBody now s)) ∧
   kept_feeds uid s (snd (Routes.post_feeds (Some uid) feedBody now s))) ∧
  (kept_connections uid s
     (snd (Routes.patch_feed (Some uid) id feedBody now s)) ∧
   kept_feeds uid s (snd (Routes.patch_feed (Some uid) id feedBody now s))) ∧
  (kept_connections uid s
     (snd (Routes.patch_feed_toggle (Some uid) id now s)) ∧
   kept_feeds uid s (snd (Routes.patch_feed_toggle (Some uid) id now s))) ∧
  (kept_connections uid s (snd (Routes.delete_feed (Some uid) id s)) ∧
   kept_feeds uid s (snd (Routes.delete_feed (Some uid) id s))) ∧
  (kept_connections uid s (snd (Routes.delete_connection (Some uid) id s)) ∧
   ∀ k f, MemStorage.feeds s !! k = Some f →
          Feed.user_id f ≠ uid → Feed.connection_id f ≠ id →
          MemStorage.feeds (snd (Routes.delete_connection (Some uid) id s))
            !! k = Some f).
Proof.
  intros Hok.
  unfold Routes.post_connections, Routes.patch_connection,
    Routes.post_feeds, Routes.patch_feed, Routes.patch_feed_toggle,
    Routes.delete_feed, Routes.delete_connection,
    MemStorage.updateConnection, MemStorage.updateFeed,
    MemStorage.getConnection, MemStorage.getFeed.
  repeat apply conj.
  - destruct (Routes.insertConnectionSchema_parse _) as [i|];
      [|apply kept_refl].
    apply (kept_createConnection uid i now s Hok).
  - destruct (Routes.insertConnectionSchema_parse _) as [i|];
      [|apply kept_refl].
    apply (kept_createConnection uid i now s Hok).
  - destruct (MemStorage.connections s !! id) as [own|] eqn:E;
      [|apply kept_refl].
    destruct (Z.eqb_spec (Connection.user_id own) uid) as [Hu|_];
      [|apply kept_refl].
    intros k c Hk Hne. simpl. rewrite lookup_insert_ne; [exact Hk|].
    apply (owned_key_ne_connection uid id k s own c E Hu Hk Hne).
  - destruct (MemStorage.connections s !! id) as [own|] eqn:E;
      [|apply kept_refl].
    destruct (Z.eqb_spec (Connection.user_id own) uid) as [Hu|_];
      [|apply kept_refl].
    intros k f Hk _. exact Hk.
  - destruct (PartialFeed.full_text feedBody); [|apply kept_refl].
    destruct (Routes.insertFeedSchema_parse _) as [i|]; [|apply kept_refl].
    apply (kept_createFeed uid i now s Hok).
  - destruct (PartialFeed.full_text feedBody); [|apply kept_refl].
    destruct (Routes.insertFeedSchema_parse _) as [i|]; [|apply kept_refl].
    apply (kept_createFeed uid i now s Hok).
  - destruct (MemStorage.feeds s !! id) as [own|] eqn:E; [|apply kept_refl].
    destruct (Z.eqb_spec (Feed.user_id own) uid) as [Hu|_];
      [|apply kept_refl].
    intros k c Hk _. exact Hk.
  - destruct (MemStorage.feeds s !! id) as [own|] eqn:E; [|apply kept_refl].
    destruct (Z.eqb_spec (Feed.user_id own) uid) as [Hu|_];
      [|apply kept_refl].
    intros k f Hk Hne. simpl. rewrite lookup_insert_ne; [exact Hk|].
    apply (owned_key_ne_feed uid id k s own f E Hu Hk Hne).
  - destruct (MemStorage.feeds s !! id) as [own|] eqn:E; [|apply kept_refl].
    destruct (Z.eqb_spec (Feed.user_id own) uid) as [Hu|_];
      [|apply kept_refl].
    intros k c Hk _. exact Hk.
  - destruct (MemStorage.feeds s !! id) as [own|] eqn:E; [|apply kept_refl].
    destruct (Z.eqb_spec (Feed.user_id own) uid) as [Hu|_];
      [|apply kept_refl].
    intros k f Hk Hne. simpl. rewrite lookup_insert_ne; [exact Hk|].
    apply (owned_key_ne_feed uid id k s own f E Hu Hk Hne).
  - destruct (MemStorage.feeds s !! id) as [own|] eqn:E; [|apply kept_refl].
    destruct (Z.eqb_spec (Feed.user_id own) uid) as [Hu|_];
      [|apply kept_refl].
    intros k c Hk _. exact Hk.
  - destruct (MemStorage.feeds s !! id) as [own|] eqn:E; [|apply kept_refl].
    destruct (Z.eqb_spec (Feed.user_id own) uid) as [Hu|_];
      [|apply kept_refl].
    intros k f Hk Hne. simpl. rewrite lookup_delete_ne; [exact Hk|].
    apply (owned_key_ne_feed uid id k s own f E Hu Hk Hne).
  - destruct (MemStorage.connections s !! id) as [own|] eqn:E;
      [|apply kept_refl].
    destruct (Z.eqb_spec (Connection.user_id own) uid) as [Hu|_];
      [|apply kept_refl].
    intros k c Hk Hne. simpl.
    destruct (deleteFeedsOf_frame id s) as (_ & -> & _).
    rewrite lookup_delete_ne; [exact Hk|].
    apply (owned_key_ne_connection uid id k s own c E Hu Hk Hne).
  - intros k f Hk Hne Hconn.
    destruct (MemStorage.connections s !! id) as [own|] eqn:E;
      [|exact Hk].
    destruct (negb _); [exact Hk|]. simpl.
    rewrite (deleteFeedsOf_lookup id s k f Hok Hk).
    rewrite decide_False; [reflexivity|exact Hconn].
Qed.

Lemma writes_keep_other_users_witness :
  MemStorage.feeds (snd (Routes.delete_connection (Some 1) 1 sample_store))
    !! 3 = MemStorage.feeds sample_store !! 3 ∧
  MemStorage.connections
    (snd (Routes.patch_connection (Some 1) 1 PartialConnection.empty 9
            sample_store)) !! 2 =
  MemStorage.connections sample_store !! 2.
Proof.
  assert (store_ok sample_store) as Hok.
  { apply (bool_decide_unpack (store_ok sample_store)). vm_compute.
    exact I. }
  destruct (writes_keep_other_users 1 1 9 PartialConnection.empty
              PartialFeed.empty sample_store Hok)
    as (_ & [Hpatch _] & _ & _ & _ & _ & [_ Hdel]).
  split.
  - rewrite (Hdel 3 (Feed.mk 3 (js "Quotes") None (js "a;b")
                       [js "a"; js "b"] [] (js ";") 5 5 2 2 0
                       (js "Daily") (Some true)));
      [vm_compute; reflexivity | vm_compute; reflexivity
      | vm_compute; discriminate | vm_compute; discriminate].
  - rewrite (Hpatch 2 (Connection.mk 2 (js "Notes")
                         (js "https://example.org") (js "token")
                         (js "Connected") 2 (js "notion") 2 2 None));
      [vm_compute; reflexivity | vm_compute; reflexivity
      | vm_compute; discriminate].
Defined.

(** ** Creating, reading back, deleting *)


(** A feed or a connection that was just created is read back by its
    owner as it was answered, and is not found by anyone else. *)
Theorem create_then_get (uid other now : Z) (feedBody : PartialFeed.t)
  (connectionBody : PartialConnection.t) (s s1 s2 : MemStorage.t)
  (feed : Feed.t) (connection : Connection.t) :
  other ≠ uid →
  Routes.post_feeds (Some uid) feedBody now s =
  (Routes.Json 201 (Routes.JFeed feed), s1) →
  Routes.post_connections (Some uid) connectionBody now s =
  (Routes.Json 201 (Routes.JConnection connection), s2) →
  Routes.get_feed (Some uid) (Feed.id feed) s1 =
  (Routes.Json 200 (Routes.JFeed feed), s1) ∧
  Routes.get_feed (Some other) (Feed.id feed) s1 =
  (Routes.Json 404 (Routes.JMessage (js "Feed not found")), s1) ∧
  Routes.get_connection (Some uid) (Connection.id connection) s2 =
  (Routes.Json 200 (Routes.JConnection connection), s2) ∧
  Routes.get_connection (Some other) (Connection.id connection) s2 =
  (Routes.Json 404 (Routes.JMessage (js "Connection not found")), s2).
Proof.
  intros Hother Hf Hc.
  assert (MemStorage.getFeed (Feed.id feed) s1 = Some feed ∧
          Feed.user_id feed = uid) as [Hgf Huf].
  { unfold Routes.post_feeds in Hf.
    destruct (PartialFeed.full_text feedBody); [|discriminate].
    destruct (Routes.insertFeedSchema_parse _) as [i|] eqn:Ei;
      [|discriminate].
    unfold Routes.insertFeedSchema_parse in Ei.
    cbn [PartialFeed.name PartialFeed.full_text PartialFeed.contents
         PartialFeed.completed_contents PartialFeed.separator
         PartialFeed.user_id PartialFeed.connection_id
         PartialFeed.frequency PartialFeed.description
         PartialFeed.active] in Ei.
    destruct (PartialFeed.name feedBody); [|discriminate].
    destruct (PartialFeed.separator feedBody); [|discriminate].
    destruct (PartialFeed.connection_id feedBody); [|discriminate].
    destruct (PartialFeed.frequency feedBody); [|discriminate].
    cbn -[Routes.int32] in Ei.
    destruct (Routes.int32 uid && Routes.int32 _); [|discriminate].
    injection Ei as <-.
    simpl in Hf. injection Hf as <- <-.
    unfold MemStorage.getFeed. simpl. rewrite lookup_insert_eq.
    split; reflexivity. }
  assert (MemStorage.getConnection (Connection.id connection) s2 =
          Some connection ∧ Connection.user_id connection = uid)
    as [Hgc Huc].
  { unfold Routes.post_connections, Routes.insertConnectionSchema_parse
      in Hc.
    cbn [PartialConnection.name PartialConnection.url
         PartialConnection.token PartialConnection.status
         PartialConnection.user_id PartialConnection.icon
         PartialConnection.projects] in Hc.
    destruct (PartialConnection.name connectionBody); [|discriminate].
    destruct (PartialConnection.url connectionBody); [|discriminate].
    destruct (PartialConnection.token connectionBody); [|discriminate].
    destruct (PartialConnection.status connectionBody); [|discriminate].
    destruct (PartialConnection.icon connectionBody); [|discriminate].
    cbn -[Routes.int32] in Hc.
    destruct (Routes.int32 uid); [|discriminate].
    simpl in Hc. injection Hc as <- <-.
    unfold MemStorage.getConnection. simpl. rewrite lookup_insert_eq.
    split; reflexivity. }
  unfold Routes.get_feed, Routes.get_connection.
  rewrite Hgf, Hgc, Huf, Huc, Z.eqb_refl.
  assert ((uid =? other) = false) as -> by (apply Z.eqb_neq; congruence).
  repeat split.
Qed.

Lemma create_then_get_witness :
  ∃ feed s1,
    Routes.post_feeds (Some 1)
      (Client.createFeedMutation_body
         (Client.mkForm (js "News") None (js "a;b") (js ";") (js "Daily")
            1 true)) 9 sample_store =
    (Routes.Json 201 (Routes.JFeed feed), s1) ∧
    Routes.get_feed (Some 1) (Feed.id feed) s1 =
    (Routes.Json 200 (Routes.JFeed feed), s1) ∧
    Routes.get_feed (Some 2) (Feed.id feed) s1 =
    (Routes.Json 404 (Routes.JMessage (js "Feed not found")), s1).
Proof.
  eexists. eexists. split; [reflexivity|].
  refine (let H :=
            create_then_get 1 2 9
              (Client.createFeedMutation_body
                 (Client.mkForm (js "News") None (js "a;b") (js ";")
                    (js "Daily") 1 true))
              (PartialConnection.mk None (Some (js "Mail")) (Some (js "u"))
                 (Some (js "t")) (Some (js "Connected")) None
                 (Some (js "gmail")) None None None)
              sample_store _ _ _ _ ltac:(discriminate) eq_refl eq_refl
          in _).
  split; [exact (proj1 H) | exact (proj1 (proj2 H))].
Defined.

(** After a successful DELETE, reading or deleting the same id again
    answers 404, for a feed and for a connection, whoever asks. *)
Theorem delete_then_not_found (uid asker id : Z) (s s1 s2 : MemStorage.t) :
  (Routes.delete_feed (Some uid) id s = (Routes.SendStatus 204, s1) →
   Routes.get_feed (Some asker) id s1 =
   (Routes.Json 404 (Routes.JMessage (js "Feed not found")), s1) ∧
   Routes.delete_feed (Some asker) id s1 =
   (Routes.Json 404 (Routes.JMessage (js "Feed not found")), s1)) ∧
  (Routes.delete_connection (Some uid) id s = (Routes.SendStatus 204, s2) →
   Routes.get_connection (Some asker) id s2 =
   (Routes.Json 404 (Routes.JMessage (js "Connection not found")), s2) ∧
   Routes.delete_connection (Some asker) id s2 =
   (Routes.Json 404 (Routes.JMessage (js "Connection not found")), s2)).
Proof.
  unfold Routes.delete_feed, Routes.delete_connection, Routes.get_feed,
    Routes.get_connection, MemStorage.getFeed, MemStorage.getConnection.
  split.
  - destruct (MemStorage.feeds s !! id); [|discriminate].
    destruct (negb _); [discriminate|]. intros [= <-]. simpl.
    rewrite lookup_delete_eq. split; reflexivity.
  - destruct (MemStorage.connections s !! id); [|discriminate].
    destruct (negb _); [discriminate|]. intros [= <-]. simpl.
    rewrite lookup_delete_eq. split; reflexivity.
Qed.

Lemma delete_then_not_found_witness :
  Routes.get_feed (Some 1) 2 (snd (Routes.delete_feed (Some 1) 2 sample_store))
  = (Routes.Json 404 (Routes.JMessage (js "Feed not found")),
     snd (Routes.delete_feed (Some 1) 2 sample_store)) ∧
  Routes.get_connection (Some 2) 2
    (snd (Routes.delete_connection (Some 2) 2 sample_store))
  = (Routes.Json 404 (Routes.JMessage (js "Connection not found")),
     snd (Routes.delete_connection (Some 2) 2 sample_store)).
Proof.
  split.
  - apply (delete_then_not_found 1 1 2 sample_store
             (snd (Routes.delete_feed (Some 1) 2 sample_store))
             sample_store).
    reflexivity.
  - apply (delete_then_not_found 2 2 2 sample_store sample_store
             (snd (Routes.delete_connection (Some 2) 2 sample_store))).
    reflexivity.
Defined.

(** ** Toggling twice, and deleting what is not there *)

Lemma toggle_step (uid id now : Z) (s : MemStorage.t) (feed : Feed.t) :
  MemStorage.getFeed id s = Some feed →
  Feed.user_id feed = uid →
  Routes.patch_feed_toggle (Some uid) id now s =
  (Routes.Json 200 (Routes.JFeed (toggled id now feed)),
   MemStorage.set_feeds
     (<[id := toggled id now feed]> (MemStorage.feeds s)) s).
Proof.
  intros Hget <-.
  unfold Routes.patch_feed_toggle, MemStorage.updateFeed.
  rewrite Hget. unfold MemStorage.getFeed in Hget. rewrite Hget.
  rewrite Z.eqb_refl. reflexivity.
Qed.

(** Two toggles in a row restore the feed: the first negates [active],
    the second brings it back, and the result differs from the feed the
    store started with in [updated_at] only. *)
Theorem toggle_twice_restores (uid id t1 t2 : Z) (s : MemStorage.t)
  (feed : Feed.t) (b : bool) :
  store_ok s →
  MemStorage.getFeed id s = Some feed →
  Feed.user_id feed = uid →
  Feed.active feed = Some b →
  ∃ f1 s1,
    Routes.patch_feed_toggle (Some uid) id t1 s =
    (Routes.Json 200 (Routes.JFeed f1), s1) ∧
    Feed.active f1 = Some (negb b) ∧
    Routes.patch_feed_toggle (Some uid) id t2 s1 =
    (Routes.Json 200
       (Routes.JFeed
          (Feed.mk (Feed.id feed) (Feed.name feed) (Feed.description feed)
             (Feed.full_text feed) (Feed.contents feed)
             (Feed.completed_contents feed) (Feed.separator feed)
             (Feed.created_at feed) t2 (Feed.user_id feed)
             (Feed.connection_id feed) (Feed.num_sent feed)
             (Feed.frequency feed) (Feed.active feed))),
     MemStorage.set_feeds
       (<[id :=
            Feed.mk (Feed.id feed) (Feed.name feed) (Feed.description feed)
              (Feed.full_text feed) (Feed.contents feed)
              (Feed.completed_contents feed) (Feed.separator feed)
              (Feed.created_at feed) t2 (Feed.user_id feed)
              (Feed.connection_id feed) (Feed.num_sent feed)
              (Feed.frequency feed) (Feed.active feed)]>
          (MemStorage.feeds s)) s).
Proof.
  intros (_ & _ & Hok) Hget <- Hactive.
  destruct (Hok id feed Hget) as [Hid _].
  exists (toggled id t1 feed),
    (MemStorage.set_feeds
       (<[id := toggled id t1 feed]> (MemStorage.feeds s)) s).
  split; [apply toggle_step; [exact Hget|reflexivity]|].
  split; [unfold toggled, Routes.not_active; simpl; rewrite Hactive;
          reflexivity|].
  rewrite (toggle_step (Feed.user_id feed) id t2 _ (toggled id t1 feed)).
  - unfold MemStorage.set_feeds. cbn [MemStorage.feeds MemStorage.users
      MemStorage.connections MemStorage.userId MemStorage.connectionId
      MemStorage.feedId].
    rewrite insert_insert_eq.
    unfold toggled, Routes.not_active. cbn [Feed.active Feed.name
      Feed.description Feed.full_text Feed.contents Feed.completed_contents
      Feed.separator Feed.created_at Feed.user_id Feed.connection_id
      Feed.num_sent Feed.frequency default].
    rewrite Hactive. destruct b; cbn; rewrite Hid; reflexivity.
  - unfold MemStorage.getFeed, MemStorage.set_feeds.
    cbn [MemStorage.feeds]. apply lookup_insert_eq.
  - reflexivity.
Qed.

Lemma toggle_twice_restores_witness :
  ∃ f1 s1,
    Routes.patch_feed_toggle (Some 1) 2 8 sample_store =
    (Routes.Json 200 (Routes.JFeed f1), s1) ∧
    Feed.active f1 = Some false ∧
    fst (Routes.patch_feed_toggle (Some 1) 2 9 s1) =
    Routes.Json 200
      (Routes.JFeed
         (Feed.mk 2 (js "Quotes") None (js "a;b") [js "a"; js "b"] []
            (js ";") 4 9 1 1 0 (js "Daily") (Some true))).
Proof.
  assert (store_ok sample_store) as Hok.
  { apply (bool_decide_unpack (store_ok sample_store)). vm_compute.
    exact I. }
  destruct (toggle_twice_restores 1 2 8 9 sample_store
              (Feed.mk 2 (js "Quotes") None (js "a;b") [js "a"; js "b"] []
                 (js ";") 4 4 1 1 0 (js "Daily") (Some true)) true Hok)
    as (f1 & s1 & H1 & H2 & H3).
  - vm_compute. reflexivity.
  - reflexivity.
  - reflexivity.
  - exists f1, s1. split; [exact H1|]. split; [exact H2|].
    rewrite H3. reflexivity.
Defined.

(** Deleting a feed id that is not stored changes nothing. Deleting a
    connection id that is not stored changes nothing either, provided no
    feed refers to that id: [deleteConnection] runs its cascade without
    looking the connection up. *)
Theorem delete_absent_is_noop (id : Z) (s : MemStorage.t) :
  (MemStorage.getFeed id s = None → MemStorage.deleteFeed id s = s) ∧
  (MemStorage.getConnection id s = None →
   (∀ k f, MemStorage.getFeed k s = Some f → Feed.connection_id f ≠ id) →
   MemStorage.deleteConnection id s = s).
Proof.
  unfold MemStorage.getFeed, MemStorage.getConnection. split.
  - intros H. unfold MemStorage.deleteFeed. rewrite delete_id by exact H.
    apply set_feeds_same.
  - intros Hc Hf.
    assert (MemStorage.getFeedsByConnectionId id s = []) as E.
    { destruct (MemStorage.getFeedsByConnectionId id s) as [|f l] eqn:E;
        [reflexivity|exfalso].
      assert (f ∈ MemStorage.getFeedsByConnectionId id s) as Hin
        by (rewrite E; apply elem_of_cons; auto).
      apply elem_of_getFeedsByConnectionId in Hin as [Hid [k Hk]].
      apply (Hf k f Hk Hid). }
    unfold MemStorage.deleteConnection, MemStorage.deleteFeedsOf.
    rewrite E. cbn [foldl]. rewrite delete_id by exact Hc.
    destruct s; reflexivity.
Qed.

Lemma delete_absent_is_noop_witness :
  MemStorage.deleteFeed 7 sample_store = sample_store ∧
  MemStorage.deleteConnection 7 sample_store = sample_store.
Proof.
  destruct (delete_absent_is_noop 7 sample_store) as [Hf Hc].
  split.
  - apply Hf. vm_compute. reflexivity.
  - apply Hc; [vm_compute; reflexivity|].
    intros k f Hk.
    assert (In f (MemStorage.values (MemStorage.feeds sample_store)))
      as Hin by (apply list_elem_of_In, elem_of_values; eauto).
    clear Hk. revert f Hin. apply List.Forall_forall. vm_compute.
    repeat constructor; discriminate.
Defined.

(** ** Users *)

Section Users.
Import MemStorage.

Lemma exec_users (now : Z) (c : call) (s : t) (k : Z) (u : User.t) :
  store_ok s → users s !! k = Some u →
  users (fst (exec now c s)) !! k = Some u.
Proof.
  intros (Hu & _ & _) Hk.
  destruct c as [i|i|id p|id|i|id p|id]; simpl; try exact Hk.
  - destruct (Hu k u Hk) as [_ Hlt].
    rewrite lookup_insert_ne by lia. exact Hk.
  - unfold updateConnection. destruct (connections s !! id); exact Hk.
  - destruct (deleteFeedsOf_frame id s) as [-> _]. exact Hk.
  - unfold updateFeed. destruct (feeds s !! id); exact Hk.
Qed.

Lemma run_users (cs : list (Z * call)) (s : t) (k : Z) (u : User.t) :
  store_ok s → users s !! k = Some u →
  users (fst (run cs s)) !! k = Some u.
Proof.
  revert s. induction cs as [|[now c] cs IH]; intros s Hok Hk; [exact Hk|].
  rewrite run_cons. cbn [fst]. apply IH.
  - apply store_ok_exec, Hok.
  - apply exec_users; assumption.
Qed.

(** User ids start at 1. *)
Lemma exec_users_from_1 (now : Z) (c : call) (s : t) :
  (1 <= userId s ∧ ∀ k u, users s !! k = Some u → 1 <= k) →
  1 <= userId (fst (exec now c s)) ∧
  ∀ k u, users (fst (exec now c s)) !! k = Some u → 1 <= k.
Proof.
  intros [Hc Hk].
  destruct c as [i|i|id p|id|i|id p|id]; simpl;
    try (split; [exact Hc|exact Hk]).
  - split; [lia|]. intros k u.
    destruct (decide (k = userId s)) as [->|Hne]; [intros _; exact Hc|].
    rewrite lookup_insert_ne by congruence. apply Hk.
  - unfold updateConnection. destruct (connections s !! id);
      (split; [exact Hc|exact Hk]).
  - destruct (deleteFeedsOf_frame id s) as (-> & _ & -> & _).
    split; [exact Hc|exact Hk].
  - unfold updateFeed. destruct (feeds s !! id);
      (split; [exact Hc|exact Hk]).
Qed.

Lemma run_users_from_1 (cs : list (Z * call)) (s : t) :
  (1 <= userId s ∧ ∀ k u, users s !! k = Some u → 1 <= k) →
  ∀ k u, users (fst (run cs s)) !! k = Some u → 1 <= k.
Proof.
  revert s. induction cs as [|[now c] cs IH]; intros s H; [apply H|].
  rewrite run_cons. cbn [fst]. apply IH, exec_users_from_1, H.
Qed.

(** The entry with the least key is listed first. *)
Lemma entries_first {A} (m : gmap Z A) (k : Z) (a : A) :
  m !! k = Some a → (∀ k' x, m !! k' = Some x → k <= k') →
  ∃ rest, entries m = (k, a) :: rest.
Proof.
  intros Ha Hleast.
  pose proof (entries_sorted m) as Hs.
  pose proof (proj2 (elem_of_entries m k a) Ha) as Hin.
  destruct (entries m) as [|[k0 x0] rest] eqn:E.
  { apply elem_of_nil in Hin. contradiction. }
  exists rest.
  assert (m !! k0 = Some x0) as H0.
  { apply elem_of_entries. rewrite E. left. }
  apply StronglySorted_cons in Hs as [Hall _].
  apply elem_of_cons in Hin as [Heq|Hin]; [congruence|].
  rewrite List.Forall_forall in Hall.
  pose proof (Hall _ (proj1 (list_elem_of_In _ _) Hin)) as Hle.
  unfold key_le in Hle. simpl in Hle.
  pose proof (Hleast k0 x0 H0).
  assert (k0 = k) as -> by lia. congruence.
Qed.

End Users.

(** [getUserByUsername] answers with a stored user of that name, and with
    nothing only when no stored user has that name. *)
Theorem getUserByUsername_spec (username : jsstring) (s : MemStorage.t) :
  (∀ user, MemStorage.getUserByUsername username s = Some user →
           User.username user = username ∧
           ∃ id, MemStorage.getUser id s = Some user) ∧
  (MemStorage.getUserByUsername username s = None →
   ∀ id user, MemStorage.getUser id s = Some user →
              User.username user ≠ username).
Proof.
  unfold MemStorage.getUserByUsername, MemStorage.getUser. split.
  - intros user H. apply find_some in H as [Hin Hname].
    apply bool_decide_eq_true in Hname. split; [exact Hname|].
    apply elem_of_values, list_elem_of_In, Hin.
  - intros H id user Hid Hname.
    assert (In user (MemStorage.values (MemStorage.users s))) as Hin
      by (apply list_elem_of_In, elem_of_values; eauto).
    pose proof (find_none _ _ H user Hin) as Hf. simpl in Hf.
    apply bool_decide_eq_false in Hf. contradiction.
Qed.

(** The store has no call that removes or rewrites a user: whatever calls
    run, a stored user stays as it is. In particular the admin user the
    constructor creates is there in every store a run can reach, under id
    1, and it is the user [getUserByUsername] answers for the name admin,
    also when later users were created with that name. *)
Theorem users_never_change (t0 : Z) (cs cs' : list (Z * call)) (id : Z)
  (user : User.t) :
  (MemStorage.getUser id (fst (history t0 cs)) = Some user →
   MemStorage.getUser id (fst (run cs' (fst (history t0 cs)))) = Some user) ∧
  MemStorage.getUser 1 (fst (history t0 cs)) =
  Some (User.mk 1 (js "admin") (js "admin") (js "admin@minimind.com")
          (js "Admin") t0) ∧
  MemStorage.getUserByUsername (js "admin") (fst (history t0 cs)) =
  Some (User.mk 1 (js "admin") (js "admin") (js "admin@minimind.com")
          (js "Admin") t0).
Proof.
  assert (MemStorage.getUser 1 (fst (history t0 cs)) =
          Some (User.mk 1 (js "admin") (js "admin")
                  (js "admin@minimind.com") (js "Admin") t0)) as Hadmin.
  { rewrite history_run. cbn [fst]. unfold MemStorage.getUser.
    apply run_users; [apply store_ok_new|reflexivity]. }
  split; [|split; [exact Hadmin|]].
  - unfold MemStorage.getUser. apply run_users, store_ok_history.
  - assert (∀ k u, MemStorage.users (fst (history t0 cs)) !! k = Some u →
                   1 <= k) as Hleast.
    { rewrite history_run. cbn [fst]. apply run_users_from_1.
      split; [simpl; lia|]. intros k u. simpl.
      destruct (decide (k = 1)) as [->|Hne]; [lia|].
      rewrite lookup_insert_ne by congruence. rewrite lookup_empty.
      discriminate. }
    destruct (entries_first _ 1 _ Hadmin Hleast) as [rest E].
    unfold MemStorage.getUserByUsername, MemStorage.values.
    rewrite E. reflexivity.
Qed.

(** The run creates a second user named admin. *)
Lemma users_never_change_witness :
  MemStorage.getUser 1
    (fst (run [(7, DeleteConnection 1); (8, CreateUser MemStorage.admin)]
            sample_store)) =
  Some (User.mk 1 (js "admin") (js "admin") (js "admin@minimind.com")
          (js "Admin") 0) ∧
  MemStorage.getUserByUsername (js "admin")
    (fst (history 0 [(8, CreateUser MemStorage.admin)])) =
  Some (User.mk 1 (js "admin") (js "admin") (js "admin@minimind.com")
          (js "Admin") 0).
Proof.
  split.
  - apply (proj1 (users_never_change 0
                    [(1, CreateConnection (sample_connection 1));
                     (2, CreateConnection (sample_connection 2));
                     (3, CreateFeed (sample_insert_feed 1 1));
                     (4, CreateFeed (sample_insert_feed 1 1));
                     (5, CreateFeed (sample_insert_feed 2 2))]
                    [(7, DeleteConnection 1);
                     (8, CreateUser MemStorage.admin)] 1 _)).
    vm_compute. reflexivity.
  - apply (proj2 (proj2 (users_never_change 0
                           [(8, CreateUser MemStorage.admin)] [] 1
                           (User.mk 1 (js "admin") (js "admin")
                              (js "admin@minimind.com") (js "Admin") 0)))).
Defined.

(** ** The invariant of reachable stores *)

(** In every store a run can reach from the constructor, every user,
    connection and feed is stored under its own id, every stored id is
    below the counter of its kind, and so the id the next create will
    assign is free. *)
Theorem reachable_store_invariant (t0 : Z) (cs : list (Z * call)) :
  store_ok (fst (history t0 cs)) ∧
  MemStorage.getUser (MemStorage.userId (fst (history t0 cs)))
    (fst (history t0 cs)) = None ∧
  MemStorage.getConnection (MemStorage.connectionId (fst (history t0 cs)))
    (fst (history t0 cs)) = None ∧
  MemStorage.getFeed (MemStorage.feedId (fst (history t0 cs)))
    (fst (history t0 cs)) = None.
Proof.
  pose proof (store_ok_history t0 cs) as Hok.
  split; [exact Hok|].
  destruct Hok as (Hu & Hc & Hf).
  unfold MemStorage.getUser, MemStorage.getConnection, MemStorage.getFeed.
  split; [|split].
  - destruct (MemStorage.users _ !! _) as [u|] eqn:E; [|reflexivity].
    destruct (Hu _ u E). lia.
  - destruct (MemStorage.connections _ !! _) as [c|] eqn:E; [|reflexivity].
    destruct (Hc _ c E). lia.
  - destruct (MemStorage.feeds _ !! _) as [f|] eqn:E; [|reflexivity].
    destruct (Hf _ f E). lia.
Qed.

(** ** The dashboard statistics *)

Section Statistics.
Import MemStorage Routes.

Lemma values_insert_fresh {A} (m : gmap Z A) (k : Z) (x : A) :
  m !! k = None → values (<[k := x]> m) ≡ₚ x :: values m.
Proof.
  intros H. unfold values.
  rewrite entries_Permutation, (map_to_list_insert m k x H).
  rewrite <- (entries_Permutation m).
  reflexivity.
Qed.

Lemma filter_Permutation {A} (f : A → bool) (l l' : list A) :
  l ≡ₚ l' → List.filter f l ≡ₚ List.filter f l'.
Proof.
  induction 1 as [|x l l' _ IH|x y l|l l' l'' _ IH1 _ IH2]; simpl.
  - reflexivity.
  - destruct (f x); [constructor|]; exact IH.
  - destruct (f x), (f y); try reflexivity. constructor.
  - etransitivity; eassumption.
Qed.

Lemma fold_left_sum_Permutation {A} (g : A → Z) (l l' : list A) (a : Z) :
  l ≡ₚ l' →
  fold_left (fun sum x => sum + g x) l a =
  fold_left (fun sum x => sum + g x) l' a.
Proof.
  intros H. revert a.
  induction H as [|x l l' _ IH|x y l|l l' l'' _ IH1 _ IH2]; intros a; simpl.
  - reflexivity.
  - apply IH.
  - f_equal. lia.
  - rewrite IH1. apply IH2.
Qed.

Lemma fold_left_sum_shift {A} (g : A → Z) (l : list A) (a b : Z) :
  fold_left (fun sum x => sum + g x) l (a + b) =
  fold_left (fun sum x => sum + g x) l a + b.
Proof.
  revert a. induction l as [|x l IH]; intros a; simpl; [reflexivity|].
  replace (a + b + g x) with (a + g x + b) by lia. apply IH.
Qed.

(** The feeds of [uid] after a feed was stored under a fresh id *)
Lemma getFeedsByUserId_insert (uid k : Z) (feed : Feed.t) (s : t) :
  feeds s !! k = None →
  getFeedsByUserId uid (set_feeds (<[k := feed]> (feeds s)) s) ≡ₚ
  if Feed.user_id feed =? uid
  then feed :: getFeedsByUserId uid s
  else getFeedsByUserId uid s.
Proof.
  intros H. unfold getFeedsByUserId. cbn [set_feeds feeds].
  rewrite (filter_Permutation _ _ _ (values_insert_fresh _ k feed H)).
  simpl. destruct (Feed.user_id feed =? uid); reflexivity.
Qed.

End Statistics.

(** Creating a feed moves the statistics of its owner as expected: the
    delivered count stays (the feed starts with [num_sent = 0]), the
    number of connected apps stays, and the number of active feeds grows
    by one exactly when the feed is created active. The statistics of
    every other user stay as they were. *)
Theorem stats_after_post_feeds (uid other now : Z) (body : PartialFeed.t)
  (s s' : MemStorage.t) (feed : Feed.t) :
  store_ok s →
  Routes.post_feeds (Some uid) body now s =
  (Routes.Json 201 (Routes.JFeed feed), s') →
  other ≠ uid →
  ∃ stats,
    Routes.get_stats (Some uid) s = Routes.JsonOf stats ∧
    Routes.get_stats (Some uid) s' =
    Routes.JsonOf
      (Routes.mkStats
         (Routes.activeFeeds stats +
          (if default false (Feed.active feed) then 1 else 0))
         (Routes.connectedApps stats) (Routes.contentDelivered stats)) ∧
    Routes.get_stats (Some other) s' = Routes.get_stats (Some other) s.
Proof.
  intros Hok Hpost Hother.
  assert (MemStorage.feeds s !! MemStorage.feedId s = None) as Hfresh.
  { destruct Hok as (_ & _ & Hf).
    destruct (MemStorage.feeds s !! MemStorage.feedId s) as [f|] eqn:E;
      [|reflexivity].
    destruct (Hf _ f E). lia. }
  assert (s' = MemStorage.set_feeds
                 (<[MemStorage.feedId s := feed]> (MemStorage.feeds s))
                 (MemStorage.mk (MemStorage.users s)
                    (MemStorage.connections s) (MemStorage.feeds s)
                    (MemStorage.userId s) (MemStorage.connectionId s)
                    (MemStorage.feedId s + 1)) ∧
          Feed.user_id feed = uid ∧ Feed.num_sent feed = 0)
    as (-> & Hu & Hn).
  { unfold Routes.post_feeds in Hpost.
    destruct (PartialFeed.full_text body); [|discriminate].
    destruct (Routes.insertFeedSchema_parse _) as [i|] eqn:Ei;
      [|discriminate].
    assert (InsertFeed.user_id i = uid) as Hi.
    { unfold Routes.insertFeedSchema_parse in Ei.
      cbn [PartialFeed.name PartialFeed.full_text PartialFeed.contents
           PartialFeed.completed_contents PartialFeed.separator
           PartialFeed.user_id PartialFeed.connection_id
           PartialFeed.frequency PartialFeed.description
           PartialFeed.active] in Ei.
      destruct (PartialFeed.name body); [|discriminate].
      destruct (PartialFeed.separator body); [|discriminate].
      destruct (PartialFeed.connection_id body); [|discriminate].
      destruct (PartialFeed.frequency body); [|discriminate].
      cbn -[Routes.int32] in Ei.
      destruct (Routes.int32 uid && Routes.int32 _); [|discriminate].
      injection Ei as <-. reflexivity. }
    simpl in Hpost. injection Hpost as <- <-.
    split; [reflexivity|]. split; [exact Hi|reflexivity]. }
  eexists. split; [reflexivity|].
  unfold Routes.get_stats. cbv zeta.
  pose proof (getFeedsByUserId_insert uid (MemStorage.feedId s) feed
                (MemStorage.mk (MemStorage.users s)
                   (MemStorage.connections s) (MemStorage.feeds s)
                   (MemStorage.userId s) (MemStorage.connectionId s)
                   (MemStorage.feedId s + 1)) Hfresh) as Hmine.
  pose proof (getFeedsByUserId_insert other (MemStorage.feedId s) feed
                (MemStorage.mk (MemStorage.users s)
                   (MemStorage.connections s) (MemStorage.feeds s)
                   (MemStorage.userId s) (MemStorage.connectionId s)
                   (MemStorage.feedId s + 1)) Hfresh) as Hothers.
  rewrite Hu, Z.eqb_refl in Hmine.
  assert ((uid =? other) = false) as E by (apply Z.eqb_neq; congruence).
  rewrite Hu, E in Hothers.
  change (MemStorage.getFeedsByUserId uid
            (MemStorage.mk (MemStorage.users s) (MemStorage.connections s)
               (MemStorage.feeds s) (MemStorage.userId s)
               (MemStorage.connectionId s) (MemStorage.feedId s + 1)))
    with (MemStorage.getFeedsByUserId uid s) in Hmine.
  change (MemStorage.getFeedsByUserId other
            (MemStorage.mk (MemStorage.users s) (MemStorage.connections s)
               (MemStorage.feeds s) (MemStorage.userId s)
               (MemStorage.connectionId s) (MemStorage.feedId s + 1)))
    with (MemStorage.getFeedsByUserId other s) in Hothers.
  split; f_equal.
  - f_equal.
    + rewrite (Permutation_length (filter_Permutation _ _ _ Hmine)).
      simpl. destruct (default false (Feed.active feed)); simpl; lia.
    + rewrite (fold_left_sum_Permutation _ _ _ 0 Hmine). simpl.
      rewrite Hn. reflexivity.
  - f_equal.
    + rewrite (Permutation_length (filter_Permutation _ _ _ Hothers)).
      reflexivity.
    + apply (fold_left_sum_Permutation _ _ _ 0 Hothers).
Qed.

Lemma stats_after_post_feeds_witness :
  ∃ stats,
    Routes.get_stats (Some 1) sample_store = Routes.JsonOf stats ∧
    Routes.get_stats (Some 1)
      (snd (Routes.post_feeds (Some 1)
              (Client.createFeedMutation_body
                 (Client.mkForm (js "News") None (js "a;b") (js ";")
                    (js "Daily") 1 true)) 9 sample_store)) =
    Routes.JsonOf
      (Routes.mkStats (Routes.activeFeeds stats + 1)
         (Routes.connectedApps stats) (Routes.contentDelivered stats)).
Proof.
  assert (store_ok sample_store) as Hok.
  { apply (bool_decide_unpack (store_ok sample_store)). vm_compute.
    exact I. }
  refine (let H :=
            stats_after_post_feeds 1 2 9
              (Client.createFeedMutation_body
                 (Client.mkForm (js "News") None (js "a;b") (js ";")
                    (js "Daily") 1 true))
              sample_store _ _ Hok eq_refl ltac:(discriminate) in _).
  destruct H as (stats & H1 & H2 & _).
  exists stats. split; [exact H1 | exact H2].
Defined.

(** ** More on [trim], [split] and the completion rate *)

(** [trim] removes white space at both ends and nothing else: the string
    is a run of white space, then its trim, then a run of white space,
    and a non-empty trim neither starts nor ends with white space. *)
Theorem trim_removes_only_whitespace (s : jsstring) :
  (∃ p q, s = p ++ trim s ++ q ∧
          whitespace_only p = true ∧ whitespace_only q = true) ∧
  (trim s = [] ∨
   ∃ a u b v, trim s = a :: u ∧ trim s = v ++ [b] ∧
              is_ws a = false ∧ is_ws b = false).
Proof.
  split; [apply trim_decompose|].
  destruct (trim_ends s) as [H|(a & u & b & v & Ha & Hb & Wa & Wb)];
    [left; exact H|right].
  exists a, u, b, (rev v). repeat split; try assumption.
  rewrite <- (rev_involutive (trim s)), Hb. reflexivity.
Qed.

Section NoSeparator.

Lemma split_loop_no_match (R seg s : jsstring) :
  (∀ pre t, s = pre ++ t → t ≠ [] → starts_with R t = false) →
  split_loop R O seg s = [rev seg ++ s].
Proof.
  revert seg. induction s as [|c s IH]; intros seg H.
  - simpl. rewrite app_nil_r. reflexivity.
  - cbn [split_loop]. rewrite (H [] (c :: s) eq_refl) by discriminate.
    rewrite IH.
    + simpl. rewrite <- app_assoc. reflexivity.
    + intros pre t -> Ht. apply (H (c :: pre) t eq_refl Ht).
Qed.

Lemma starts_with_part (R t : jsstring) :
  starts_with R t = true → part_of R t.
Proof.
  intros H. apply starts_with_app in H as [u ->]. exists [], u.
  reflexivity.
Qed.

End NoSeparator.

(** When the (non-empty) separator does not occur in the text, [split]
    returns the whole text as its single piece, and the server's split
    stores the trimmed text as the single item (no item if the text is
    white space only). *)
Theorem split_without_separator (S R : jsstring) :
  R ≠ [] → ¬ part_of R S →
  split S (Some R) = [S] ∧
  split_trim_filter S (Some R) = if truthy (trim S) then [trim S] else [].
Proof.
  intros HR Hno.
  assert (split S (Some R) = [S]) as E.
  { destruct R as [|r R]; [congruence|]. unfold split.
    rewrite split_loop_no_match; [reflexivity|].
    intros pre t -> _.
    destruct (starts_with (r :: R) t) eqn:Es; [|reflexivity].
    exfalso. apply Hno.
    destruct (starts_with_part _ _ Es) as (a & b & ->).
    exists (pre ++ a), b. rewrite <- app_assoc. reflexivity. }
  split; [exact E|]. unfold split_trim_filter. rewrite E. reflexivity.
Qed.

Lemma split_without_separator_witness :
  split x_newline_y (Some (js "\n")) = [x_newline_y] ∧
  split_trim_filter x_newline_y (Some (js "\n")) = [x_newline_y].
Proof.
  apply (split_without_separator x_newline_y (js "\n")).
  - discriminate.
  - intros (a & b & H).
    destruct a as [|? [|? [|? [|? a]]]]; vm_compute in H; discriminate H.
Defined.

(** The completion rate is exact at both ends in spite of the rounding:
    a feed with items of which none is sent shows 0, and a feed with
    items of which all are sent shows 100. *)
Theorem completionRate_endpoints (feed : Feed.t) :
  (Feed.num_sent feed = 0 → Client.completionRate feed = 0) ∧
  (Feed.contents feed ≠ [] →
   Feed.num_sent feed = Z.of_nat (length (Feed.contents feed)) →
   Client.completionRate feed = 100).
Proof.
  unfold Client.completionRate; cbv zeta. split.
  - intros ->. destruct (0 <? _); reflexivity.
  - intros Hne ->.
    destruct (Z.ltb_spec 0 (Z.of_nat (length (Feed.contents feed))))
      as [Hpos|Hzero].
    + pose proof (rate_value_full _ Hpos) as H. unfold Client.rate_value in H.
      unfold Number.Math_round.
      rewrite (Qfloor_comp _ (100 + (1 # 2))%Q); [reflexivity|].
      rewrite H. reflexivity.
    + destruct (Feed.contents feed); [congruence|simpl in Hzero; lia].
Qed.

Lemma completionRate_endpoints_witness :
  Client.completionRate (sample_feed 0 [js "a"; js "b"; js "c"]) = 0 ∧
  Client.completionRate (sample_feed 3 [js "a"; js "b"; js "c"]) = 100.
Proof.
  split.
  - apply (proj1 (completionRate_endpoints _)). reflexivity.
  - apply (proj2 (completionRate_endpoints _)); [discriminate|reflexivity].
Defined.

(** ** What the modals send is what gets stored *)

(** For a separator that is not one of the two placeholders, the feed
    stored for the create-feed modal's request (accepted when the user id
    and the connection id are within the range of their integer columns),
    and the feed stored for the edit-feed modal's request on a feed of the
    acting user, carry exactly the items the modal computed with
    [splitContent]; the edit keeps [completed_contents], [num_sent], the
    owner and [created_at]. *)
Theorem modal_requests_store_preview (uid id now : Z) (s : MemStorage.t)
  (data : Client.FeedFormValues) :
  Client.separator data ≠ js "\n" →
  Client.separator data ≠ js "\n\n" →
  (-2147483648 <= uid <= 2147483647 →
   -2147483648 <= Client.connection_id data <= 2147483647 →
   ∃ feed s',
     Routes.post_feeds (Some uid) (Client.createFeedMutation_body data)
       now s = (Routes.Json 201 (Routes.JFeed feed), s') ∧
     MemStorage.getFeed (Feed.id feed) s' = Some feed ∧
     Feed.contents feed =
     splitContent (Client.full_text data) (Client.separator data)) ∧
  (∀ existing,
     MemStorage.getFeed id s = Some existing →
     Feed.user_id existing = uid →
     ∃ feed s',
       Routes.patch_feed (Some uid) id
         (Client.updateFeedMutation_body existing data) now s =
       (Routes.Json 200 (Routes.JFeed feed), s') ∧
       MemStorage.getFeed id s' = Some feed ∧
       Feed.contents feed =
       splitContent (Client.full_text data) (Client.separator data) ∧
       Feed.completed_contents feed = Feed.completed_contents existing ∧
       Feed.num_sent feed = Feed.num_sent existing ∧
       Feed.user_id feed = Feed.user_id existing ∧
       Feed.created_at feed = Feed.created_at existing).
Proof.
  intros H1 H2. split.
  - intros Huid%int32_spec Hcid%int32_spec.
    unfold Routes.post_feeds, Routes.insertFeedSchema_parse.
    cbn -[Routes.int32]. rewrite Huid, Hcid. cbn.
    eexists. eexists. split; [reflexivity|].
    split; [apply lookup_insert_eq|]. cbn.
    unfold split_trim_filter, splitContent.
    repeat case_decide; try contradiction. apply filter_truthy_length.
  - intros existing Hget <-.
    unfold Routes.patch_feed, MemStorage.updateFeed.
    rewrite Hget. unfold MemStorage.getFeed in Hget. rewrite Hget.
    rewrite Z.eqb_refl. cbn [negb].
    eexists. eexists. split; [reflexivity|].
    split; [apply lookup_insert_eq|].
    unfold Routes.recompute_contents, Client.updateFeedMutation_body.
    cbn [PartialFeed.full_text PartialFeed.separator].
    destruct (truthy (Client.full_text data) &&
              truthy (Client.separator data)); simpl;
      repeat split.
    unfold split_trim_filter, splitContent.
    repeat case_decide; try contradiction. apply filter_truthy_length.
Qed.

Lemma modal_requests_store_preview_witness :
  (∃ feed s',
     Routes.post_feeds (Some 1)
       (Client.createFeedMutation_body
          (Client.mkForm (js "Quotes") None (js "a; b;;c") (js ";")
             (js "Daily") 1 true)) 9 (MemStorage.new 0) =
     (Routes.Json 201 (Routes.JFeed feed), s') ∧
     Feed.contents feed = [js "a"; js "b"; js "c"]) ∧
  (∃ feed s',
     Routes.patch_feed (Some 1) 1
       (Client.updateFeedMutation_body
          (Feed.mk 1 (js "Quotes") None (js "a;b") [js "a"; js "b"] []
             (js ";") 3 3 1 1 0 (js "Daily") (Some true))
          (Client.mkForm (js "Quotes") None (js "a; b;;c") (js ";")
             (js "Daily") 1 true)) 9 sample_store =
     (Routes.Json 200 (Routes.JFeed feed), s') ∧
     Feed.contents feed = [js "a"; js "b"; js "c"]).
Proof.
  split.
  - destruct (proj1 (modal_requests_store_preview 1 1 9 (MemStorage.new 0)
                       (Client.mkForm (js "Quotes") None (js "a; b;;c")
                          (js ";") (js "Daily") 1 true)
                       ltac:(discriminate) ltac:(discriminate))
                ltac:(lia) ltac:(simpl; lia))
      as (feed & s' & Hrun & _ & Hc).
    exists feed, s'. split; [exact Hrun|]. rewrite Hc. reflexivity.
  - destruct (proj2 (modal_requests_store_preview 1 1 9 sample_store
                       (Client.mkForm (js "Quotes") None (js "a; b;;c")
                          (js ";") (js "Daily") 1 true)
                       ltac:(discriminate) ltac:(discriminate))
                (Feed.mk 1 (js "Quotes") None (js "a;b") [js "a"; js "b"]
                   [] (js ";") 3 3 1 1 0 (js "Daily") (Some true)))
      as (feed & s' & Hrun & _ & Hc & _).
    + vm_compute. reflexivity.
    + reflexivity.
    + exists feed, s'. split; [exact Hrun|]. rewrite Hc. reflexivity.
Defined.

(** ** Saving the edit dialog unchanged *)

Section SaveUnchanged.

Lemma trimStart_snoc (l : jsstring) (a : N) :
  is_ws a = false → trimStart (l ++ [a]) ≠ [].
Proof.
  intros Ha. induction l as [|c l IH]; simpl.
  - rewrite Ha. discriminate.
  - destruct (is_ws c); [exact IH|discriminate].
Qed.

Lemma trim_head (a : N) (rest : jsstring) :
  is_ws a = false → trim (a :: rest) ≠ [].
Proof.
  intros Ha. unfold trim. rewrite (trimStart_fixed a rest Ha).
  unfold trimEnd. cbn [rev]. intros H.
  apply (f_equal (@rev N)) in H. rewrite rev_involutive in H.
  exact (trimStart_snoc _ _ Ha H).
Qed.

Lemma clean_item_head (x : jsstring) :
  clean_item x → ∃ a u, x = a :: u ∧ is_ws a = false.
Proof.
  intros (Hne & _ & Htrim).
  destruct (trim_ends x) as [H|(a & u & _ & _ & Ha & _ & Wa & _)];
    [congruence|].
  exists a, u. split; [congruence|exact Wa].
Qed.

Lemma join_head (R x : jsstring) (l : list jsstring) :
  ∃ t, join R (x :: l) = x ++ t.
Proof.
  destruct l as [|y l]; [exists []|exists (R ++ join R (y :: l))];
    [simpl; rewrite app_nil_r|]; reflexivity.
Qed.

(** The text rebuilt from clean items is not blank, unless there is no
    item. *)
Lemma join_clean (R : jsstring) (items : list jsstring) :
  Forall clean_item items → items ≠ [] →
  truthy (join R items) = true ∧ truthy (trim (join R items)) = true.
Proof.
  intros Hclean Hne. destruct items as [|x l]; [congruence|].
  inversion Hclean as [|? ? Hx _]; subst.
  destruct (clean_item_head x Hx) as (a & u & -> & Wa).
  destruct (join_head R (a :: u) l) as [t ->]. cbn [app truthy].
  split; [reflexivity|].
  pose proof (trim_head a (u ++ t) Wa) as H.
  destruct (trim (a :: u ++ t)); [congruence|reflexivity].
Qed.

End SaveUnchanged.

(** Opening the edit dialog on a feed whose items are trimmed and
    non-empty, and saving without a change (the request built from the
    form's initial values).
    - The dialog's preview, [splitContent] of the rebuilt text, shows the
      stored items when the separator stands for a single code unit (the
      newline placeholder, or a one-character separator such as [;])
      that the items are free of.
    - With a one-character separator the save stores the feed with the
      same items: what changes is [updated_at], the full text (now the
      rebuilt one), a missing description (now empty) and a missing
      [active] (now true).
    - With the newline placeholder the server splits on the placeholder's
      two characters, not on the newline: when they do not occur in the
      rebuilt text, the save replaces the items by one item, the whole
      text. *)
Theorem edit_save_unchanged (feed : Feed.t) :
  Forall clean_item (Feed.contents feed) →
  (∀ c,
     (Feed.separator feed = js "\n" ∧ c = LF) ∨ Feed.separator feed = [c] →
     Forall (fun item => Forall (fun x => x ≠ c) item) (Feed.contents feed) →
     splitContent (Client.reconstructFullText feed) (Feed.separator feed) =
     Feed.contents feed) ∧
  (∀ uid id now s,
     MemStorage.getFeed id s = Some feed →
     Feed.user_id feed = uid →
     (∀ c,
        Feed.separator feed = [c] →
        Forall (fun item => Forall (fun x => x ≠ c) item)
          (Feed.contents feed) →
        ∃ saved s',
          Routes.patch_feed (Some uid) id
            (Client.updateFeedMutation_body feed
               (Client.defaultValues feed)) now s =
          (Routes.Json 200 (Routes.JFeed saved), s') ∧
          MemStorage.getFeed id s' = Some saved ∧
          saved =
          Feed.mk id (Feed.name feed)
            (Some (default [] (Feed.description feed)))
            (Client.reconstructFullText feed) (Feed.contents feed)
            (Feed.completed_contents feed) (Feed.separator feed)
            (Feed.created_at feed) now (Feed.user_id feed)
            (Feed.connection_id feed) (Feed.num_sent feed)
            (Feed.frequency feed)
            (Some (default true (Feed.active feed)))) ∧
     (Feed.separator feed = js "\n" →
      Feed.contents feed ≠ [] →
      ¬ part_of (js "\n") (Client.reconstructFullText feed) →
      ∃ saved s',
        Routes.patch_feed (Some uid) id
          (Client.updateFeedMutation_body feed
             (Client.defaultValues feed)) now s =
        (Routes.Json 200 (Routes.JFeed saved), s') ∧
        MemStorage.getFeed id s' = Some saved ∧
        Feed.contents saved = [trim (Client.reconstructFullText feed)])).
Proof.
  intros Hclean. split.
  - intros c Hsep Hfree.
    assert (Client.reconstructFullText feed =
            join [c] (Feed.contents feed) ∧
            ∀ text,
              splitContent text (Feed.separator feed) =
              List.filter (fun item => 0 <? Z.of_nat (length item))
                (List.map trim (split text (Some [c])))) as [-> ->].
    { unfold Client.reconstructFullText, splitContent.
      destruct Hsep as [[-> ->]| ->]; [split; reflexivity|].
      cbn [truthy].
      split; [|intros text]; repeat case_decide; try discriminate;
        reflexivity. }
    cbn [split].
    destruct (Feed.contents feed) as [|x l] eqn:E; [reflexivity|].
    rewrite split_unit_join by (exact Hfree || discriminate).
    rewrite (map_trim_clean _ Hclean). apply filter_clean, Hclean.
  - intros uid id now s Hget <-.
    unfold Routes.patch_feed, MemStorage.updateFeed.
    rewrite Hget. unfold MemStorage.getFeed in *. rewrite Hget.
    rewrite Z.eqb_refl. cbn [negb].
    unfold Routes.recompute_contents, Client.updateFeedMutation_body,
      Client.defaultValues.
    cbn [PartialFeed.full_text PartialFeed.separator Client.full_text
         Client.separator].
    split.
    + intros c Hsep Hfree.
      assert (Client.reconstructFullText feed =
              join [c] (Feed.contents feed)) as Htext.
      { unfold Client.reconstructFullText. rewrite Hsep. cbn [truthy].
        repeat case_decide; try discriminate; reflexivity. }
      eexists. eexists. split; [reflexivity|].
      cbn [MemStorage.set_feeds MemStorage.feeds].
      split; [apply lookup_insert_eq|].
      destruct (Feed.contents feed) as [|x l] eqn:E.
      * rewrite Htext, Hsep. cbn.
        unfold splitContent. repeat case_decide; try discriminate.
        reflexivity.
      * destruct (join_clean [c] (x :: l) Hclean ltac:(discriminate))
          as [Ht _].
        rewrite Htext, Ht, Hsep. cbn [truthy andb].
        remember (join [c] (x :: l)) as text eqn:Etext. cbn.
        f_equal. unfold split_trim_filter. cbn [split]. subst text.
        rewrite split_unit_join by (exact Hfree || discriminate).
        rewrite (map_trim_clean _ Hclean), filter_truthy_length.
        apply filter_clean, Hclean.
    + intros Hsep Hne Hno.
      destruct (join_clean [LF] (Feed.contents feed) Hclean Hne)
        as [Ht Htt].
      assert (Client.reconstructFullText feed =
              join [LF] (Feed.contents feed)) as Htext.
      { unfold Client.reconstructFullText. rewrite Hsep. reflexivity. }
      rewrite <- Htext in Ht, Htt. clear Htext.
      remember (Client.reconstructFullText feed) as text eqn:Etext.
      rewrite Ht, Hsep. change (truthy (js "\n")) with true. cbn [andb].
      eexists. eexists. split; [reflexivity|].
      cbn [MemStorage.set_feeds MemStorage.feeds].
      split; [apply lookup_insert_eq|]. cbn.
      unfold split_trim_filter. cbn [split].
      rewrite split_loop_no_match.
      * change (rev [] ++ text) with text.
        cbn [List.map List.filter]. rewrite Htt. reflexivity.
      * intros pre t E _.
        destruct (starts_with (js "\n") t) eqn:Es; [|exact Es].
        exfalso. apply Hno.
        destruct (starts_with_part _ _ Es) as (a & b & ->).
        exists (pre ++ a), b. rewrite E, <- app_assoc. reflexivity.
Qed.

(** Feed 1 of [sample_store], with the separator [;]. *)
Lemma edit_save_unchanged_witness :
  splitContent
    (Client.reconstructFullText (feed_with (js "\n") [js "a b"; js "c"]))
    (js "\n") = [js "a b"; js "c"] ∧
  ∃ saved s',
    Routes.patch_feed (Some 1) 1
      (Client.updateFeedMutation_body
         (Feed.mk 1 (js "Quotes") None (js "a;b") [js "a"; js "b"] []
            (js ";") 3 3 1 1 0 (js "Daily") (Some true))
         (Client.defaultValues
            (Feed.mk 1 (js "Quotes") None (js "a;b") [js "a"; js "b"] []
               (js ";") 3 3 1 1 0 (js "Daily") (Some true))))
      9 sample_store = (Routes.Json 200 (Routes.JFeed saved), s') ∧
    MemStorage.getFeed 1 s' = Some saved ∧
    saved =
    Feed.mk 1 (js "Quotes") (Some []) (js "a;b") [js "a"; js "b"] []
      (js ";") 3 9 1 1 0 (js "Daily") (Some true).
Proof.
  split.
  - apply (proj1 (edit_save_unchanged
                    (feed_with (js "\n") [js "a b"; js "c"])
                    ltac:(repeat constructor; discriminate)) LF).
    + left. split; reflexivity.
    + repeat constructor; discriminate.
  - destruct (proj1 (proj2 (edit_save_unchanged
                              (Feed.mk 1 (js "Quotes") None (js "a;b")
                                 [js "a"; js "b"] [] (js ";") 3 3 1 1 0
                                 (js "Daily") (Some true))
                              ltac:(repeat constructor; discriminate))
                       1 1 9 sample_store eq_refl eq_refl) 59%N eq_refl
                ltac:(repeat constructor; discriminate))
      as (saved & s' & Hrun & Hget & Heq).
    exists saved, s'. split; [exact Hrun|]. split; [exact Hget|].
    exact Heq.
Defined.

(** With the newline placeholder: feed 1 of the store below has the items
    a and b; saved unchanged, it has the single item a, newline, b. *)
Example edit_save_placeholder :
  let feed :=
    Feed.mk 1 (js "Quotes") None [] [js "a"; js "b"] [] (js "\n") 3 3 1 1
      0 (js "Daily") (Some true) in
  let s :=
    MemStorage.set_feeds (<[1 := feed]> ∅) (MemStorage.new 0) in
  match
    Routes.patch_feed (Some 1) 1
      (Client.updateFeedMutation_body feed (Client.defaultValues feed)) 9 s
  with
  | (Routes.Json 200 (Routes.JFeed saved), s') =>
      Feed.contents saved = [js "a" ++ [LF] ++ js "b"] ∧
      MemStorage.getFeed 1 s' = Some saved
  | _ => False
  end.
Proof. vm_compute. split; reflexivity. Qed.

(** ** Ownership is a field like any other *)

(** The update handlers do not protect [user_id]: when the owner of a
    feed, or the owner of a connection, sends a body with another
    [user_id], the entity changes hands; afterwards the former owner gets
    404 for it and the new owner reads it. *)
Theorem patch_can_give_away (uid heir feedId connectionId now : Z)
  (s : MemStorage.t) :
  heir ≠ uid →
  (∀ feed,
     MemStorage.getFeed feedId s = Some feed →
     Feed.user_id feed = uid →
     ∃ feed' s',
       Routes.patch_feed (Some uid) feedId
         (PartialFeed.mk None None None None None None None None None
            (Some heir) None None None None) now s =
       (Routes.Json 200 (Routes.JFeed feed'), s') ∧
       Feed.user_id feed' = heir ∧
       Routes.get_feed (Some uid) feedId s' =
       (Routes.Json 404 (Routes.JMessage (js "Feed not found")), s') ∧
       Routes.get_feed (Some heir) feedId s' =
       (Routes.Json 200 (Routes.JFeed feed'), s')) ∧
  (∀ connection,
     MemStorage.getConnection connectionId s = Some connection →
     Connection.user_id connection = uid →
     ∃ connection' s',
       Routes.patch_connection (Some uid) connectionId
         (PartialConnection.mk None None None None None (Some heir) None
            None None None) now s =
       (Routes.Json 200 (Routes.JConnection connection'), s') ∧
       Connection.user_id connection' = heir ∧
       Routes.get_connection (Some uid) connectionId s' =
       (Routes.Json 404 (Routes.JMessage (js "Connection not found")),
        s') ∧
       Routes.get_connection (Some heir) connectionId s' =
       (Routes.Json 200 (Routes.JConnection connection'), s')).
Proof.
  intros Hne.
  assert ((heir =? uid) = false) as E by (apply Z.eqb_neq; exact Hne).
  split.
  - intros feed Hf Hu.
    unfold Routes.patch_feed, Routes.get_feed, MemStorage.updateFeed.
    rewrite Hf. unfold MemStorage.getFeed in *.
    rewrite Hf, Hu, Z.eqb_refl. cbn [negb].
    eexists. eexists. split; [reflexivity|]. split; [reflexivity|].
    cbn [MemStorage.set_feeds MemStorage.feeds].
    rewrite lookup_insert_eq. simpl. rewrite E, Z.eqb_refl.
    split; reflexivity.
  - intros connection Hc Hu.
    unfold Routes.patch_connection, Routes.get_connection,
      MemStorage.updateConnection.
    rewrite Hc. unfold MemStorage.getConnection in *.
    rewrite Hc, Hu, Z.eqb_refl. cbn [negb].
    eexists. eexists. split; [reflexivity|]. split; [reflexivity|].
    cbn [MemStorage.set_connections MemStorage.connections].
    rewrite lookup_insert_eq. simpl. rewrite E, Z.eqb_refl.
    split; reflexivity.
Qed.

(** Feed 3 and connection 2 of [sample_store] belong to user 2, who has
    no feed 2 and no connection 3. *)
Lemma patch_can_give_away_witness :
  (∃ feed' s',
     Routes.patch_feed (Some 2) 3
       (PartialFeed.mk None None None None None None None None None
          (Some 1) None None None None) 9 sample_store =
     (Routes.Json 200 (Routes.JFeed feed'), s') ∧
     Routes.get_feed (Some 2) 3 s' =
     (Routes.Json 404 (Routes.JMessage (js "Feed not found")), s')) ∧
  (∃ connection' s',
     Routes.patch_connection (Some 2) 2
       (PartialConnection.mk None None None None None (Some 1) None None
          None None) 9 sample_store =
     (Routes.Json 200 (Routes.JConnection connection'), s') ∧
     Routes.get_connection (Some 1) 2 s' =
     (Routes.Json 200 (Routes.JConnection connection'), s')).
Proof.
  split.
  - destruct (proj1 (patch_can_give_away 2 1 3 2 9 sample_store
                       ltac:(discriminate))
                (Feed.mk 3 (js "Quotes") None (js "a;b") [js "a"; js "b"]
                   [] (js ";") 5 5 2 2 0 (js "Daily") (Some true)))
      as (feed' & s' & Hrun & _ & Hgone & _).
    + vm_compute. reflexivity.
    + reflexivity.
    + exists feed', s'. split; [exact Hrun | exact Hgone].
  - destruct (proj2 (patch_can_give_away 2 1 3 2 9 sample_store
                       ltac:(discriminate))
                (Connection.mk 2 (js "Notes") (js "https://example.org")
                   (js "token") (js "Connected") 2 (js "notion") 2 2 None))
      as (connection' & s' & Hrun & _ & _ & Hread).
    + vm_compute. reflexivity.
    + reflexivity.
    + exists connection', s'. split; [exact Hrun | exact Hread].
Defined.

(** ** Creating and toggling a connection *)


(** The connection card's toggle, sent by the owner in a store whose
    entities sit under their own ids, answers 200 with the connection in
    which only [status] and [updated_at] changed: "Connected" becomes
    "Disconnected", and every other status becomes "Connected". *)
Theorem connection_card_toggle (uid id now : Z) (s : MemStorage.t)
  (connection : Connection.t) :
  store_ok s →
  MemStorage.getConnection id s = Some connection →
  Connection.user_id connection = uid →
  ∃ updated,
    Routes.patch_connection (Some uid) id
      (Client.toggleConnectionMutation_body connection) now s =
    (Routes.Json 200 (Routes.JConnection updated),
     MemStorage.set_connections
       (<[id := updated]> (MemStorage.connections s)) s) ∧
    updated =
    Connection.mk (Connection.id connection) (Connection.name connection)
      (Connection.url connection) (Connection.token connection)
      (Connection.status updated) (Connection.user_id connection)
      (Connection.icon connection) (Connection.created_at connection) now
      (Connection.projects connection) ∧
    (Connection.status connection = js "Connected" →
     Connection.status updated = js "Disconnected") ∧
    (Connection.status connection ≠ js "Connected" →
     Connection.status updated = js "Connected").
Proof.
  intros (_ & Hok & _) Hget <-.
  destruct (Hok id connection Hget) as [Hid _].
  unfold Routes.patch_connection, MemStorage.updateConnection.
  rewrite Hget. unfold MemStorage.getConnection in Hget. rewrite Hget.
  rewrite Z.eqb_refl. cbn [negb].
  eexists. split; [reflexivity|].
  unfold Client.toggleConnectionMutation_body. simpl. rewrite Hid.
  split; [reflexivity|].
  case_decide; split; intros; congruence.
Qed.

Lemma connection_card_toggle_witness :
  ∃ updated s',
    Routes.patch_connection (Some 1) 1
      (Client.toggleConnectionMutation_body
         (Connection.mk 1 (js "Notes") (js "https://example.org")
            (js "token") (js "Connected") 1 (js "notion") 1 1 None))
      9 sample_store =
    (Routes.Json 200 (Routes.JConnection updated), s') ∧
    Connection.status updated = js "Disconnected".
Proof.
  assert (store_ok sample_store) as Hok.
  { apply (bool_decide_unpack (store_ok sample_store)). vm_compute.
    exact I. }
  destruct (connection_card_toggle 1 1 9 sample_store
              (Connection.mk 1 (js "Notes") (js "https://example.org")
                 (js "token") (js "Connected") 1 (js "notion") 1 1 None)
              Hok)
    as (updated & Hrun & _ & Hoff & _).
  - vm_compute. reflexivity.
  - reflexivity.
  - exists updated. eexists. split; [exact Hrun|]. apply Hoff. reflexivity.
Defined.

(** ** Sample applications of the creation and lookup properties *)



Lemma getUserByUsername_spec_witness :
  ∃ id,
    MemStorage.getUser id sample_store =
    Some (User.mk 1 (js "admin") (js "admin") (js "admin@minimind.com")
            (js "Admin") 0).
Proof.
  apply (proj1 (getUserByUsername_spec (js "admin") sample_store)
           (User.mk 1 (js "admin") (js "admin") (js "admin@minimind.com")
              (js "Admin") 0)).
  vm_compute. reflexivity.
Defined.
